(** * minsandbox: the isolate driver of [sandbox/sandbox.go] and [sandbox/util.go]

    A shallow embedding of the flag builder ([buildRunFlags]), the report
    decoder ([parseMetaFile]), the command runner ([runCommand],
    [RunCommand]), the box constructor ([New]) and [MakeGoodCommand],
    followed by the properties of the design document that concern them
    (Part II), and of [getFilePath], [IsolateVersion], [writeFile] and
    [readFile], with further properties of the whole package (Part III)
    and of the decoder on lines and values it cannot read (Part IV).

    Conventions.
    - Go [string]s are byte strings: [string] (a list of [ascii] bytes).
    - Go [int] is [Z]; the 64-bit range only matters where [strconv.Atoi]
      clamps, and is written out there.
    - Go [float64] is [spec_float] at precision 53 and [emax] 1024.
    - A Go [map[string]string] is a [gmap string string]; the order in which
      [range] visits it is chosen by the runtime and is an explicit argument.
    - Everything outside the process (the isolate binary, the file system,
      the clock, the logger) is a [World] of oracles and a trace of [Event]s. *)

From Stdlib Require Import ZArith Ascii String List Bool Lia.
From Stdlib Require Import SpecFloat.
From stdpp Require Import base option list strings gmap fin_maps.

Local Open Scope Z_scope.

(* ===================================================================== *)
(** * Part I: definitions *)
(* ===================================================================== *)

(** ** Bytes *)

Definition byte (c : ascii) : Z := Z.of_N (N_of_ascii c).

Definition isDigit (c : ascii) : bool := (48 <=? byte c) && (byte c <=? 57).

(** [lower] of strconv: [c | ('x' - 'X')]. *)
Definition lower (c : ascii) : Z := Z.lor (byte c) 32.

Definition isHexLetter (c : ascii) : bool := (97 <=? lower c) && (lower c <=? 102).

Definition strlen (s : string) : Z := Z.of_nat (String.length s).

(** ** Package [strings] *)

Module GoStrings.

(** [strings.HasPrefix(s, prefix)]. *)
Fixpoint HasPrefix (s pre : string) {struct pre} : bool :=
  match pre with
  | EmptyString => true
  | String a pre' =>
      match s with
      | EmptyString => false
      | String b s' => Ascii.eqb a b && HasPrefix s' pre'
      end
  end.

Fixpoint Contains (s substr : string) : bool :=
  HasPrefix s substr ||
  match s with
  | EmptyString => false
  | String _ rest => Contains rest substr
  end.

(** [strings.Cut(s, sep)] for a one-byte separator. *)
Fixpoint Cut (s : string) (sep : ascii) : string * string * bool :=
  match s with
  | EmptyString => (EmptyString, EmptyString, false)
  | String c rest =>
      if Ascii.eqb c sep then (EmptyString, rest, true)
      else
        let '(before, after, found) := Cut rest sep in
        if found then (String c before, after, true)
        else (String c before, EmptyString, false)
  end.

(** The six ASCII bytes of [asciiSpace]. *)
Definition isAsciiSpace (c : ascii) : bool :=
  let b := byte c in
  (b =? 9) || (b =? 10) || (b =? 11) || (b =? 12) || (b =? 13) || (b =? 32).

(** UTF-8 encodings of the remaining runes of [unicode.IsSpace]:
    U+0085 and U+00A0 take two bytes. *)
Definition isSpace2 (c1 c2 : ascii) : bool :=
  (byte c1 =? 194) && ((byte c2 =? 133) || (byte c2 =? 160)).

(** U+1680, U+2000..U+200A, U+2028, U+2029, U+202F, U+205F and U+3000 take
    three bytes. *)
Definition isSpace3 (c1 c2 c3 : ascii) : bool :=
  let b1 := byte c1 in
  let b2 := byte c2 in
  let b3 := byte c3 in
  ((b1 =? 225) && (b2 =? 154) && (b3 =? 128))
  || ((b1 =? 226) && (b2 =? 128)
      && (((128 <=? b3) && (b3 <=? 138)) || (b3 =? 168) || (b3 =? 169) || (b3 =? 175)))
  || ((b1 =? 226) && (b2 =? 129) && (b3 =? 159))
  || ((b1 =? 227) && (b2 =? 128) && (b3 =? 128)).

Fixpoint trimLeftSpace (s : string) : string :=
  match s with
  | EmptyString => EmptyString
  | String c1 r1 =>
      if isAsciiSpace c1 then trimLeftSpace r1
      else
        match r1 with
        | EmptyString => s
        | String c2 r2 =>
            if isSpace2 c1 c2 then trimLeftSpace r2
            else
              match r2 with
              | EmptyString => s
              | String c3 r3 =>
                  if isSpace3 c1 c2 c3 then trimLeftSpace r3 else s
              end
        end
  end.

(** The same scan over the reversed bytes, for the right end. *)
Fixpoint trimLeftSpaceRev (s : string) : string :=
  match s with
  | EmptyString => EmptyString
  | String c1 r1 =>
      if isAsciiSpace c1 then trimLeftSpaceRev r1
      else
        match r1 with
        | EmptyString => s
        | String c2 r2 =>
            if isSpace2 c2 c1 then trimLeftSpaceRev r2
            else
              match r2 with
              | EmptyString => s
              | String c3 r3 =>
                  if isSpace3 c3 c2 c1 then trimLeftSpaceRev r3 else s
              end
        end
  end.

Definition TrimSpace (s : string) : string :=
  String.rev (trimLeftSpaceRev (String.rev (trimLeftSpace s))).

End GoStrings.

(** ** Package [strconv]: integers *)

Module GoStrconv.

Inductive NumError := ErrSyntax | ErrRange.

Definition maxInt64 : Z := 9223372036854775807.
Definition minInt64 : Z := -9223372036854775808.
Definition maxUint64 : Z := 18446744073709551615.

(** The character of a decimal digit. *)
Definition digitChar (d : Z) : ascii := ascii_of_N (Z.to_N (48 + d)).

(** The decimal digits of [n >= 0] in front of [acc], produced from the
    least significant one as [formatBits] does; [fuel] bounds the number
    of divisions. *)
Fixpoint formatDigits (fuel : nat) (n : Z) (acc : string) : string :=
  let acc' := String (digitChar (n mod 10)) acc in
  match fuel with
  | O => acc'
  | S fuel' => if n <? 10 then acc' else formatDigits fuel' (n / 10) acc'
  end.

(** [strconv.Itoa]. *)
Definition Itoa (i : Z) : string :=
  if i <? 0 then String "-" (formatDigits (Z.to_nat (Z.log2 (- i))) (- i) EmptyString)
  else formatDigits (Z.to_nat (Z.log2 i)) i EmptyString.

(** The loop of [ParseUint] in base 10: a byte that is no digit is a syntax
    error; once the accumulator leaves the 64-bit range the loop returns
    at once with [maxUint64] and a range error, without looking at the
    bytes that follow. *)
Fixpoint parseUintLoop (s : string) (n : Z) : Z * option NumError :=
  match s with
  | EmptyString => (n, None)
  | String c rest =>
      if isDigit c then
        if 1844674407370955162 <=? n then (maxUint64, Some ErrRange)
        else
          let n1 := n * 10 + (byte c - 48) in
          if maxUint64 <? n1 then (maxUint64, Some ErrRange)
          else parseUintLoop rest n1
      else (0, Some ErrSyntax)
  end.

Definition ParseUint (s : string) : Z * option NumError :=
  match s with
  | EmptyString => (0, Some ErrSyntax)
  | _ => parseUintLoop s 0
  end.

(** [ParseInt(s, 10, 0)] on a 64-bit platform, which is what [Atoi] does
    (its fast path for short strings computes the same). *)
Definition ParseInt (s : string) : Z * option NumError :=
  match s with
  | EmptyString => (0, Some ErrSyntax)
  | String c rest =>
      let neg := Ascii.eqb c "-" in
      let body := if Ascii.eqb c "+" || neg then rest else s in
      match ParseUint body with
      | (_, Some ErrSyntax) => (0, Some ErrSyntax)
      | (un, _) =>
          if negb neg && (maxInt64 + 1 <=? un) then (maxInt64, Some ErrRange)
          else if neg && (maxInt64 + 1 <? un) then (minInt64, Some ErrRange)
          else (if neg then - un else un, None)
      end
  end.

Definition Atoi (s : string) : Z * option NumError := ParseInt s.


(** *** Floating point: [float64]

    A [float64] is a [spec_float]; finite values [S754_finite s m e] stand
    for [(-1)^s * m * 2^e] with [m] below [2^53] and [e] between [-1074]
    and [971]. *)

Definition float64 := spec_float.

Definition mantBits : Z := 52.
Definition minExp : Z := -1074.
Definition maxExp : Z := 971.

Definition float64Zero : float64 := S754_zero false.

(** Go's [f != 0]: both zeros compare equal to [0], NaN differs from it. *)
Definition isZero (f : float64) : bool :=
  match f with S754_zero _ => true | _ => false end.

Definition isInf (f : float64) : bool :=
  match f with S754_infinity _ => true | _ => false end.

(** [n / d] rounded to the nearest integer, ties to even. *)
Definition roundToEven (n d : Z) : Z :=
  let q := n / d in
  match 2 * (n mod d) ?= d with
  | Lt => q
  | Gt => q + 1
  | Eq => if Z.even q then q else q + 1
  end.

(** The float with mantissa [q] at exponent [s - 1074]: a mantissa that
    rounding has pushed to [2^53] moves to the next exponent, an exponent
    above [maxExp] gives infinity, a mantissa zero gives zero. *)
Definition finishRound (neg : bool) (q s : Z) : float64 :=
  let '(m, s') := if q =? 2 ^ (mantBits + 1) then (2 ^ mantBits, s + 1) else (q, s) in
  match m with
  | Zpos p => if maxExp <? s' - 1074 then S754_infinity neg else S754_finite neg p (s' - 1074)
  | _ => S754_zero neg
  end.

(** IEEE 754 round-to-nearest, ties-to-even, of the positive rational
    [num / den], with gradual underflow and overflow to infinity.  All
    float64 values are multiples of [2^-1074]: [w] is the value in that unit,
    rounded down, [s] the number of bits to drop from it to keep 53, and
    the mantissa is the value in units of [2^(s-1074)], rounded. *)
Definition roundNearestEven (neg : bool) (num den : Z) : float64 :=
  let n' := num * 2 ^ 1074 in
  let w := n' / den in
  let s := Z.max (Z.log2 w - mantBits) 0 in
  finishRound neg (roundToEven n' (den * 2 ^ s)) s.

(** The value [(-1)^neg * mant * base^exp] as a [float64]. *)
Definition floatOfScaled (neg : bool) (mant base exp : Z) : float64 :=
  if mant <=? 0 then S754_zero neg
  else roundNearestEven neg (mant * base ^ Z.max exp 0) (base ^ Z.max (- exp) 0).

(** **** [ParseFloat] *)

Definition toLowerAZ (c : ascii) : Z :=
  let b := byte c in if (65 <=? b) && (b <=? 90) then b + 32 else b.

Fixpoint commonPrefixLenIgnoreCase (s pre : string) : Z :=
  match s, pre with
  | String c s', String p pre' =>
      if toLowerAZ c =? byte p then 1 + commonPrefixLenIgnoreCase s' pre' else 0
  | _, _ => 0
  end.

Definition specialInf (neg : bool) (nsign : Z) (s : string) : option (float64 * Z) :=
  let n0 := commonPrefixLenIgnoreCase s "infinity" in
  let n := if (3 <? n0) && (n0 <? 8) then 3 else n0 in
  if (n =? 3) || (n =? 8) then Some (S754_infinity neg, nsign + n) else None.

(** [special]: the value and the number of bytes consumed. *)
Definition special (s : string) : option (float64 * Z) :=
  match s with
  | EmptyString => None
  | String c rest =>
      let b := byte c in
      if (b =? 43) || (b =? 45) then specialInf (b =? 45) 1 rest
      else if (b =? 105) || (b =? 73) then specialInf false 0 s
      else if (b =? 110) || (b =? 78) then
        if commonPrefixLenIgnoreCase s "nan" =? 3 then Some (S754_nan, 3) else None
      else None
  end.

(** The state of the digit loop of [readFloat].  [rf_mant] keeps every
    digit (the source keeps 19, or 16 in base 16, and a flag for the rest,
    which rounds to the same [float64]). *)
Record readState := {
  rf_mant : Z;
  rf_nd : Z;
  rf_dp : Z;
  rf_sawdot : bool;
  rf_sawdigits : bool;
  rf_underscores : bool
}.

Fixpoint readDigits (hex : bool) (s : string) (st : readState) : readState * string :=
  match s with
  | EmptyString => (st, s)
  | String c rest =>
      let b := byte c in
      if b =? 95 then
        readDigits hex rest
          {| rf_mant := rf_mant st; rf_nd := rf_nd st; rf_dp := rf_dp st;
             rf_sawdot := rf_sawdot st; rf_sawdigits := rf_sawdigits st;
             rf_underscores := true |}
      else if b =? 46 then
        if rf_sawdot st then (st, s)
        else
          readDigits hex rest
            {| rf_mant := rf_mant st; rf_nd := rf_nd st; rf_dp := rf_nd st;
               rf_sawdot := true; rf_sawdigits := rf_sawdigits st;
               rf_underscores := rf_underscores st |}
      else if isDigit c then
        if (b =? 48) && (rf_nd st =? 0) then
          readDigits hex rest
            {| rf_mant := rf_mant st; rf_nd := rf_nd st; rf_dp := rf_dp st - 1;
               rf_sawdot := rf_sawdot st; rf_sawdigits := true;
               rf_underscores := rf_underscores st |}
        else
          readDigits hex rest
            {| rf_mant := rf_mant st * (if hex then 16 else 10) + (b - 48);
               rf_nd := rf_nd st + 1; rf_dp := rf_dp st;
               rf_sawdot := rf_sawdot st; rf_sawdigits := true;
               rf_underscores := rf_underscores st |}
      else if hex && isHexLetter c then
        readDigits hex rest
          {| rf_mant := rf_mant st * 16 + (lower c - 97 + 10);
             rf_nd := rf_nd st + 1; rf_dp := rf_dp st;
             rf_sawdot := rf_sawdot st; rf_sawdigits := true;
             rf_underscores := rf_underscores st |}
      else (st, s)
  end.

(** The exponent digits: the accumulator stops growing at 10000. *)
Fixpoint readExpDigits (s : string) (e : Z) (us : bool) : Z * bool * string :=
  match s with
  | EmptyString => (e, us, s)
  | String c rest =>
      if byte c =? 95 then readExpDigits rest e true
      else if isDigit c then
        readExpDigits rest (if e <? 10000 then e * 10 + (byte c - 48) else e) us
      else (e, us, s)
  end.

(** [underscoreOK], on the sign-free text; [saw] is the class of the last
    byte: [0] start, [1] digit or base prefix, [2] underscore, [3] other. *)
Fixpoint underscoreLoop (hex : bool) (s : string) (saw : Z) : bool :=
  match s with
  | EmptyString => negb (saw =? 2)
  | String c rest =>
      if isDigit c || (hex && isHexLetter c) then underscoreLoop hex rest 1
      else if byte c =? 95 then
        if saw =? 1 then underscoreLoop hex rest 2 else false
      else if saw =? 2 then false
      else underscoreLoop hex rest 3
  end.

Definition dropSign (s : string) : string :=
  match s with
  | String c rest => if (byte c =? 43) || (byte c =? 45) then rest else s
  | EmptyString => s
  end.

Definition underscoreOK (s : string) : bool :=
  match dropSign s with
  | String c0 (String c1 rest) =>
      if (byte c0 =? 48) && ((lower c1 =? 98) || (lower c1 =? 111) || (lower c1 =? 120))
      then underscoreLoop (lower c1 =? 120) rest 1
      else underscoreLoop false (dropSign s) 0
  | s' => underscoreLoop false s' 0
  end.

Fixpoint takeBytes (n : nat) (s : string) : string :=
  match n, s with
  | S n', String c rest => String c (takeBytes n' rest)
  | _, _ => EmptyString
  end.

(** The outcome of [readFloat]: [None] for [ok = false]. *)
Record readResult := {
  rr_mant : Z;
  rr_exp : Z;
  rr_neg : bool;
  rr_hex : bool;
  rr_n : Z
}.

Definition readFloat (s : string) : option readResult :=
  match s with
  | EmptyString => None
  | String c0 _ =>
      let neg := byte c0 =? 45 in
      let s1 := dropSign s in
      let '(hex, s2) :=
        match s1 with
        | String z (String x (String c r)) =>
            if (byte z =? 48) && (lower x =? 120) then (true, String c r) else (false, s1)
        | _ => (false, s1)
        end in
      let '(st, s3) :=
        readDigits hex s2
          {| rf_mant := 0; rf_nd := 0; rf_dp := 0; rf_sawdot := false;
             rf_sawdigits := false; rf_underscores := false |} in
      if negb (rf_sawdigits st) then None
      else
        let dp0 := if rf_sawdot st then rf_dp st else rf_nd st in
        let scale := if hex then 4 else 1 in
        let expChar := if hex then 112 else 101 in
        let finish (dp : Z) (us : bool) (rest : string) :=
          let n := strlen s - strlen rest in
          if us && negb (underscoreOK (takeBytes (Z.to_nat n) s)) then None
          else
            Some {| rr_mant := rf_mant st;
                    rr_exp := if rf_mant st =? 0 then 0 else dp - scale * rf_nd st;
                    rr_neg := neg; rr_hex := hex; rr_n := n |} in
        match s3 with
        | String ce s4 =>
            if lower ce =? expChar then
              match s4 with
              | EmptyString => None
              | String cs s5 =>
                  let esign := if byte cs =? 45 then -1 else 1 in
                  let s6 := if (byte cs =? 43) || (byte cs =? 45) then s5 else s4 in
                  match s6 with
                  | EmptyString => None
                  | String cd _ =>
                      if isDigit cd then
                        let '(e, us, s7) := readExpDigits s6 0 (rf_underscores st) in
                        finish (scale * dp0 + e * esign) us s7
                      else None
                  end
              end
            else if hex then None
            else finish (scale * dp0) (rf_underscores st) s3
        | EmptyString =>
            if hex then None else finish (scale * dp0) (rf_underscores st) s3
        end
  end.

(** [parseFloatPrefix]: value, bytes consumed, error. *)
Definition parseFloatPrefix (s : string) : float64 * Z * option NumError :=
  match special s with
  | Some (f, n) => (f, n, None)
  | None =>
      match readFloat s with
      | None => (float64Zero, 0, Some ErrSyntax)
      | Some r =>
          let f := floatOfScaled (rr_neg r) (rr_mant r) (if rr_hex r then 2 else 10) (rr_exp r) in
          (f, rr_n r, if isInf f then Some ErrRange else None)
      end
  end.

(** [strconv.ParseFloat(s, 64)]. *)
Definition ParseFloat (s : string) : float64 * option NumError :=
  let '(f, n, err) := parseFloatPrefix s in
  match err with
  | Some ErrSyntax => (float64Zero, Some ErrSyntax)
  | _ => if n =? strlen s then (f, err) else (float64Zero, Some ErrSyntax)
  end.

(** **** [FormatFloat(f, 'f', -1, 64)]

    With precision [-1] strconv emits the shortest digit string that
    [ParseFloat] reads back as [f], and among the shortest the one closest
    to [f].  A positive rational reads back as the finite [m * 2^e] exactly
    when it lies between the midpoints to the neighbouring floats (the
    midpoints themselves count when [m] is even).  In units of [2^-1076]
    the float is [4m * 2^(e+1074)], the upper midpoint is [4m+2] and the
    lower midpoint [4m-2], or [4m-1] just above a power of two, times the
    same power. *)

Definition lowerMid (m : positive) (e : Z) : Z :=
  (if (Zpos m =? 2 ^ mantBits) && (minExp <? e) then 4 * Zpos m - 1 else 4 * Zpos m - 2)
  * 2 ^ (e + 1074).

Definition upperMid (m : positive) (e : Z) : Z := (4 * Zpos m + 2) * 2 ^ (e + 1074).

(** [num / den] lies in the interval of [m * 2^e]. *)
Definition inRoundingInterval (m : positive) (e : Z) (num den : Z) : bool :=
  let a := num * 2 ^ 1076 in
  if Z.even (Zpos m)
  then (lowerMid m e * den <=? a) && (a <=? upperMid m e * den)
  else (lowerMid m e * den <? a) && (a <? upperMid m e * den).

(** [10^p] as a fraction. *)
Definition pow10Num (p : Z) : Z := 10 ^ Z.max p 0.
Definition pow10Den (p : Z) : Z := 10 ^ Z.max (- p) 0.

(** The least and the greatest [j] with [j * 10^p] inside the interval. *)
Definition candLo (m : positive) (e p : Z) : Z :=
  let n := lowerMid m e * pow10Den p in
  let d := 2 ^ 1076 * pow10Num p in
  if Z.even (Zpos m) then (n + d - 1) / d else n / d + 1.

Definition candHi (m : positive) (e p : Z) : Z :=
  let n := upperMid m e * pow10Den p in
  let d := 2 ^ 1076 * pow10Num p in
  if Z.even (Zpos m) then n / d else (n + d - 1) / d - 1.

(** [f / 10^p] rounded to the nearest integer, ties to even. *)
Definition candNearest (m : positive) (e p : Z) : Z :=
  roundToEven (4 * Zpos m * 2 ^ (e + 1074) * pow10Den p) (2 ^ 1076 * pow10Num p).

(** Try [p], then [p - 1], ...: the first exponent whose interval holds a
    multiple of [10^p] gives the fewest digits. *)
Fixpoint shortestFrom (fuel : nat) (m : positive) (e p : Z) : Z * Z :=
  let lo := candLo m e p in
  let hi := candHi m e p in
  if lo <=? hi then (Z.max lo (Z.min hi (candNearest m e p)), p)
  else
    match fuel with
    | O => (0, p)
    | S fuel' => shortestFrom fuel' m e (p - 1)
    end.

(** An exponent at which the search can start: [10^p] is above the float
    and its upper midpoint ([2^l] is, and [10^(l/3+1)] or [10^(3l/10+1)]
    is above [2^l]). *)
Definition shortestStart (m : positive) (e : Z) : Z :=
  let l := Z.log2 (Zpos m) + e + 1 in
  (if 0 <=? l then l / 3 else l * 3 / 10) + 1.

(** The decimal digits [j] and exponent [p] of the shortest representation:
    the search starts at [shortestStart] and ends at the latest at
    [min e 0], where [f] itself is a multiple of [10^p]. *)
Definition shortest (m : positive) (e : Z) : Z * Z :=
  let p0 := shortestStart m e in
  shortestFrom (Z.to_nat (p0 - Z.min e 0)) m e p0.

Fixpoint zeros (n : nat) : string :=
  match n with
  | O => EmptyString
  | S n' => String "0" (zeros n')
  end.

Fixpoint dropBytes (n : nat) (s : string) : string :=
  match n, s with
  | S n', String _ rest => dropBytes n' rest
  | _, _ => s
  end.

(** [fmtF] with the precision of the shortest mode, [max (nd - dp) 0]:
    [digs] are the [nd] digits and the value is [0.digs * 10^dp]. *)
Definition fmtF (neg : bool) (digs : string) (dp : Z) : string :=
  let nd := strlen digs in
  let intPart :=
    if 0 <? dp then
      takeBytes (Z.to_nat (Z.min nd dp)) digs +:+ zeros (Z.to_nat (dp - Z.min nd dp))
    else "0" in
  let fracPart :=
    if 0 <? nd - dp then
      "." +:+ zeros (Z.to_nat (Z.min (- dp) (nd - dp)))
          +:+ dropBytes (Z.to_nat (Z.max dp 0)) digs
    else "" in
  (if neg then "-" else "") +:+ intPart +:+ fracPart.

Definition FormatFloat (f : float64) : string :=
  match f with
  | S754_nan => "NaN"
  | S754_infinity false => "+Inf"
  | S754_infinity true => "-Inf"
  | S754_zero neg => fmtF neg "" 0
  | S754_finite neg m e =>
      let '(j, p) := shortest m e in
      let digs := Itoa j in
      fmtF neg digs (strlen digs + p)
  end.

End GoStrconv.

(** ** Package [bufio]: a [Scanner] with the default [ScanLines] split *)

Module GoBufio.

Definition MaxScanTokenSize : Z := 65536.

(** The text cut at every line feed; a last line without a line feed is
    kept when it is not empty. *)
Fixpoint rawLines (s : string) : list string :=
  match s with
  | EmptyString => []
  | String c rest =>
      if byte c =? 10 then EmptyString :: rawLines rest
      else
        match rawLines rest with
        | [] => [String c EmptyString]
        | l :: ls => String c l :: ls
        end
  end.

(** [dropCR]: one trailing carriage return is removed. *)
Fixpoint dropCR (s : string) : string :=
  match s with
  | EmptyString => EmptyString
  | String c EmptyString => if byte c =? 13 then EmptyString else s
  | String c rest => String c (dropCR rest)
  end.

(** The tokens [Scan] delivers: scanning stops (with [ErrTooLong], which
    the caller never reads) at the first line that does not fit the
    buffer. *)
Fixpoint scanTokens (ls : list string) : list string :=
  match ls with
  | [] => []
  | l :: rest =>
      if MaxScanTokenSize <=? strlen l then [] else dropCR l :: scanTokens rest
  end.

Definition scanLines (text : string) : list string := scanTokens (rawLines text).

End GoBufio.

(** ** The data model of [sandbox.go] *)

Definition error := string.

(** [IsolateBox]; the mutex serialises callers and has no place in a
    sequential model. *)
Record IsolateBox := {
  path : string;
  boxID : Z
}.

(** [Directory] represents a directory rule. *)
Record Directory := {
  In : string;
  Out : string;
  Opts : string;
  Removes : bool;
  Verbatim : bool
}.

Record RunConfig := {
  StderrToStdout : bool;
  InputPath : string;
  OutputPath : string;
  StderrPath : string;
  MemoryLimit : Z;
  TimeLimit : GoStrconv.float64;
  WallTimeLimit : GoStrconv.float64;
  InheritEnv : bool;
  EnvToInherit : list string;
  EnvToSet : gmap string string;
  Directories : list Directory
}.

Record RunStats := {
  Memory : Z;
  ExitCode : Z;
  ExitSignal : Z;
  Killed : bool;
  Message : string;
  Status : string; Time : GoStrconv.float64;
  InternalMessage : string
}.

(** [new(RunStats)]: every field at its zero value. *)
Definition zeroRunStats : RunStats :=
  {| Memory := 0; ExitCode := 0; ExitSignal := 0; Killed := false;
     Message := ""; Status := ""; Time := GoStrconv.float64Zero;
     InternalMessage := "" |}.

Definition runErrRetries : nat := 3.

(** [runErrTimeout], in milliseconds. *)
Definition runErrTimeout : Z := 200.

(** What the code writes to the log. *)
Inductive LogMsg :=
| LogExecutableMissing (box : Z)
| LogError (e : error)
| LogTempFileFailed (e : error)
| LogRunRetry (box : Z) (attempt : nat) (retries : nat)
| LogBoxReset (id : Z)
| LogCleanupFailed (e : error) (out : string)
| LogChownFailed (e : error)
| LogUnknownStat (key val : string).

(** What the code does to the world, in order. *)
Inductive Event :=
| EvLog (m : LogMsg)
| EvStat (root p : string)
| EvCreateTemp (attempt : nat)
| EvExec (args : list string)
| EvSleep (ms : Z)
| EvClose (name : string)
| EvRemove (name : string)
| EvChown.

(** ** [buildRunFlags] *)

(** The order in which [range] visits a map is up to the runtime.  A seed
    picks it: the head of the seed selects which of the remaining entries
    comes next. *)
Fixpoint pickOrder {A} (seed : list nat) (l : list A) : list A :=
  match seed with
  | [] => l
  | k :: seed' =>
      match l with
      | [] => []
      | x :: _ =>
          let i := (k mod length l)%nat in
          nth i l x :: pickOrder seed' (firstn i l ++ skipn (S i) l)
      end
  end.

Definition rangeMap (seed : list nat) (m : gmap string string) : list (string * string) :=
  pickOrder seed (map_to_list m).

(** The body of the loop over [c.Directories]. *)
Definition dirFlag (dir : Directory) : string :=
  if Removes dir then "--dir=" +:+ In dir +:+ "="
  else
    let toAdd := "--dir=" +:+ In dir in
    let toAdd :=
      if String.eqb (Out dir) "" then
        if negb (Verbatim dir) then toAdd +:+ "=" +:+ In dir else toAdd
      else toAdd +:+ "=" +:+ Out dir in
    if negb (String.eqb (Opts dir) "") then toAdd +:+ ":" +:+ Opts dir else toAdd.

Definition envFlags (c : RunConfig) (seed : list nat) : list string :=
  (if InheritEnv c then ["--full-env"] else [])
  ++ map (fun env => "--env=" +:+ env) (EnvToInherit c)
  ++ map (fun kv => "--env=" +:+ fst kv +:+ "=" +:+ snd kv) (rangeMap seed (EnvToSet c)).

Definition limitFlags (c : RunConfig) : list string :=
  (if negb (GoStrconv.isZero (TimeLimit c))
   then ["--time=" +:+ GoStrconv.FormatFloat (TimeLimit c)] else [])
  ++ (if negb (GoStrconv.isZero (WallTimeLimit c))
      then ["--wall-time=" +:+ GoStrconv.FormatFloat (WallTimeLimit c)] else [])
  ++ (if negb (MemoryLimit c =? 0)
      then ["--cg-mem=" +:+ GoStrconv.Itoa (MemoryLimit c)] else []).

Definition orDevNull (p : string) : string :=
  if String.eqb p "" then "/dev/null" else p.

(** The configuration as [buildRunFlags] leaves it: the defaults are
    written through the pointer [c]. *)
Definition defaultStdio (c : RunConfig) : RunConfig :=
  {| StderrToStdout := StderrToStdout c;
     InputPath := orDevNull (InputPath c);
     OutputPath := orDevNull (OutputPath c);
     StderrPath := if StderrToStdout c then StderrPath c else orDevNull (StderrPath c);
     MemoryLimit := MemoryLimit c;
     TimeLimit := TimeLimit c;
     WallTimeLimit := WallTimeLimit c;
     InheritEnv := InheritEnv c;
     EnvToInherit := EnvToInherit c;
     EnvToSet := EnvToSet c;
     Directories := Directories c |}.

Definition stdioFlags (c : RunConfig) : list string :=
  let c' := defaultStdio c in
  ["--stdin=" +:+ InputPath c'; "--stdout=" +:+ OutputPath c']
  ++ (if StderrToStdout c then ["--stderr-to-stdout"] else ["--stderr=" +:+ StderrPath c']).

(** [buildRunFlags] compiles all flags into an array.  [metaFile] is the
    name of the report file ([None] for a nil [*os.File]); the result is the
    flag list and the configuration after the call. *)
Definition buildRunFlags (b : IsolateBox) (c : RunConfig) (metaFile : option string)
    (seed : list nat) : list string * RunConfig :=
  let res := ["--box-id=" +:+ GoStrconv.Itoa (boxID b)] in
  let res := res ++ ["--cg"; "--processes"] in
  let res := res ++ map dirFlag (Directories c) in
  let res := res ++ envFlags c seed in
  let res := res ++ limitFlags c in
  let res := res ++ stdioFlags c in
  let res := res ++ match metaFile with
                    | Some name => ["--meta=" +:+ name]
                    | None => []
                    end in
  let res := res ++ ["--silent"; "--run"; "--"] in
  (res, defaultStdio c).

(** ** [parseMetaFile] *)

Definition setMemory (v : Z) (f : RunStats) : RunStats :=
  {| Memory := v; ExitCode := ExitCode f; ExitSignal := ExitSignal f;
     Killed := Killed f; Message := Message f; Status := Status f; Time := Time f;
     InternalMessage := InternalMessage f |}.

Definition setExitCode (v : Z) (f : RunStats) : RunStats :=
  {| Memory := Memory f; ExitCode := v; ExitSignal := ExitSignal f;
     Killed := Killed f; Message := Message f; Status := Status f; Time := Time f;
     InternalMessage := InternalMessage f |}.

Definition setExitSignal (v : Z) (f : RunStats) : RunStats :=
  {| Memory := Memory f; ExitCode := ExitCode f; ExitSignal := v;
     Killed := Killed f; Message := Message f; Status := Status f; Time := Time f;
     InternalMessage := InternalMessage f |}.

Definition setKilled (v : bool) (f : RunStats) : RunStats :=
  {| Memory := Memory f; ExitCode := ExitCode f; ExitSignal := ExitSignal f;
     Killed := v; Message := Message f; Status := Status f; Time := Time f;
     InternalMessage := InternalMessage f |}.

Definition setMessage (v : string) (f : RunStats) : RunStats :=
  {| Memory := Memory f; ExitCode := ExitCode f; ExitSignal := ExitSignal f;
     Killed := Killed f; Message := v; Status := Status f; Time := Time f;
     InternalMessage := InternalMessage f |}.

Definition setStatus (v : string) (f : RunStats) : RunStats :=
  {| Memory := Memory f; ExitCode := ExitCode f; ExitSignal := ExitSignal f;
     Killed := Killed f; Message := Message f; Status := v; Time := Time f;
     InternalMessage := InternalMessage f |}.

Definition setTime (v : GoStrconv.float64) (f : RunStats) : RunStats :=
  {| Memory := Memory f; ExitCode := ExitCode f; ExitSignal := ExitSignal f;
     Killed := Killed f; Message := Message f; Status := Status f; Time := v;
     InternalMessage := InternalMessage f |}.

Definition setInternalMessage (v : string) (f : RunStats) : RunStats :=
  {| Memory := Memory f; ExitCode := ExitCode f; ExitSignal := ExitSignal f;
     Killed := Killed f; Message := Message f; Status := Status f; Time := Time f;
     InternalMessage := v |}.

(** The keys the [switch] names and silently passes over. *)
Definition ignoredKeys : list string :=
  ["time-wall"; "max-rss"; "csw-voluntary"; "csw-forced"; "cg-enabled"; "cg-oom-killed"].

(** The keys the [switch] stores. *)
Definition storedKeys : list string :=
  ["cg-mem"; "exitcode"; "exitsig"; "killed"; "message"; "status"; "time"].

(** The [switch] on [key]: the updated report and what is logged. *)
Definition parseField (file : RunStats) (key val : string) : RunStats * list LogMsg :=
  if String.eqb key "cg-mem" then (setMemory (fst (GoStrconv.Atoi val)) file, [])
  else if String.eqb key "exitcode" then (setExitCode (fst (GoStrconv.Atoi val)) file, [])
  else if String.eqb key "exitsig" then (setExitSignal (fst (GoStrconv.Atoi val)) file, [])
  else if String.eqb key "killed" then (setKilled true file, [])
  else if String.eqb key "message" then (setMessage val file, [])
  else if String.eqb key "status" then (setStatus val file, [])
  else if String.eqb key "time" then (setTime (fst (GoStrconv.ParseFloat val)) file, [])
  else if existsb (String.eqb key) ignoredKeys then (file, [])
  else (file, [LogUnknownStat key val]).

(** One turn of the [for s.Scan()] loop on the line [s.Text()]. *)
Definition parseLine (file : RunStats) (line : string) : RunStats * list LogMsg :=
  let '(key, val, found) := GoStrings.Cut line ":" in
  if negb found then (file, []) else parseField file key val.

Fixpoint parseLines (file : RunStats) (lines : list string) : RunStats * list LogMsg :=
  match lines with
  | [] => (file, [])
  | line :: rest =>
      let '(file', log) := parseLine file line in
      let '(file'', log') := parseLines file' rest in
      (file'', log ++ log')
  end.

(** [parseMetaFile] parses a specified meta file: [r] is the text behind
    the reader ([None] for a nil reader), [out] the captured output of the
    isolate process. *)
Definition parseMetaFile (r : option string) (out : string) : option RunStats * list LogMsg :=
  match r with
  | None => (None, [])
  | Some text =>
      let file := setInternalMessage out zeroRunStats in
      let '(file', log) := parseLines file (GoBufio.scanLines text) in
      (Some file', log)
  end.

(** ** The world outside the process *)

Inductive StatResult := StatOk | StatNotExist | StatFailed (e : error).

(** How [cmd.Run] of the isolate binary ends: with an error that is no
    [*exec.ExitError] (the process could not be run), or with the process
    having run (possibly with a non-zero exit), its combined output and the
    text it left in the report file. *)
Inductive ExecResult :=
| ExecFailed (e : error)
| ExecDone (exitError : bool) (isolateOut : string) (metaText : string).

Record World := {
  (** [os.Stat(path.Join(root, p))] *)
  w_stat : string -> string -> StatResult;
  (** [os.CreateTemp] at the given attempt: the file name or an error *)
  w_createTemp : nat -> error + string;
  (** the run of the isolate binary at the given attempt with the given arguments *)
  w_isolate : nat -> list string -> ExecResult;
  (** the order the runtime picks for [range c.EnvToSet] at the given attempt *)
  w_rangeSeed : nat -> list nat;
  (** [--init] at the given call of [New]: combined output and exit error *)
  w_init : nat -> Z -> string * option error;
  (** [--cleanup] at the given call of [New] ([true]: with [--cg]) *)
  w_cleanup : nat -> bool -> Z -> string * option error;
  (** [os.Chown(IsolatePath, 0, 0)] at the given call of [New] *)
  w_chown : nat -> option error;
  (** [exec.LookPath] and [filepath.EvalSymlinks] *)
  w_lookPath : string -> error + string;
  w_evalSymlinks : string -> error + string
}.

(** A Go call either returns or panics. *)
Inductive Outcome (A : Type) :=
| Panics
| Returns (a : A).
Arguments Panics {A}.
Arguments Returns {A} a.

(** ** [runCommand] and [RunCommand] *)

Definition runCommand (w : World) (attempt : nat) (params : list string) (metaFile : string)
    : option RunStats * option error * list Event :=
  match w_isolate w attempt params with
  | ExecFailed e => (None, Some e, [EvExec params])
  | ExecDone _ isolateOut metaText =>
      let '(stats, log) := parseMetaFile (Some metaText) isolateOut in
      (stats, None,
       [EvExec params] ++ map EvLog log ++ [EvRemove metaFile; EvClose metaFile])
  end.

(** The test of line 191: the attempt produced a report to hand back. *)
Definition usable (meta : option RunStats) (err : option error) : bool :=
  match err, meta with
  | None, Some m => negb (String.eqb (Status m) "XX")
  | _, _ => false
  end.

(** The test of lines 192 and 193: the program could not be executed and
    isolate's own output mentions [execve]. *)
Definition textFileBusy (meta : option RunStats) : bool :=
  match meta with
  | Some m => (ExitCode m =? 127) && GoStrings.Contains (InternalMessage m) "execve"
  | None => false
  end.

(** The loop [for i := 1; i <= runErrRetries; i++] with [n] turns left.
    [temps] are the report files whose removal has been deferred, the latest
    first; they are removed when the function returns. *)
Fixpoint runLoop (w : World) (b : IsolateBox) (command : list string)
    (n : nat) (i : nat) (meta : option RunStats) (conf : RunConfig) (temps : list string)
    : option RunStats * option error * RunConfig * list Event :=
  match n with
  | O => (meta, None, conf, map EvRemove temps)
  | S n' =>
      match w_createTemp w i with
      | inl e =>
          let '(r, err, conf', tr) := runLoop w b command n' (S i) meta conf temps in
          (r, err, conf', EvCreateTemp i :: EvLog (LogTempFileFailed e) :: tr)
      | inr name =>
          let '(flags, conf1) := buildRunFlags b conf (Some name) (w_rangeSeed w i) in
          let '(meta1, err1, tr1) := runCommand w i (flags ++ command) name in
          if usable meta1 err1 then
            if textFileBusy meta1 then
              let '(r, err, conf', tr) :=
                runLoop w b command n' (S i) meta1 conf1 (name :: temps) in
              (r, err, conf', EvCreateTemp i :: tr1 ++ EvSleep runErrTimeout :: tr)
            else
              (meta1, err1, conf1, EvCreateTemp i :: tr1 ++ map EvRemove (name :: temps))
          else
            let warn :=
              if (1 <? i)%nat then [EvLog (LogRunRetry (boxID b) i runErrRetries)] else [] in
            let '(r, err, conf', tr) :=
              runLoop w b command n' (S i) meta1 conf1 (name :: temps) in
            (r, err, conf', EvCreateTemp i :: tr1 ++ warn ++ EvSleep runErrTimeout :: tr)
      end
  end.

(** The check before the loop, which only logs. *)
Definition checkExecutable (w : World) (b : IsolateBox) (c0 : string) : list Event :=
  if GoStrings.HasPrefix c0 "/box" then
    EvStat (path b) c0 ::
    match w_stat w (path b) c0 with
    | StatOk => []
    | StatNotExist => [EvLog (LogExecutableMissing (boxID b))]
    | StatFailed e => [EvLog (LogError e)]
    end
  else [].

(** [RunCommand]: [command[0]] is read before anything else, so an empty
    command panics.  The result is the pair the function returns, the
    configuration behind [conf] afterwards and the trace. *)
Definition RunCommand (w : World) (b : IsolateBox) (command : list string) (conf : RunConfig)
    : Outcome (option RunStats * option error) * RunConfig * list Event :=
  match command !! 0%nat with
  | None => (Panics, conf, [])
  | Some c0 =>
      let '(meta, err, conf', tr) := runLoop w b command runErrRetries 1 None conf [] in
      (Returns (meta, err), conf', checkExecutable w b c0 ++ tr)
  end.

(** ** [New] *)

Definition initArgs (id : Z) : list string :=
  ["--cg"; "--box-id=" +:+ GoStrconv.Itoa id; "--init"].

Definition cleanupArgs (cg : bool) (id : Z) : list string :=
  (if cg then ["--cg"] else []) ++ ["--box-id=" +:+ GoStrconv.Itoa id; "--cleanup"].

Definition resetBox (w : World) (k : nat) (cg : bool) (id : Z) : list Event :=
  EvLog (LogBoxReset id) :: EvExec (cleanupArgs cg id) ::
  match w_cleanup w k cg id with
  | (out, Some e) => [EvLog (LogCleanupFailed e out)]
  | (_, None) => []
  end.

(** [New] returns a new box instance from the specified ID.  The source
    calls itself without a bound; [fuel] bounds the calls and [None] means
    the bound was reached.  [k] counts the calls made so far. *)
Fixpoint New (fuel : nat) (w : World) (k : nat) (id : Z)
    : option ((IsolateBox + error) * list Event) :=
  match fuel with
  | O => None
  | S fuel' =>
      let '(ret, err) := w_init w k id in
      let again tr :=
        match New fuel' w (S k) id with
        | Some (r, tr') => Some (r, EvExec (initArgs id) :: tr ++ tr')
        | None => None
        end in
      if GoStrings.HasPrefix ret "Box already exists" then again (resetBox w k true id)
      else if GoStrings.Contains ret "incompatible control group mode" then
        again (resetBox w k false id)
      else if GoStrings.HasPrefix ret "Must be started as root" then
        match w_chown w k with
        | Some e => Some (inr e, [EvExec (initArgs id); EvChown; EvLog (LogChownFailed e)])
        | None => again [EvChown]
        end
      else
        match err with
        | Some e => Some (inr e, [EvExec (initArgs id)])
        | None =>
            Some (inl {| path := GoStrings.TrimSpace ret; boxID := id |},
                  [EvExec (initArgs id)])
        end
  end.

(** ** [MakeGoodCommand] (util.go) *)

Definition MakeGoodCommand (w : World) (command : list string)
    : Outcome (option (list string) * option error) :=
  let tmp := command in
  match tmp !! 0%nat with
  | None => Panics
  | Some c0 =>
      if GoStrings.HasPrefix c0 "/box" then Returns (Some tmp, None)
      else
        match w_lookPath w c0 with
        | inl e => Returns (None, Some e)
        | inr cmd =>
            match w_evalSymlinks w cmd with
            | inl e => Returns (None, Some e)
            | inr cmd' => Returns (Some (<[0%nat := cmd']> tmp), None)
            end
        end
  end.

(** ** Notions used in the statements *)

(** The flags of [res] that start with [pre]. *)
Definition flagsWithPrefix (pre : string) (res : list string) : list string :=
  List.filter (fun flag => GoStrings.HasPrefix flag pre) res.

(** What follows [--dir=] in the flag of a rule. *)
Definition dirOutPart (dir : Directory) : string :=
  if String.eqb (Out dir) "" then
    if Verbatim dir then "" else "=" +:+ In dir
  else "=" +:+ Out dir.

Definition dirOptsPart (dir : Directory) : string :=
  if String.eqb (Opts dir) "" then "" else ":" +:+ Opts dir.

(** The flag of one explicit environment pair. *)
Definition envSetFlag (kv : string * string) : string :=
  "--env=" +:+ fst kv +:+ "=" +:+ snd kv.

(** The flags before the directory rules and the flags after the
    environment. *)
Definition fixedHead (b : IsolateBox) : list string :=
  ["--box-id=" +:+ GoStrconv.Itoa (boxID b); "--cg"; "--processes"].

Definition flagsTail (c : RunConfig) (metaFile : option string) : list string :=
  limitFlags c ++ stdioFlags c
  ++ match metaFile with Some name => ["--meta=" +:+ name] | None => [] end
  ++ ["--silent"; "--run"; "--"].

(** The report of an attempt is handed back to the caller: it is usable
    and the run did not end on a busy text file. *)
Definition accepted (meta : option RunStats) (err : option error) : bool :=
  usable meta err && negb (textFileBusy meta).

(** Attempt [i] of [RunCommand] seen on its own: [None] when no report file
    could be created, else what [runCommand] yields for the flags of the
    configuration followed by the command. *)
Definition attempt (w : World) (b : IsolateBox) (command : list string) (conf : RunConfig)
    (i : nat) : option (option RunStats * option error * list Event) :=
  match w_createTemp w i with
  | inl _ => None
  | inr name =>
      Some (runCommand w i
              (fst (buildRunFlags b conf (Some name) (w_rangeSeed w i)) ++ command) name)
  end.

(** The number of times the isolate binary is spawned in a trace. *)
Fixpoint execCount (tr : list Event) : nat :=
  match tr with
  | [] => 0
  | EvExec _ :: tr' => S (execCount tr')
  | _ :: tr' => execCount tr'
  end.

(** The sleeps of a trace, in order. *)
Fixpoint sleeps (tr : list Event) : list Z :=
  match tr with
  | [] => []
  | EvSleep ms :: tr' => ms :: sleeps tr'
  | _ :: tr' => sleeps tr'
  end.

(** Every spawn is followed by a sleep of [runErrTimeout] before the next
    spawn and before the end of the trace; [pending] tells that a spawn is
    still waiting for its sleep. *)
Fixpoint sleepFollowsEveryExec (pending : bool) (tr : list Event) : bool :=
  match tr with
  | [] => negb pending
  | EvExec _ :: tr' => negb pending && sleepFollowsEveryExec true tr'
  | EvSleep ms :: tr' => (ms =? runErrTimeout) && sleepFollowsEveryExec false tr'
  | _ :: tr' => sleepFollowsEveryExec pending tr'
  end.

(** The last line of a text, as the design document uses the word for the
    output of [--init]. *)
Definition lastLine (text : string) : string := List.last (GoBufio.rawLines text) "".

(** A line the decoder cannot split at a colon. *)
Definition noSeparator (line : string) : Prop := snd (GoStrings.Cut line ":") = false.

(** A line whose key is none of the keys the decoder stores: one of the
    keys it names and ignores, or a key it does not know. *)
Definition skippedKey (line : string) : Prop :=
  snd (GoStrings.Cut line ":") = true
  /\ fst (fst (GoStrings.Cut line ":")) ∉ storedKeys.

(** A line with the given key and a value. *)
Definition keyed (key : string) (line val : string) : Prop :=
  GoStrings.Cut line ":" = (key, val, true).

(** The finite floats of [float64]: a 53-bit mantissa at an exponent from
    [-1074] to [971], or a shorter mantissa at the exponent [-1074]. *)
Definition validFinite (m : positive) (e : Z) : Prop :=
  (2 ^ 52 <= Zpos m < 2 ^ 53 /\ -1074 <= e <= 971)
  \/ (Zpos m < 2 ^ 52 /\ e = -1074).

(** A string of decimal digits, and the number it denotes after the
    digits already read as [acc]. *)
Fixpoint allDigits (s : string) : bool :=
  match s with
  | EmptyString => true
  | String c rest => isDigit c && allDigits rest
  end.

Fixpoint digitsValue (s : string) (acc : Z) : Z :=
  match s with
  | EmptyString => acc
  | String c rest => digitsValue rest (acc * 10 + (byte c - 48))
  end.

(** The text of a decimal integer: an optional sign, then one digit or
    more. *)
Definition wellFormedInt (val : string) : bool :=
  match val with
  | EmptyString => false
  | String c rest =>
      if Ascii.eqb c "+" || Ascii.eqb c "-"
      then allDigits rest && negb (String.eqb rest "")
      else allDigits val
  end.

(** The string starts with a digit other than [0]. *)
Definition leadNonzero (s : string) : bool :=
  match s with
  | EmptyString => false
  | String c _ => isDigit c && negb (byte c =? 48)
  end.

(** The state in which [readFloat] starts its digit loop. *)
Definition readStart : GoStrconv.readState :=
  {| GoStrconv.rf_mant := 0; GoStrconv.rf_nd := 0; GoStrconv.rf_dp := 0;
     GoStrconv.rf_sawdot := false; GoStrconv.rf_sawdigits := false;
     GoStrconv.rf_underscores := false |}.

(** The text of a plain decimal: a digit first, then digits and dots. *)
Fixpoint digitsAndDots (s : string) : bool :=
  match s with
  | EmptyString => true
  | String c rest => (isDigit c || (byte c =? 46)) && digitsAndDots rest
  end.

Definition plainDecimal (s : string) : bool :=
  match s with
  | EmptyString => false
  | String c rest => isDigit c && digitsAndDots rest
  end.

(** ** Sample values *)

(** The zero value [RunConfig{}]. *)
Definition zeroConfig : RunConfig :=
  {| StderrToStdout := false; InputPath := ""; OutputPath := ""; StderrPath := "";
     MemoryLimit := 0; TimeLimit := GoStrconv.float64Zero;
     WallTimeLimit := GoStrconv.float64Zero; InheritEnv := false;
     EnvToInherit := []; EnvToSet := ∅; Directories := [] |}.

Definition setEnvToSet (m : gmap string string) (c : RunConfig) : RunConfig :=
  {| StderrToStdout := StderrToStdout c; InputPath := InputPath c;
     OutputPath := OutputPath c; StderrPath := StderrPath c;
     MemoryLimit := MemoryLimit c; TimeLimit := TimeLimit c;
     WallTimeLimit := WallTimeLimit c; InheritEnv := InheritEnv c;
     EnvToInherit := EnvToInherit c; EnvToSet := m; Directories := Directories c |}.

(** The limits of the demo program: 1.5 s of CPU time, 3 s of wall time
    and 1 GiB of memory. *)
Definition limitsConfig : RunConfig :=
  {| StderrToStdout := false; InputPath := ""; OutputPath := ""; StderrPath := "";
     MemoryLimit := 1048576; TimeLimit := S754_finite false 6755399441055744 (-52);
     WallTimeLimit := S754_finite false 6755399441055744 (-51); InheritEnv := false;
     EnvToInherit := []; EnvToSet := ∅; Directories := [] |}.

(** A configuration that sets two variables. *)
Definition twoVarConfig : RunConfig :=
  setEnvToSet (<["A" := "1"]> (<["B" := "2"]> ∅)) zeroConfig.

(** A configuration that merges stderr into stdout and names no path. *)
Definition mergeConfig : RunConfig :=
  {| StderrToStdout := true; InputPath := ""; OutputPath := ""; StderrPath := "";
     MemoryLimit := 0; TimeLimit := GoStrconv.float64Zero;
     WallTimeLimit := GoStrconv.float64Zero; InheritEnv := false;
     EnvToInherit := []; EnvToSet := ∅; Directories := [] |}.

Definition box50 : IsolateBox := {| path := "/var/local/lib/isolate/50/box"; boxID := 50 |}.

(** The [float64] nearest to 0.042. *)
Definition float_0_042 : GoStrconv.float64 := S754_finite false 6052837899185947 (-57).

(** The report of the design document's example. *)
Definition sampleReport : string := "status:OK
exitcode:0
time:0.042
cg-mem:2048
".

(** The [float64] 1.5, that is [3 * 2^-1] with a 53-bit mantissa. *)
Definition float_1_5 : GoStrconv.float64 := S754_finite false 6755399441055744 (-52).

(** A world in which nothing fails and isolate stays silent, with the given
    oracles for the report file, the runs and [--init]. *)
Definition worldWith (isolate : nat -> list string -> ExecResult)
    (init : nat -> Z -> string * option error) : World :=
  {| w_stat := fun _ _ => StatOk;
     w_createTemp := fun i => inr ("/tmp/sandbox-meta-" +:+ GoStrconv.Itoa (Z.of_nat i));
     w_isolate := isolate;
     w_rangeSeed := fun _ => [];
     w_init := init;
     w_cleanup := fun _ _ _ => ("", None);
     w_chown := fun _ => None;
     w_lookPath := fun name => inr ("/usr/bin/" +:+ name);
     w_evalSymlinks := fun p => inr p |}.

(** Isolate itself breaks on every run: the report says [XX]. *)
Definition brokenWorld : World :=
  worldWith (fun _ _ => ExecDone true "" "status:XX
message:Cannot run proxy
") (fun _ _ => ("/var/local/lib/isolate/50/box
", None)).

(** The first run finds the program busy, the second one succeeds. *)
Definition busyOnceWorld : World :=
  worldWith (fun i _ =>
               if (i =? 1)%nat then
                 ExecDone true "execve(/box/prog): Text file busy" "exitcode:127
status:RE
"
               else ExecDone false "" "time:0.042
status:OK
exitcode:0
")
            (fun _ _ => ("/var/local/lib/isolate/50/box
", None)).

(** [--init] prints a notice before the path. *)
Definition noisyInitWorld : World :=
  worldWith (fun _ _ => ExecFailed "unused")
            (fun _ _ => ("New box created
/var/local/lib/isolate/50/box
", None)).

(* ===================================================================== *)
(** * Part I, continued: the rest of the package *)
(* ===================================================================== *)

(** ** Notions used in the further properties of the runner *)

(** The names of the report files created in a trace, in the order of their
    creation. *)
Fixpoint createdTemps (w : World) (tr : list Event) : list string :=
  match tr with
  | [] => []
  | EvCreateTemp i :: tr' =>
      match w_createTemp w i with
      | inr name => name :: createdTemps w tr'
      | inl _ => createdTemps w tr'
      end
  | _ :: tr' => createdTemps w tr'
  end.

(** The argument lists of the spawns of a trace, in order. *)
Fixpoint execArgs (tr : list Event) : list (list string) :=
  match tr with
  | [] => []
  | EvExec args :: tr' => args :: execArgs tr'
  | _ :: tr' => execArgs tr'
  end.

(** No report file can be created at any attempt. *)
Definition noTempWorld : World :=
  {| w_stat := fun _ _ => StatOk;
     w_createTemp := fun _ => inl "no space left on device";
     w_isolate := fun _ _ => ExecFailed "unused";
     w_rangeSeed := fun _ => [];
     w_init := fun _ _ => ("", None);
     w_cleanup := fun _ _ _ => ("", None);
     w_chown := fun _ => None;
     w_lookPath := fun name => inr ("/usr/bin/" +:+ name);
     w_evalSymlinks := fun p => inr p |}.

(** An option of isolate as [buildRunFlags] writes them: an argument that
    starts with two dashes and is not the bare terminator [--]. *)
Definition isOption (flag : string) : bool :=
  GoStrings.HasPrefix flag "--" && negb (String.eqb flag "--").

(** ** Notions used in the further properties of the decoder *)

(** The value of a line when its key is [key]. *)
Definition lineValue (key line : string) : option string :=
  let '(k, val, found) := GoStrings.Cut line ":" in
  if found && String.eqb k key then Some val else None.

(** The value of the last of the lines whose key is [key]. *)
Fixpoint lastValue (key : string) (lines : list string) : option string :=
  match lines with
  | [] => None
  | line :: rest =>
      match lastValue key rest with
      | Some v => Some v
      | None => lineValue key line
      end
  end.

(** ** Notions used in the further properties of [New] *)

(** Call [k] of [New] ends in another call: the output of [--init] shows
    one of the three conditions the function repairs, and the repair of the
    third one, the [chown], succeeds. *)
Definition selfHeals (w : World) (k : nat) (id : Z) : bool :=
  let ret := fst (w_init w k id) in
  GoStrings.HasPrefix ret "Box already exists"
  || GoStrings.Contains ret "incompatible control group mode"
  || (GoStrings.HasPrefix ret "Must be started as root"
      && match w_chown w k with None => true | Some _ => false end).

(** The spawns of [--init] in a trace. *)
Definition initCount (id : Z) (tr : list Event) : nat :=
  length (List.filter (fun args => bool_decide (args = initArgs id)) (execArgs tr)).

(** Every [--init] finds the box in place. *)
Definition staleBoxWorld : World :=
  worldWith (fun _ _ => ExecFailed "unused")
            (fun _ _ => ("Box already exists, run `isolate --cleanup' first", Some "exit status 2")).

(** The first [--init] finds the box in place, the second one succeeds. *)
Definition staleOnceWorld : World :=
  worldWith (fun _ _ => ExecFailed "unused")
            (fun k _ =>
               if (k =? 0)%nat
               then ("Box already exists, run `isolate --cleanup' first", Some "exit status 2")
               else ("/var/local/lib/isolate/50/box
", None)).

(** ** [IsolateVersion] *)

(** [strings.TrimPrefix]. *)
Fixpoint dropLen (pre s : string) : string :=
  match pre, s with
  | String _ pre', String _ s' => dropLen pre' s'
  | _, _ => s
  end.

Definition TrimPrefix (s pre : string) : string :=
  if GoStrings.HasPrefix s pre then dropLen pre s else s.

(** [IsolateVersion]; [run] is what [CombinedOutput] of [isolate --version]
    gives: the output and the error. *)
Definition IsolateVersion (run : string * option error) : string :=
  let '(ret, err) := run in
  match err with
  | Some _ => "precompiled?"
  | None =>
      let '(line, _, _) := GoStrings.Cut ret "010" in
      TrimPrefix line "The process isolator "
  end.

(** The string holds the byte [c]. *)
Fixpoint hasByte (c : ascii) (s : string) : bool :=
  match s with
  | EmptyString => false
  | String a rest => Ascii.eqb a c || hasByte c rest
  end.

(** ** The file helpers [writeFile] and [readFile] *)

(** The calls on a file either succeed or fail with an error; the bytes
    copied play no part in what the helpers return. *)
Record FileCalls := {
  f_open : option error;
  f_copy : option error;
  f_sync : option error;
  f_close : option error
}.

Inductive FileEvent := FOpen | FCopy | FSync | FClose.

Definition writeFile (f : FileCalls) : option error * list FileEvent :=
  match f_open f with
  | Some err => (Some err, [FOpen])
  | None =>
      let err := f_copy f in
      let err :=
        match f_sync f with
        | Some err1 => match err with None => Some err1 | Some _ => err end
        | None => err
        end in
      let err :=
        match f_close f with
        | Some err1 => match err with None => Some err1 | Some _ => err end
        | None => err
        end in
      (err, [FOpen; FCopy; FSync; FClose])
  end.

Definition readFile (f : FileCalls) : option error * list FileEvent :=
  match f_open f with
  | Some err => (Some err, [FOpen])
  | None => (f_copy f, [FOpen; FCopy; FClose])
  end.

(** ** Package [path]: [Clean] and [Join], and [getFilePath]

    Paths are handled as the bytes they are. *)

Module GoPath.

Definition bytes := list ascii.

(** The reader is at the end of the path or at a slash. *)
Definition atBoundary (s : bytes) : bool :=
  match s with
  | [] => true
  | c :: _ => Ascii.eqb c "/"
  end.

(** The bytes up to the next slash, and the path from that slash on. *)
Fixpoint element (s : bytes) : bytes * bytes :=
  match s with
  | [] => ([], [])
  | c :: rest =>
      if Ascii.eqb c "/" then ([], s)
      else let '(e, r) := element rest in (c :: e, r)
  end.

(** The buffer [out] is kept with its last byte first, so [out.w] is its
    length.  [backtrack] is [out.w--] followed by the loop
    [for out.w > dotdot && out.index(out.w) != '/' { out.w-- }]. *)
Fixpoint backtrack (dotdot : nat) (out : bytes) : bytes :=
  match out with
  | [] => []
  | c :: out' =>
      if (dotdot <? length out')%nat && negb (Ascii.eqb c "/")
      then backtrack dotdot out'
      else out'
  end.

(** The loop [for r < n] of [Clean] on the bytes [s] still to read; every
    turn reads one byte at least, [fuel] bounds the turns. *)
Fixpoint cleanLoop (fuel : nat) (rooted : bool) (s : bytes) (out : bytes) (dotdot : nat)
    : bytes :=
  match fuel with
  | O => out
  | S fuel' =>
      match s with
      | [] => out
      | c :: r =>
          if Ascii.eqb c "/" then cleanLoop fuel' rooted r out dotdot
          else if Ascii.eqb c "." && atBoundary r then cleanLoop fuel' rooted r out dotdot
          else
            let dotdotElement :=
              match r with
              | c2 :: r2 =>
                  if Ascii.eqb c "." && Ascii.eqb c2 "." && atBoundary r2
                  then Some r2 else None
              | [] => None
              end in
            match dotdotElement with
            | Some r2 =>
                if (dotdot <? length out)%nat then
                  cleanLoop fuel' rooted r2 (backtrack dotdot out) dotdot
                else if negb rooted then
                  let out1 := if (0 <? length out)%nat then "/"%char :: out else out in
                  let out2 := "."%char :: "."%char :: out1 in
                  cleanLoop fuel' rooted r2 out2 (length out2)
                else cleanLoop fuel' rooted r2 out dotdot
            | None =>
                let out1 :=
                  if (rooted && negb (length out =? 1)%nat)
                     || (negb rooted && negb (length out =? 0)%nat)
                  then "/"%char :: out else out in
                let '(e, rest) := element s in
                cleanLoop fuel' rooted rest (rev e ++ out1) dotdot
            end
      end
  end.

(** [path.Clean]. *)
Definition Clean (p : bytes) : bytes :=
  match p with
  | [] => ["."%char]
  | c :: r =>
      let rooted := Ascii.eqb c "/" in
      let out :=
        if rooted then cleanLoop (length p) true r ["/"%char] 1
        else cleanLoop (length p) false p [] 0 in
      match out with
      | [] => ["."%char]
      | _ => rev out
      end
  end.

(** The loop of [path.Join] that fills [buf]. *)
Fixpoint joinLoop (elem : list bytes) (buf : bytes) : bytes :=
  match elem with
  | [] => buf
  | e :: rest =>
      let buf' :=
        match buf, e with
        | [], [] => buf
        | [], _ => e
        | _, _ => buf ++ "/"%char :: e
        end in
      joinLoop rest buf'
  end.

(** [path.Join]. *)
Definition Join (elem : list bytes) : bytes :=
  if (fold_right (fun e n => length e + n) 0 elem =? 0)%nat then []
  else Clean (joinLoop elem []).

End GoPath.

(** [getFilePath] returns a path to the file location on disk of a box
    file. *)
Definition getFilePath (b : IsolateBox) (boxpath : string) : string :=
  string_of_list_ascii
    (GoPath.Join [list_ascii_of_string (path b); list_ascii_of_string boxpath]).

(** ** Notions used in the properties of [getFilePath] *)

(** The rooted path [/e1/e2/.../en] of the elements [e1 ... en]. *)
Fixpoint chunks (es : list GoPath.bytes) : GoPath.bytes :=
  match es with
  | [] => []
  | e :: es' => "/"%char :: e ++ chunks es'
  end.

(** The elements of a path: the bytes between its slashes. *)
Fixpoint splitSlash (s : GoPath.bytes) : list GoPath.bytes :=
  match s with
  | [] => [[]]
  | c :: r =>
      if Ascii.eqb c "/" then [] :: splitSlash r
      else
        match splitSlash r with
        | e :: es => (c :: e) :: es
        | [] => [[c]]
        end
  end.

Definition noSlash (e : GoPath.bytes) : bool :=
  forallb (fun c => negb (Ascii.eqb c "/")) e.

Definition isDotDot (e : GoPath.bytes) : bool :=
  match e with
  | [c1; c2] => Ascii.eqb c1 "." && Ascii.eqb c2 "."
  | _ => false
  end.

(** An element that [Clean] drops: the empty one and the single dot. *)
Definition isSkipped (e : GoPath.bytes) : bool :=
  match e with
  | [] => true
  | [c] => Ascii.eqb c "."
  | _ => false
  end.

(** A name: an element without a slash that is neither empty nor a dot
    nor two dots. *)
Definition isName (e : GoPath.bytes) : bool :=
  noSlash e && negb (isSkipped e) && negb (isDotDot e).

(** What an element does to the names walked so far, the last one first. *)
Definition walk (st : list GoPath.bytes) (e : GoPath.bytes) : list GoPath.bytes :=
  if isSkipped e then st
  else if isDotDot e then tail st
  else e :: st.

(** The rooted path of the names walked, the last one first. *)
Definition rootedPath (st : list GoPath.bytes) : GoPath.bytes :=
  match st with
  | [] => ["/"%char]
  | _ => chunks (rev st)
  end.

(** [n] times the element [..] followed by a slash. *)
Fixpoint dotdots (n : nat) : GoPath.bytes :=
  match n with
  | O => []
  | S n' => "."%char :: "."%char :: "/"%char :: dotdots n'
  end.

(** The buffer of [Clean] for the names walked so far: their rooted path,
    its last byte first. *)
Fixpoint revChunks (st : list GoPath.bytes) : GoPath.bytes :=
  match st with
  | [] => []
  | e :: st' => rev e ++ "/"%char :: revChunks st'
  end.

Definition bufferOf (st : list GoPath.bytes) : GoPath.bytes :=
  match st with
  | [] => ["/"%char]
  | _ => revChunks st
  end.

(** The names of the root of [box50]. *)
Definition box50Names : list GoPath.bytes :=
  map list_ascii_of_string ["var"; "local"; "lib"; "isolate"; "50"; "box"].

(** The turns of the loop of [RunCommand] in a trace: each turn starts by
    asking for a report file. *)
Fixpoint turns (tr : list Event) : nat :=
  match tr with
  | [] => 0
  | EvCreateTemp _ :: tr' => S (turns tr')
  | _ :: tr' => turns tr'
  end.

Definition box51 : IsolateBox := {| path := "/var/local/lib/isolate/51/box"; boxID := 51 |}.

(** ** Notions used in the amended properties of the decoder *)

(** The value without its sign, as [ParseInt] hands it to [ParseUint]. *)
Definition intBody (val : string) : string :=
  match val with
  | String c rest => if Ascii.eqb c "+" || Ascii.eqb c "-" then rest else val
  | EmptyString => val
  end.

Definition hasMinus (val : string) : bool :=
  match val with
  | String c _ => Ascii.eqb c "-"
  | EmptyString => false
  end.

(** The digits a string starts with. *)
Fixpoint digitPrefix (s : string) : string :=
  match s with
  | String c rest => if isDigit c then String c (digitPrefix rest) else EmptyString
  | EmptyString => EmptyString
  end.

(** The digits the value starts with, after its sign, denote a number
    outside the unsigned 64-bit range. *)
Definition leadingDigitsOverflow (val : string) : bool :=
  GoStrconv.maxUint64 <? digitsValue (digitPrefix (intBody val)) 0.

(** What an integer field is set to by a value that is not the text of a
    decimal integer. *)
Definition valueOfMalformedInt (val : string) : Z :=
  if leadingDigitsOverflow val
  then (if hasMinus val then GoStrconv.minInt64 else GoStrconv.maxInt64)
  else 0.

(** The bytes that occur in the float literals of [strconv]: the digits,
    the signs, the dot, the underscore, and the letters of the hexadecimal
    digits, of the exponent and base marks and of [infinity] and [nan], in
    either case. *)
Definition floatByte (c : ascii) : bool :=
  let b := byte c in
  ((48 <=? b) && (b <=? 57))
  || (b =? 43) || (b =? 45) || (b =? 46) || (b =? 95)
  || ((97 <=? b) && (b <=? 102)) || ((65 <=? b) && (b <=? 70))
  || (b =? 105) || (b =? 73) || (b =? 110) || (b =? 78) || (b =? 112) || (b =? 80)
  || (b =? 116) || (b =? 84) || (b =? 120) || (b =? 88) || (b =? 121) || (b =? 89).

Fixpoint allFloatBytes (s : string) : bool :=
  match s with
  | EmptyString => true
  | String c rest => floatByte c && allFloatBytes rest
  end.

(** A line of 65536 bytes, the size at which the scanner gives up. *)
Definition longLine : string := GoStrconv.zeros (Z.to_nat GoBufio.MaxScanTokenSize).

(** Isolate breaks on every run, and no report file can be created at the
    third attempt. *)
Definition lastTempFailsWorld : World :=
  {| w_stat := w_stat brokenWorld;
     w_createTemp := fun i =>
       if (i =? 3)%nat then inl "too many open files" else w_createTemp brokenWorld i;
     w_isolate := w_isolate brokenWorld;
     w_rangeSeed := w_rangeSeed brokenWorld;
     w_init := w_init brokenWorld;
     w_cleanup := w_cleanup brokenWorld;
     w_chown := w_chown brokenWorld;
     w_lookPath := w_lookPath brokenWorld;
     w_evalSymlinks := w_evalSymlinks brokenWorld |}.

(* ===================================================================== *)
(** * Part II: properties *)
(* ===================================================================== *)

(** ** Strings and flag lists *)

Lemma append_cons (c : ascii) (a b : string) : String c a +:+ b = String c (a +:+ b).
Proof. reflexivity. Qed.

Lemma append_assoc (a b c : string) : (a +:+ b) +:+ c = a +:+ (b +:+ c).
Proof.
  induction a as [|x a IH]; [reflexivity|].
  rewrite !append_cons. by rewrite IH.
Qed.

Lemma append_empty_r (a : string) : a +:+ "" = a.
Proof.
  induction a as [|x a IH]; [reflexivity|].
  rewrite append_cons. by rewrite IH.
Qed.

Lemma flagsWithPrefix_app pre l1 l2 :
  flagsWithPrefix pre (l1 ++ l2) = flagsWithPrefix pre l1 ++ flagsWithPrefix pre l2.
Proof. apply List.filter_app. Qed.

Lemma flagsWithPrefix_map_none {A} pre (f : A -> string) (l : list A) :
  (forall x, GoStrings.HasPrefix (f x) pre = false) ->
  flagsWithPrefix pre (map f l) = [].
Proof.
  intros Hf. induction l as [|x l IH]; [reflexivity|].
  unfold flagsWithPrefix in *. cbn [map List.filter]. by rewrite Hf.
Qed.

Lemma flagsWithPrefix_map_all {A} pre (f : A -> string) (l : list A) :
  (forall x, GoStrings.HasPrefix (f x) pre = true) ->
  flagsWithPrefix pre (map f l) = map f l.
Proof.
  intros Hf. induction l as [|x l IH]; [reflexivity|].
  unfold flagsWithPrefix in *. cbn [map List.filter]. rewrite Hf. by rewrite IH.
Qed.

(** ** The shape of the flag list *)

Lemma dirFlag_shape (dir : Directory) :
  dirFlag dir =
    "--dir=" +:+ (if Removes dir then In dir +:+ "="
                  else In dir +:+ dirOutPart dir +:+ dirOptsPart dir).
Proof.
  unfold dirFlag, dirOutPart, dirOptsPart.
  destruct (Removes dir); [reflexivity|].
  destruct (String.eqb (Out dir) ""), (Verbatim dir), (String.eqb (Opts dir) "");
    cbn [negb]; rewrite ?append_assoc, ?append_empty_r; reflexivity.
Qed.

Lemma buildRunFlags_shape b c metaFile seed :
  buildRunFlags b c metaFile seed =
    (fixedHead b ++ map dirFlag (Directories c) ++ envFlags c seed ++ flagsTail c metaFile,
     defaultStdio c).
Proof.
  unfold buildRunFlags, fixedHead, flagsTail. f_equal.
  rewrite <- !app_assoc. reflexivity.
Qed.

Lemma flagsWithPrefix_split pre b c metaFile seed :
  flagsWithPrefix pre (fst (buildRunFlags b c metaFile seed)) =
    flagsWithPrefix pre (fixedHead b)
    ++ flagsWithPrefix pre (map dirFlag (Directories c))
    ++ flagsWithPrefix pre (envFlags c seed)
    ++ flagsWithPrefix pre (limitFlags c)
    ++ flagsWithPrefix pre (stdioFlags c)
    ++ flagsWithPrefix pre
         (match metaFile with Some name => ["--meta=" +:+ name] | None => [] end
          ++ ["--silent"; "--run"; "--"]).
Proof.
  rewrite buildRunFlags_shape. unfold flagsTail. cbn [fst].
  by rewrite !flagsWithPrefix_app.
Qed.

(** The first bytes of a flag decide whether it starts with a given
    literal; the groups of [buildRunFlags] are told apart that way. *)
Ltac by_first_bytes :=
  repeat match goal with
         | |- context [negb ?x] => destruct x; cbn [negb]
         | |- context [if ?x then _ else _] => destruct x
         | |- context [match ?x with Some _ => _ | None => _ end] => destruct x
         end;
  reflexivity.

Ltac no_dir_flags :=
  rewrite (flagsWithPrefix_map_none _ dirFlag)
    by (intros ?; rewrite dirFlag_shape; reflexivity).

Ltac no_env_flags :=
  unfold envFlags; rewrite !flagsWithPrefix_app;
  rewrite !flagsWithPrefix_map_none by (intros ?; reflexivity);
  rewrite !app_nil_r.

(** Every flag list of the groups other than the one asked for is empty. *)
Ltac other_groups :=
  rewrite flagsWithPrefix_split;
  try no_dir_flags; try no_env_flags;
  repeat match goal with
         | |- context [flagsWithPrefix ?p ?g] =>
             lazymatch g with
             | map _ _ => fail
             | _ =>
               let H := fresh in
               assert (H : flagsWithPrefix p g = []) by (unfold g; by_first_bytes);
               rewrite H; clear H
             end
         end.

Lemma dir_flags_filter b c metaFile seed :
  flagsWithPrefix "--dir=" (fst (buildRunFlags b c metaFile seed)) = map dirFlag (Directories c).
Proof.
  rewrite flagsWithPrefix_split.
  rewrite (flagsWithPrefix_map_all _ dirFlag)
    by (intros ?; rewrite dirFlag_shape; reflexivity).
  no_env_flags.
  replace (flagsWithPrefix "--dir=" (fixedHead b)) with (@nil string) by reflexivity.
  replace (flagsWithPrefix "--dir=" (limitFlags c)) with (@nil string)
    by (unfold limitFlags; by_first_bytes).
  replace (flagsWithPrefix "--dir=" (stdioFlags c)) with (@nil string)
    by (unfold stdioFlags; by_first_bytes).
  replace (flagsWithPrefix "--dir=" (if InheritEnv c then ["--full-env"] else []))
    with (@nil string) by by_first_bytes.
  destruct metaFile; cbn; by rewrite app_nil_r.
Qed.

Lemma stdin_flags_filter b c metaFile seed :
  flagsWithPrefix "--stdin" (fst (buildRunFlags b c metaFile seed)) =
    ["--stdin=" +:+ orDevNull (InputPath c)].
Proof.
  rewrite flagsWithPrefix_split. no_dir_flags. no_env_flags.
  unfold fixedHead, limitFlags, stdioFlags. by_first_bytes.
Qed.

Lemma stdout_flags_filter b c metaFile seed :
  flagsWithPrefix "--stdout" (fst (buildRunFlags b c metaFile seed)) =
    ["--stdout=" +:+ orDevNull (OutputPath c)].
Proof.
  rewrite flagsWithPrefix_split. no_dir_flags. no_env_flags.
  unfold fixedHead, limitFlags, stdioFlags. by_first_bytes.
Qed.

Lemma stderr_flags_filter b c metaFile seed :
  flagsWithPrefix "--stderr" (fst (buildRunFlags b c metaFile seed)) =
    if StderrToStdout c then ["--stderr-to-stdout"]
    else ["--stderr=" +:+ orDevNull (StderrPath c)].
Proof.
  rewrite flagsWithPrefix_split. no_dir_flags. no_env_flags.
  unfold fixedHead, limitFlags, stdioFlags, defaultStdio. cbn [StderrPath StderrToStdout].
  by_first_bytes.
Qed.

Lemma orDevNull_nonempty p : orDevNull p <> "".
Proof. unfold orDevNull. destruct (String.eqb_spec p ""); [discriminate|done]. Qed.

Lemma time_flags_filter b c metaFile seed :
  flagsWithPrefix "--time" (fst (buildRunFlags b c metaFile seed)) =
    if GoStrconv.isZero (TimeLimit c) then []
    else ["--time=" +:+ GoStrconv.FormatFloat (TimeLimit c)].
Proof.
  rewrite flagsWithPrefix_split. no_dir_flags. no_env_flags.
  unfold fixedHead, limitFlags, stdioFlags. by_first_bytes.
Qed.

Lemma wall_time_flags_filter b c metaFile seed :
  flagsWithPrefix "--wall-time" (fst (buildRunFlags b c metaFile seed)) =
    if GoStrconv.isZero (WallTimeLimit c) then []
    else ["--wall-time=" +:+ GoStrconv.FormatFloat (WallTimeLimit c)].
Proof.
  rewrite flagsWithPrefix_split. no_dir_flags. no_env_flags.
  unfold fixedHead, limitFlags, stdioFlags. by_first_bytes.
Qed.

Lemma memory_flags_filter b c metaFile seed :
  flagsWithPrefix "--cg-mem" (fst (buildRunFlags b c metaFile seed)) =
    if MemoryLimit c =? 0 then []
    else ["--cg-mem=" +:+ GoStrconv.Itoa (MemoryLimit c)].
Proof.
  rewrite flagsWithPrefix_split. no_dir_flags. no_env_flags.
  unfold fixedHead, limitFlags, stdioFlags. by_first_bytes.
Qed.

Lemma basic_memory_flags_filter b c metaFile seed :
  flagsWithPrefix "--mem" (fst (buildRunFlags b c metaFile seed)) = [].
Proof.
  rewrite flagsWithPrefix_split. no_dir_flags. no_env_flags.
  unfold fixedHead, limitFlags, stdioFlags. by_first_bytes.
Qed.

(** ** The order of a [range] over a map *)

Lemma nth_take_drop_perm {A} (l : list A) (i : nat) (d : A) :
  (i < length l)%nat ->
  nth i l d :: (firstn i l ++ skipn (S i) l) ≡ₚ l.
Proof.
  revert i. induction l as [|x l IH]; intros i Hi; cbn in Hi; [lia|].
  destruct i as [|i]; [reflexivity|].
  cbn [nth firstn skipn app].
  etrans; [apply Permutation_swap|]. constructor. apply IH. lia.
Qed.

Lemma pickOrder_perm {A} (seed : list nat) (l : list A) : pickOrder seed l ≡ₚ l.
Proof.
  revert l. induction seed as [|k seed IH]; intros l; [reflexivity|].
  destruct l as [|x l]; [reflexivity|].
  cbn [pickOrder]. rewrite IH.
  apply nth_take_drop_perm. apply Nat.mod_upper_bound. cbn. lia.
Qed.

Lemma pickOrder_short {A} (seed : list nat) (l : list A) :
  (length l <= 1)%nat -> pickOrder seed l = l.
Proof.
  intros Hl. pose proof (pickOrder_perm seed l) as HP.
  destruct l as [|x [|y l]]; cbn in Hl; try lia.
  - by apply Permutation_nil_r in HP.
  - by apply Permutation_singleton_r in HP.
Qed.

Lemma rangeMap_perm seed (m : gmap string string) : rangeMap seed m ≡ₚ map_to_list m.
Proof. apply pickOrder_perm. Qed.

Lemma rangeMap_lookup seed (m : gmap string string) k v :
  (k, v) ∈ rangeMap seed m <-> m !! k = Some v.
Proof. rewrite rangeMap_perm. apply elem_of_map_to_list. Qed.

Lemma rangeMap_NoDup seed (m : gmap string string) : NoDup (rangeMap seed m).*1.
Proof. rewrite rangeMap_perm. apply NoDup_fst_map_to_list. Qed.

Lemma envFlags_perm c s1 s2 : envFlags c s1 ≡ₚ envFlags c s2.
Proof.
  unfold envFlags. do 2 f_equiv.
  apply Permutation_map. by rewrite !rangeMap_perm.
Qed.

(** ** Directory rules *)

(** C5.  For every list of directory rules the flags that start with
    [--dir=] are exactly the flags of the rules, one per rule and in list
    order, placed right after the three fixed flags.  A rule that removes
    yields [--dir=In=], with neither an outside path nor options.  A rule
    that adds yields [--dir=In] followed by [=Out], or by [=In] when [Out]
    is empty and [Verbatim] is unset, or by nothing when [Out] is empty and
    [Verbatim] is set, followed by [:Opts] when [Opts] is not empty. *)
Theorem directory_flags_follow_the_rules b c metaFile seed :
  let res := fst (buildRunFlags b c metaFile seed) in
  res = fixedHead b ++ map dirFlag (Directories c) ++ envFlags c seed ++ flagsTail c metaFile
  /\ flagsWithPrefix "--dir=" res = map dirFlag (Directories c)
  /\ length (flagsWithPrefix "--dir=" res) = length (Directories c)
  /\ forall dir,
       dirFlag dir =
         if Removes dir then "--dir=" +:+ In dir +:+ "="
         else
           "--dir=" +:+ In dir
           +:+ (if String.eqb (Out dir) "" then
                  if Verbatim dir then "" else "=" +:+ In dir
                else "=" +:+ Out dir)
           +:+ (if String.eqb (Opts dir) "" then "" else ":" +:+ Opts dir).
Proof.
  cbv zeta. rewrite dir_flags_filter. repeat split.
  - by rewrite buildRunFlags_shape.
  - by rewrite length_map.
  - intros dir. rewrite dirFlag_shape. by destruct (Removes dir).
Qed.

(** ** Standard streams *)

(** C2.  For every configuration, [buildRunFlags] leaves the configuration
    with [/dev/null] in place of an empty stdin or stdout path, and in place
    of an empty stderr path when stderr is not merged into stdout.  The
    flag list then holds exactly one stdin flag and one stdout flag, naming
    the null device for an empty path, and for stderr either the single flag
    [--stderr-to-stdout] (merge set: no stderr path flag at all) or one
    stderr path flag, naming the null device for an empty path.  No stream is
    ever left without a flag or with an empty target.  When stderr is merged
    its path is not looked at: the configuration keeps the one it had. *)
Theorem empty_stdio_paths_become_null_device b c metaFile seed res c' :
  buildRunFlags b c metaFile seed = (res, c') ->
  (InputPath c = "" ->
     InputPath c' = "/dev/null" /\ flagsWithPrefix "--stdin" res = ["--stdin=/dev/null"])
  /\ (OutputPath c = "" ->
     OutputPath c' = "/dev/null" /\ flagsWithPrefix "--stdout" res = ["--stdout=/dev/null"])
  /\ (StderrPath c = "" ->
     if StderrToStdout c then flagsWithPrefix "--stderr" res = ["--stderr-to-stdout"]
     else StderrPath c' = "/dev/null"
          /\ flagsWithPrefix "--stderr" res = ["--stderr=/dev/null"])
  /\ flagsWithPrefix "--stdin" res = ["--stdin=" +:+ InputPath c'] /\ InputPath c' <> ""
  /\ flagsWithPrefix "--stdout" res = ["--stdout=" +:+ OutputPath c'] /\ OutputPath c' <> ""
  /\ (if StderrToStdout c then flagsWithPrefix "--stderr" res = ["--stderr-to-stdout"]
      else flagsWithPrefix "--stderr" res = ["--stderr=" +:+ StderrPath c']
           /\ StderrPath c' <> "")
  /\ (StderrToStdout c = true -> StderrPath c' = StderrPath c).
Proof.
  intros Hrun.
  assert (Hres : res = fst (buildRunFlags b c metaFile seed)) by by rewrite Hrun.
  assert (Hc : c' = defaultStdio c) by (rewrite buildRunFlags_shape in Hrun; congruence).
  subst res c'.
  rewrite stdin_flags_filter, stdout_flags_filter, stderr_flags_filter.
  unfold defaultStdio. cbn [InputPath OutputPath StderrPath].
  split; [by intros ->|].
  split; [by intros ->|].
  split; [intros ->; by destruct (StderrToStdout c)|].
  split; [done|]. split; [apply orDevNull_nonempty|].
  split; [done|]. split; [apply orDevNull_nonempty|].
  destruct (StderrToStdout c); [done|].
  split; [split; [done|apply orDevNull_nonempty]|done].
Qed.

Lemma empty_stdio_paths_become_null_device_witness :
  let '(res, c') := buildRunFlags box50 zeroConfig (Some "/tmp/sandbox-meta-1") [] in
  InputPath c' = "/dev/null" /\ OutputPath c' = "/dev/null" /\ StderrPath c' = "/dev/null"
  /\ flagsWithPrefix "--stdin" res = ["--stdin=/dev/null"]
  /\ flagsWithPrefix "--stdout" res = ["--stdout=/dev/null"]
  /\ flagsWithPrefix "--stderr" res = ["--stderr=/dev/null"].
Proof.
  destruct (buildRunFlags box50 zeroConfig (Some "/tmp/sandbox-meta-1") []) as [res c'] eqn:E.
  destruct (empty_stdio_paths_become_null_device _ _ _ _ _ _ E) as (H1 & H2 & H3 & _).
  destruct (H1 eq_refl) as [? ?], (H2 eq_refl) as [? ?].
  specialize (H3 eq_refl). cbn in H3. destruct H3 as [? ?].
  repeat split; assumption.
Defined.

(** ** Determinism *)

(** C3, counterexample.  With two explicit pairs in [EnvToSet] the two
    orders the runtime may pick for the [range] give two different flag
    lists for one and the same input. *)
Lemma flag_list_depends_on_map_order :
  fst (buildRunFlags box50 twoVarConfig None [0%nat])
  <> fst (buildRunFlags box50 twoVarConfig None [1%nat]).
Proof. vm_compute. discriminate. Qed.

(** C3, amended.  Two invocations on equal inputs leave the same
    configuration and produce flag lists that agree everywhere outside the
    explicit pairs: the same flags before, the same flags after, and in
    between the environment flags in the order full-inherit flag, one flag
    per inherited name in list order, one flag per pair of [EnvToSet].  The
    pairs come in an order the runtime picks, each pair once, so the two
    lists are permutations of each other, and they are identical unless
    [EnvToSet] holds two pairs or more. *)
Theorem flag_list_determined_up_to_map_order b c metaFile s1 s2 :
  let r1 := buildRunFlags b c metaFile s1 in
  let r2 := buildRunFlags b c metaFile s2 in
  let envOf s :=
    (if InheritEnv c then ["--full-env"] else [])
    ++ map (fun name => "--env=" +:+ name) (EnvToInherit c)
    ++ map envSetFlag (rangeMap s (EnvToSet c)) in
  fst r1 = (fixedHead b ++ map dirFlag (Directories c)) ++ envOf s1 ++ flagsTail c metaFile
  /\ fst r2 = (fixedHead b ++ map dirFlag (Directories c)) ++ envOf s2 ++ flagsTail c metaFile
  /\ rangeMap s1 (EnvToSet c) ≡ₚ map_to_list (EnvToSet c)
  /\ rangeMap s2 (EnvToSet c) ≡ₚ map_to_list (EnvToSet c)
  /\ fst r1 ≡ₚ fst r2
  /\ snd r1 = snd r2
  /\ (fst r1 = fst r2 \/ (1 < size (EnvToSet c))%nat).
Proof.
  cbv zeta. rewrite !buildRunFlags_shape. cbn [fst snd].
  assert (Hshape : forall s,
    fixedHead b ++ map dirFlag (Directories c) ++ envFlags c s ++ flagsTail c metaFile =
    (fixedHead b ++ map dirFlag (Directories c)) ++ envFlags c s ++ flagsTail c metaFile)
    by (intros s; by rewrite <- app_assoc).
  split; [apply Hshape|]. split; [apply Hshape|].
  split; [apply rangeMap_perm|]. split; [apply rangeMap_perm|].
  split; [do 2 f_equiv; apply Permutation_app_tail, envFlags_perm|].
  split; [done|].
  destruct (decide (size (EnvToSet c) <= 1)%nat) as [Hs|Hs]; [left|right; lia].
    unfold envFlags, rangeMap.
    rewrite !pickOrder_short; [done| |]; by rewrite length_map_to_list.
Qed.

(** ** The command runner *)

Lemma orDevNull_idem p : orDevNull (orDevNull p) = orDevNull p.
Proof.
  unfold orDevNull at 2 3. destruct (String.eqb_spec p ""); [reflexivity|].
  unfold orDevNull. destruct (String.eqb_spec p ""); done.
Qed.

Lemma defaultStdio_idem c : defaultStdio (defaultStdio c) = defaultStdio c.
Proof.
  unfold defaultStdio. cbn. rewrite !orDevNull_idem.
  destruct (StderrToStdout c); by rewrite ?orDevNull_idem.
Qed.

(** The flags do not change once the defaults have been written back. *)
Lemma buildRunFlags_defaultStdio b c metaFile seed :
  buildRunFlags b (defaultStdio c) metaFile seed = buildRunFlags b c metaFile seed.
Proof.
  rewrite !buildRunFlags_shape. rewrite defaultStdio_idem. f_equal.
  unfold flagsTail, stdioFlags. by rewrite defaultStdio_idem.
Qed.

Lemma execCount_app tr1 tr2 : execCount (tr1 ++ tr2) = (execCount tr1 + execCount tr2)%nat.
Proof.
  induction tr1 as [|ev tr1 IH]; [reflexivity|].
  destruct ev; cbn; by rewrite ?IH.
Qed.

Lemma execCount_logs log : execCount (map EvLog log) = 0%nat.
Proof. induction log; [reflexivity|done]. Qed.

Lemma execCount_removes temps : execCount (map EvRemove temps) = 0%nat.
Proof. induction temps; [reflexivity|done]. Qed.

Lemma sleeps_app tr1 tr2 : sleeps (tr1 ++ tr2) = sleeps tr1 ++ sleeps tr2.
Proof.
  induction tr1 as [|ev tr1 IH]; [reflexivity|].
  destruct ev; cbn; by rewrite ?IH.
Qed.

Lemma sleeps_logs log : sleeps (map EvLog log) = [].
Proof. induction log; [reflexivity|done]. Qed.

Lemma sleeps_removes temps : sleeps (map EvRemove temps) = [].
Proof. induction temps; [reflexivity|done]. Qed.

Lemma sleepFollows_logs log pending tr :
  sleepFollowsEveryExec pending (map EvLog log ++ tr) = sleepFollowsEveryExec pending tr.
Proof. induction log; [reflexivity|done]. Qed.

Lemma sleepFollows_removes temps pending :
  sleepFollowsEveryExec pending (map EvRemove temps) = negb pending.
Proof. induction temps; [reflexivity|done]. Qed.

(** One call of [runCommand] spawns isolate once and never sleeps. *)
Lemma runCommand_trace w i params name meta err tr :
  runCommand w i params name = (meta, err, tr) ->
  exists log tl,
    tr = EvExec params :: map EvLog log ++ tl
    /\ execCount tl = 0%nat /\ sleeps tl = []
    /\ forall pending rest,
         sleepFollowsEveryExec pending (tl ++ rest) = sleepFollowsEveryExec pending rest.
Proof.
  unfold runCommand.
  destruct (w_isolate w i params) as [e|ee out text].
  - intros [= <- <- <-]. by exists [], [].
  - destruct (parseMetaFile (Some text) out) as [stats log].
    intros [= <- <- <-]. by exists log, [EvRemove name; EvClose name].
Qed.

(** A turn of the loop whose report is not accepted: the loop sleeps and
    goes on with the next turn. *)
Lemma runLoop_not_accepted w b command n i meta conf temps name meta1 err1 tr1 :
  w_createTemp w i = inr name ->
  runCommand w i (fst (buildRunFlags b conf (Some name) (w_rangeSeed w i)) ++ command) name
    = (meta1, err1, tr1) ->
  accepted meta1 err1 = false ->
  runLoop w b command (S n) i meta conf temps =
    let '(r, err, conf', tr) :=
      runLoop w b command n (S i) meta1 (defaultStdio conf) (name :: temps) in
    (r, err, conf',
     EvCreateTemp i :: tr1
     ++ (if usable meta1 err1 then []
         else if (1 <? i)%nat then [EvLog (LogRunRetry (boxID b) i runErrRetries)] else [])
     ++ EvSleep runErrTimeout :: tr).
Proof.
  intros Htemp Hrun Hacc. cbn [runLoop]. rewrite Htemp.
  rewrite buildRunFlags_shape in *. cbn [fst] in Hrun. rewrite Hrun.
  unfold accepted in Hacc.
  destruct (usable meta1 err1); cbn in Hacc.
  - apply negb_false_iff in Hacc. rewrite Hacc.
    by destruct (runLoop w b command n (S i) meta1 (defaultStdio conf) (name :: temps))
      as [[[r err] conf'] tr].
  - by destruct (runLoop w b command n (S i) meta1 (defaultStdio conf) (name :: temps))
      as [[[r err] conf'] tr].
Qed.

(** A turn of the loop whose report is accepted ends the function. *)
Lemma runLoop_accepted w b command n i meta conf temps name meta1 err1 tr1 :
  w_createTemp w i = inr name ->
  runCommand w i (fst (buildRunFlags b conf (Some name) (w_rangeSeed w i)) ++ command) name
    = (meta1, err1, tr1) ->
  accepted meta1 err1 = true ->
  runLoop w b command (S n) i meta conf temps =
    (meta1, None, defaultStdio conf,
     EvCreateTemp i :: tr1 ++ map EvRemove (name :: temps)).
Proof.
  intros Htemp Hrun Hacc. cbn [runLoop]. rewrite Htemp.
  rewrite buildRunFlags_shape in *. cbn [fst] in Hrun. rewrite Hrun.
  unfold accepted in Hacc. apply andb_true_iff in Hacc as [Hu Hb].
  apply negb_true_iff in Hb. rewrite Hu, Hb.
  destruct err1; [by destruct meta1|done].
Qed.

(** The loop never spawns isolate more often than it has turns. *)
Lemma runLoop_exec_bound w b command n i meta conf temps :
  (execCount (runLoop w b command n i meta conf temps).2 <= n)%nat.
Proof.
  revert i meta conf temps. induction n as [|n IH]; intros i meta conf temps.
  - cbn. by rewrite execCount_removes.
  - cbn [runLoop]. destruct (w_createTemp w i) as [e|name].
    + specialize (IH (S i) meta conf temps).
      destruct (runLoop w b command n (S i) meta conf temps) as [[[r err] conf'] tr].
      cbn in *. lia.
    + destruct (buildRunFlags b conf (Some name) (w_rangeSeed w i)) as [flags conf1].
      destruct (runCommand w i (flags ++ command) name) as [[meta1 err1] tr1] eqn:Hrun.
      apply runCommand_trace in Hrun as (log & tl & -> & Htl & _).
      specialize (IH (S i) meta1 conf1 (name :: temps)).
      destruct (runLoop w b command n (S i) meta1 conf1 (name :: temps))
        as [[[r err] conf'] tr].
      cbn [snd] in IH.
      destruct (usable meta1 err1); [destruct (textFileBusy meta1)|]; cbn [snd];
        cbn [execCount]; rewrite ?execCount_app, ?execCount_logs, ?Htl; cbn [execCount];
        rewrite ?execCount_app, ?execCount_removes; cbn [execCount];
        try destruct (1 <? i)%nat; cbn [execCount];
        rewrite ?execCount_logs, ?Htl; lia.
Qed.

Lemma checkExecutable_trace w b c0 :
  forall rest,
    execCount (checkExecutable w b c0 ++ rest) = execCount rest
    /\ sleeps (checkExecutable w b c0 ++ rest) = sleeps rest
    /\ forall pending,
         sleepFollowsEveryExec pending (checkExecutable w b c0 ++ rest)
         = sleepFollowsEveryExec pending rest.
Proof.
  unfold checkExecutable. intros rest.
  destruct (GoStrings.HasPrefix c0 "/box"); [|done].
  by destruct (w_stat w (path b) c0).
Qed.

(** The trace of a turn that is not accepted: one spawn, then one sleep. *)
Lemma turn_trace i params log tl (warn : list LogMsg) t rest :
  execCount tl = 0%nat -> sleeps tl = [] ->
  (forall pending r, sleepFollowsEveryExec pending (tl ++ r) = sleepFollowsEveryExec pending r) ->
  let tr := EvCreateTemp i :: (EvExec params :: map EvLog log ++ tl)
            ++ map EvLog warn ++ EvSleep t :: rest in
  execCount tr = S (execCount rest)
  /\ sleeps tr = t :: sleeps rest
  /\ sleepFollowsEveryExec false tr = (t =? runErrTimeout) && sleepFollowsEveryExec false rest.
Proof.
  intros Hc Hs Hf tr. subst tr. cbn [app execCount sleeps sleepFollowsEveryExec negb andb].
  rewrite <- !app_assoc.
  rewrite !execCount_app, !sleeps_app, !execCount_logs, !sleeps_logs, Hc, Hs.
  rewrite sleepFollows_logs, Hf, sleepFollows_logs. done.
Qed.

(** C1, counterexample.  Isolate breaks at every run and no report file
    can be created at the third attempt: none of the three attempts yields
    an accepted report, yet isolate is spawned twice and the call sleeps
    twice, not three times, and what it returns is the report of the second
    attempt, the third one having none. *)
Lemma failed_report_file_is_not_followed_by_a_sleep :
  (forall i, (1 <= i <= 2)%nat ->
     exists meta err tr,
       attempt lastTempFailsWorld box50 ["/box/prog"] zeroConfig i = Some (meta, err, tr)
       /\ accepted meta err = false)
  /\ attempt lastTempFailsWorld box50 ["/box/prog"] zeroConfig 3 = None
  /\ exists meta2 err2 tr2 tr,
       attempt lastTempFailsWorld box50 ["/box/prog"] zeroConfig 2 = Some (meta2, err2, tr2)
       /\ RunCommand lastTempFailsWorld box50 ["/box/prog"] zeroConfig
          = (Returns (meta2, None), defaultStdio zeroConfig, tr)
       /\ turns tr = 3%nat
       /\ execCount tr = 2%nat
       /\ sleeps tr = [runErrTimeout; runErrTimeout]
       /\ sleeps tr <> [runErrTimeout; runErrTimeout; runErrTimeout].
Proof.
  split; [|split].
  - intros i Hi. assert (Hcases : i = 1%nat \/ i = 2%nat) by lia.
    destruct Hcases as [-> | ->]; vm_compute; eauto.
  - reflexivity.
  - vm_compute. eexists _, _, _, _. repeat split. discriminate.
Qed.

(** C1, amended.  Take a run of [RunCommand] on a command that is not
    empty, in which each of the three attempts gets its report file and
    none yields an accepted report: the run of isolate fails, or the report
    is nil, or its status is [XX] (or the program was busy, see C7).  Then
    [RunCommand] returns the report of the third attempt, nil if that
    attempt had none, with a nil error; isolate was spawned exactly three
    times, each spawn was followed by a sleep of [runErrTimeout], and there
    were no other sleeps. *)
Theorem exhausted_retries_return_last_report w b command conf :
  command <> [] ->
  (forall i, (1 <= i <= 3)%nat ->
     exists meta err tr,
       attempt w b command conf i = Some (meta, err, tr) /\ accepted meta err = false) ->
  exists meta3 err3 tr3 tr,
    attempt w b command conf 3 = Some (meta3, err3, tr3)
    /\ RunCommand w b command conf = (Returns (meta3, None), defaultStdio conf, tr)
    /\ execCount tr = 3%nat
    /\ sleeps tr = [runErrTimeout; runErrTimeout; runErrTimeout]
    /\ sleepFollowsEveryExec false tr = true.
Proof.
  intros Hcmd Hall.
  destruct command as [|c0 rest]; [done|]. clear Hcmd.
  destruct (Hall 1%nat ltac:(lia)) as (m1 & e1 & t1 & Ha1 & Hn1).
  destruct (Hall 2%nat ltac:(lia)) as (m2 & e2 & t2 & Ha2 & Hn2).
  destruct (Hall 3%nat ltac:(lia)) as (m3 & e3 & t3 & Ha3 & Hn3).
  exists m3, e3, t3.
  unfold attempt in Ha1, Ha2, Ha3.
  destruct (w_createTemp w 1) as [|n1] eqn:Ht1; [done|]. apply (inj Some) in Ha1. rename Ha1 into Hr1.
  destruct (w_createTemp w 2) as [|n2] eqn:Ht2; [done|]. apply (inj Some) in Ha2. rename Ha2 into Hr2.
  destruct (w_createTemp w 3) as [|n3] eqn:Ht3; [done|]. apply (inj Some) in Ha3. rename Ha3 into Hr3.
  unfold RunCommand. cbn [lookup list_lookup]. unfold runErrRetries.
  rewrite (runLoop_not_accepted _ _ _ _ _ _ _ _ _ _ _ _ Ht1 Hr1 Hn1).
  assert (Ha3 : attempt w b (c0 :: rest) conf 3 = Some (m3, e3, t3))
    by (unfold attempt; by rewrite Ht3, Hr3).
  rewrite <- (buildRunFlags_defaultStdio b conf) in Hr2, Hr3.
  rewrite (runLoop_not_accepted _ _ _ _ _ _ _ _ _ _ _ _ Ht2 Hr2 Hn2).
  rewrite defaultStdio_idem.
  rewrite (runLoop_not_accepted _ _ _ _ _ _ _ _ _ _ _ _ Ht3 Hr3 Hn3).
  rewrite defaultStdio_idem. cbn [runLoop].
  eexists. split; [exact Ha3|]. split; [reflexivity|].
  pose proof (checkExecutable_trace w b c0) as Hpre.
  apply runCommand_trace in Hr1 as (l1 & tl1 & -> & Hc1 & Hs1 & Hf1).
  apply runCommand_trace in Hr2 as (l2 & tl2 & -> & Hc2 & Hs2 & Hf2).
  apply runCommand_trace in Hr3 as (l3 & tl3 & -> & Hc3 & Hs3 & Hf3).
  assert (Hwarn : forall (u : bool) (i : nat),
            exists wl, (if u then []
                        else if (1 <? i)%nat
                             then [EvLog (LogRunRetry (boxID b) i runErrRetries)] else [])
                       = map EvLog wl).
  { intros u i. destruct u; [by exists []|].
    destruct (1 <? i)%nat; [by eexists [_]|by exists []]. }
  destruct (Hwarn (usable m1 e1) 1%nat) as [w1 ->].
  destruct (Hwarn (usable m2 e2) 2%nat) as [w2 ->].
  destruct (Hwarn (usable m3 e3) 3%nat) as [w3 ->].
  match goal with
  | |- context [checkExecutable w b c0 ++ ?r] =>
      destruct (Hpre r) as (-> & -> & Hpend); rewrite Hpend; clear Hpend Hpre
  end.
  repeat match goal with
         | |- context [EvCreateTemp ?i :: (EvExec ?p :: map EvLog ?l ++ ?tl)
                        ++ map EvLog ?wl ++ EvSleep ?t :: ?r] =>
             destruct (turn_trace i p l tl wl t r) as (-> & -> & ->); [assumption..|]
         end.
  done.
Qed.

Lemma exhausted_retries_return_last_report_witness :
  exists meta tr,
    RunCommand brokenWorld box50 ["/box/prog"] zeroConfig
      = (Returns (Some meta, None), defaultStdio zeroConfig, tr)
    /\ Status meta = "XX"
    /\ execCount tr = 3%nat
    /\ sleeps tr = [200; 200; 200].
Proof.
  destruct (exhausted_retries_return_last_report brokenWorld box50 ["/box/prog"] zeroConfig)
    as (meta3 & err3 & tr3 & tr & Ha & Hrun & Hc & Hs & _).
  - discriminate.
  - intros i Hi.
    assert (Hcases : i = 1%nat \/ i = 2%nat \/ i = 3%nat) by lia.
    destruct Hcases as [-> | [-> | ->]]; vm_compute; eauto.
  - vm_compute in Ha. injection Ha as <- <- <-.
    eexists _, tr. repeat split; [exact Hrun|reflexivity|exact Hc|exact Hs].
Defined.

(** C7.  In any turn of the loop of [RunCommand], when the report is not
    nil, its status is not [XX], its exit code is 127 and isolate's own
    output mentions [execve], the turn does not return the report: the
    function sleeps [runErrTimeout] and goes on with the following turn
    with one turn less left, this report being the one it keeps.  The
    turns are the three of [runErrRetries]: over a whole call isolate is
    never spawned more than three times. *)
Theorem busy_text_file_is_retried w b command n i meta conf temps name meta1 tr1 :
  w_createTemp w i = inr name ->
  runCommand w i (fst (buildRunFlags b conf (Some name) (w_rangeSeed w i)) ++ command) name
    = (Some meta1, None, tr1) ->
  Status meta1 <> "XX" ->
  ExitCode meta1 = 127 ->
  GoStrings.Contains (InternalMessage meta1) "execve" = true ->
  runLoop w b command (S n) i meta conf temps =
    (let '(r, err, conf', tr) :=
       runLoop w b command n (S i) (Some meta1) (defaultStdio conf) (name :: temps) in
     (r, err, conf', EvCreateTemp i :: tr1 ++ EvSleep runErrTimeout :: tr))
  /\ forall conf0, (execCount (RunCommand w b command conf0).2 <= 3)%nat.
Proof.
  intros Htemp Hrun Hst Hcode Hmsg. split.
  - assert (Hu : usable (Some meta1) None = true).
    { cbn. apply negb_true_iff. by destruct (String.eqb_spec (Status meta1) "XX"). }
    assert (Hacc : accepted (Some meta1) None = false).
    { unfold accepted. rewrite Hu. cbn. rewrite Hcode, Hmsg. done. }
    rewrite (runLoop_not_accepted _ _ _ _ _ _ _ _ _ _ _ _ Htemp Hrun Hacc).
    rewrite Hu. reflexivity.
  - intros conf0. unfold RunCommand.
    destruct (command !! 0%nat) as [c0|]; [|cbn; lia].
    pose proof (runLoop_exec_bound w b command runErrRetries 1 None conf0 []) as Hb.
    destruct (runLoop w b command runErrRetries 1 None conf0 []) as [[[r err] conf'] tr].
    cbn [snd] in *.
    destruct (checkExecutable_trace w b c0 tr) as (-> & _). exact Hb.
Qed.

Lemma busy_text_file_is_retried_witness :
  exists meta tr,
    RunCommand busyOnceWorld box50 ["/box/prog"] zeroConfig
      = (Returns (Some meta, None), defaultStdio zeroConfig, tr)
    /\ Status meta = "OK" /\ ExitCode meta = 0
    /\ execCount tr = 2%nat /\ sleeps tr = [200].
Proof.
  pose proof (busy_text_file_is_retried busyOnceWorld box50 ["/box/prog"] 2 1 None zeroConfig []
                "/tmp/sandbox-meta-1"
                (setInternalMessage "execve(/box/prog): Text file busy"
                   (setStatus "RE" (setExitCode 127 zeroRunStats)))
                _ eq_refl eq_refl ltac:(discriminate) eq_refl eq_refl) as [Hloop _].
  unfold RunCommand. cbn [lookup list_lookup]. unfold runErrRetries.
  rewrite Hloop. vm_compute. eexists _, _. repeat split.
Defined.

(** C10.  [RunCommand] and [MakeGoodCommand] read [command[0]] before
    anything else and without a test.  On a command that is not empty the
    read is in bounds and both return; on the empty command both panic, and
    neither returns an error value. *)
Theorem first_argument_is_read_unguarded w b conf (command : list string) :
  match command with
  | [] =>
      command !! 0%nat = None
      /\ RunCommand w b command conf = (Panics, conf, [])
      /\ MakeGoodCommand w command = Panics
  | c0 :: _ =>
      command !! 0%nat = Some c0
      /\ (exists r conf' tr, RunCommand w b command conf = (Returns r, conf', tr))
      /\ (exists r, MakeGoodCommand w command = Returns r)
  end.
Proof.
  destruct command as [|c0 rest]; [done|].
  split; [done|]. split.
  - unfold RunCommand. cbn [lookup list_lookup].
    destruct (runLoop w b (c0 :: rest) runErrRetries 1 None conf []) as [[[r err] conf'] tr].
    by eexists _, _, _.
  - unfold MakeGoodCommand. cbn [lookup list_lookup].
    destruct (GoStrings.HasPrefix c0 "/box"); [by eexists|].
    destruct (w_lookPath w c0) as [e|cmd]; [by eexists|].
    destruct (w_evalSymlinks w cmd); by eexists.
Qed.

(** ** The box constructor *)

(** Whatever the number of self-healing calls, a box that [New] returns is
    bound to [id] and rooted at the trimmed output of the last [--init]. *)
Lemma New_box_shape fuel : forall w k id box tr,
  New fuel w k id = Some (inl box, tr) ->
  boxID box = id
  /\ exists k', (k <= k')%nat
       /\ snd (w_init w k' id) = None
       /\ path box = GoStrings.TrimSpace (fst (w_init w k' id)).
Proof.
  induction fuel as [|fuel IH]; intros w k id box tr; [done|].
  cbn [New]. destruct (w_init w k id) as [ret err] eqn:Hinit.
  assert (Hagain : forall t,
            match New fuel w (S k) id with
            | Some (r, tr') => Some (r, EvExec (initArgs id) :: t ++ tr')
            | None => None
            end = Some (inl box, tr) ->
            boxID box = id
            /\ exists k', (k <= k')%nat
                 /\ snd (w_init w k' id) = None
                 /\ path box = GoStrings.TrimSpace (fst (w_init w k' id))).
  { intros t. destruct (New fuel w (S k) id) as [[r tr']|] eqn:Hnew; [|done].
    intros [= -> _]. destruct (IH _ _ _ _ _ Hnew) as (Hid & k' & Hk & He & Hp).
    split; [done|]. exists k'. split; [lia|done]. }
  destruct (GoStrings.HasPrefix ret "Box already exists"); [apply Hagain|].
  destruct (GoStrings.Contains ret "incompatible control group mode"); [apply Hagain|].
  destruct (GoStrings.HasPrefix ret "Must be started as root").
  - destruct (w_chown w k); [done|apply Hagain].
  - destruct err; [done|]. intros [= <- _]. split; [done|].
    exists k. rewrite Hinit. by split; [lia|].
Qed.

(** C4, counterexample.  When [--init] prints a notice line before the
    path and exits without error, [New] succeeds and the root of the box is
    both lines, not the last one. *)
Lemma new_box_root_is_not_the_last_line :
  New 1 noisyInitWorld 0 50
    = Some (inl {| path := "New box created
/var/local/lib/isolate/50/box"; boxID := 50 |},
            [EvExec ["--cg"; "--box-id=50"; "--init"]])
  /\ lastLine (fst (w_init noisyInitWorld 0 50)) = "/var/local/lib/isolate/50/box"
  /\ "New box created
/var/local/lib/isolate/50/box" <> lastLine (fst (w_init noisyInitWorld 0 50)).
Proof. vm_compute. repeat split. discriminate. Qed.

(** C4, amended.  For every invocation of [New id] in which [--init] exits
    without error and its output triggers none of the three self-healing
    conditions, [New] returns, without calling itself again, a box bound to
    [id] whose root path is the whole combined output of [--init] with
    leading and trailing white space removed. *)
Theorem new_box_root_is_trimmed_output fuel w k id ret :
  w_init w k id = (ret, None) ->
  GoStrings.HasPrefix ret "Box already exists" = false ->
  GoStrings.Contains ret "incompatible control group mode" = false ->
  GoStrings.HasPrefix ret "Must be started as root" = false ->
  New (S fuel) w k id
    = Some (inl {| path := GoStrings.TrimSpace ret; boxID := id |}, [EvExec (initArgs id)]).
Proof.
  intros Hinit H1 H2 H3. cbn [New]. by rewrite Hinit, H1, H2, H3.
Qed.

Lemma new_box_root_is_trimmed_output_witness :
  New 1 brokenWorld 0 50
    = Some (inl {| path := "/var/local/lib/isolate/50/box"; boxID := 50 |},
            [EvExec (initArgs 50)]).
Proof.
  exact (new_box_root_is_trimmed_output 0 brokenWorld 0 50 _ eq_refl eq_refl eq_refl eq_refl).
Defined.

(** ** The report decoder *)

(** C8.  Decoding the report with the lines [status:OK], [exitcode:0],
    [time:0.042] and [cg-mem:2048] yields status [OK], exit code 0, CPU time
    0.042, memory 2048 and [Killed] false (nothing else is set and nothing
    is logged), whether or not the last line ends in a line feed.  The CPU
    time is the [float64] nearest to 42/1000: a 53-bit mantissa at exponent
    -57, within half a unit in the last place; it is also the IEEE quotient
    of 42 by 1000. *)
Theorem sample_report_is_decoded out :
  let expected :=
    {| Memory := 2048; ExitCode := 0; ExitSignal := 0; Killed := false;
       Message := ""; Status := "OK"; Time := float_0_042; InternalMessage := out |} in
  parseMetaFile (Some sampleReport) out = (Some expected, [])
  /\ parseMetaFile (Some "status:OK
exitcode:0
time:0.042
cg-mem:2048") out = (Some expected, [])
  /\ GoBufio.scanLines sampleReport = ["status:OK"; "exitcode:0"; "time:0.042"; "cg-mem:2048"]
  /\ float_0_042 = S754_finite false 6052837899185947 (-57)
  /\ 2 ^ 52 <= 6052837899185947 < 2 ^ 53
  /\ 2 * Z.abs (6052837899185947 * 1000 - 42 * 2 ^ 57) <= 1000
  /\ SFdiv 53 1024 (S754_finite false 42 0) (S754_finite false 1000 0) = float_0_042.
Proof.
  cbv zeta. split; [reflexivity|]. split; [reflexivity|].
  split; [reflexivity|]. split; [reflexivity|].
  split; [split; [vm_compute; discriminate|reflexivity]|].
  split; [vm_compute; discriminate|]. vm_compute. reflexivity.
Qed.

(** On a syntax error [strconv] returns zero. *)
Lemma parseUintLoop_syntax s n v :
  GoStrconv.parseUintLoop s n = (v, Some GoStrconv.ErrSyntax) -> v = 0.
Proof.
  revert n. induction s as [|c s IH]; intros n; cbn [GoStrconv.parseUintLoop].
  - discriminate.
  - destruct (isDigit c); [|by intros [= <-]].
    destruct (1844674407370955162 <=? n); [discriminate|].
    destruct (GoStrconv.maxUint64 <? n * 10 + (byte c - 48)); [discriminate|apply IH].
Qed.

Lemma Atoi_syntax val v :
  GoStrconv.Atoi val = (v, Some GoStrconv.ErrSyntax) -> v = 0.
Proof.
  unfold GoStrconv.Atoi, GoStrconv.ParseInt.
  destruct val as [|c rest]; [by intros [= <-]|].
  destruct (GoStrconv.ParseUint _) as [un [[]|]]; [by intros [= <-]| |].
  - repeat match goal with |- context [if ?x then _ else _] => destruct x end; discriminate.
  - repeat match goal with |- context [if ?x then _ else _] => destruct x end; discriminate.
Qed.

Lemma ParseFloat_syntax val v :
  GoStrconv.ParseFloat val = (v, Some GoStrconv.ErrSyntax) -> v = GoStrconv.float64Zero.
Proof.
  unfold GoStrconv.ParseFloat.
  destruct (GoStrconv.parseFloatPrefix val) as [[f n] [[]|]].
  - by intros [= <-].
  - destruct (n =? strlen val); [discriminate|by intros [= <-]].
  - destruct (n =? strlen val); [discriminate|by intros [= <-]].
Qed.

Lemma parseLines_app file l1 l2 :
  parseLines file (l1 ++ l2) =
    (fst (parseLines (fst (parseLines file l1)) l2),
     snd (parseLines file l1) ++ snd (parseLines (fst (parseLines file l1)) l2)).
Proof.
  revert file. induction l1 as [|line l1 IH]; intros file.
  - cbn. by destruct (parseLines file l2).
  - cbn [app parseLines]. destruct (parseLine file line) as [file' log].
    rewrite IH. destruct (parseLines file' l1) as [f1 g1]. cbn [fst snd].
    destruct (parseLines f1 l2) as [f2 g2]. cbn [fst snd]. by rewrite app_assoc.
Qed.

Lemma parseLine_noSeparator file line : noSeparator line -> parseLine file line = (file, []).
Proof.
  unfold noSeparator, parseLine. destruct (GoStrings.Cut line ":") as [[key val] found].
  cbn. by intros ->.
Qed.

Lemma parseField_skipped file key val :
  key ∉ storedKeys ->
  parseField file key val =
    (file, if existsb (String.eqb key) ignoredKeys then [] else [LogUnknownStat key val]).
Proof.
  intros Hkey. unfold parseField.
  repeat match goal with
         | |- context [String.eqb key ?k] =>
             lazymatch k with
             | key => fail
             | _ =>
               destruct (String.eqb_spec key k) as [->|_];
               [exfalso; apply Hkey; unfold storedKeys; set_solver|]
             end
         end.
  by destruct (existsb (String.eqb key) ignoredKeys).
Qed.

Lemma parseLine_skippedKey file line : skippedKey line -> fst (parseLine file line) = file.
Proof.
  unfold skippedKey, parseLine. destruct (GoStrings.Cut line ":") as [[key val] found].
  cbn. intros [-> Hkey]. cbn. by rewrite parseField_skipped.
Qed.

Lemma parseLine_keyed file key line val :
  keyed key line val -> parseLine file line = parseField file key val.
Proof. unfold keyed, parseLine. by intros ->. Qed.

(** The scanner delivers the lines of the text in order, each without its
    carriage return, up to the first line of [MaxScanTokenSize] bytes or
    more; there it stops, and the lines from there on are not delivered. *)
Lemma scanTokens_short ls :
  Forall (fun l => strlen l < GoBufio.MaxScanTokenSize) ls ->
  GoBufio.scanTokens ls = map GoBufio.dropCR ls.
Proof.
  induction 1 as [|l ls Hl _ IH]; [done|]. cbn [GoBufio.scanTokens map].
  destruct (GoBufio.MaxScanTokenSize <=? strlen l) eqn:E; [apply Z.leb_le in E; lia|].
  by rewrite IH.
Qed.

Lemma scanTokens_stop l1 long l2 :
  Forall (fun l => strlen l < GoBufio.MaxScanTokenSize) l1 ->
  GoBufio.MaxScanTokenSize <= strlen long ->
  GoBufio.scanTokens (l1 ++ long :: l2) = map GoBufio.dropCR l1.
Proof.
  induction 1 as [|l ls Hl _ IH]; intros Hlong.
  - cbn. by destruct (Z.leb_spec GoBufio.MaxScanTokenSize (strlen long)); [|lia].
  - cbn [app GoBufio.scanTokens map].
    destruct (GoBufio.MaxScanTokenSize <=? strlen l) eqn:E; [apply Z.leb_le in E; lia|].
    by rewrite IH.
Qed.

(** A numeral outside the 64-bit range is not a syntax error for [strconv]:
    it is reported as out of range and clamped, and the loop returns as soon
    as the range is left, before it looks at the bytes that follow. *)
Example Atoi_out_of_range_is_clamped :
  GoStrconv.Atoi "99999999999999999999" = (GoStrconv.maxInt64, Some GoStrconv.ErrRange)
  /\ GoStrconv.Atoi "-99999999999999999999" = (GoStrconv.minInt64, Some GoStrconv.ErrRange)
  /\ GoStrconv.Atoi "99999999999999999999x" = (GoStrconv.maxInt64, Some GoStrconv.ErrRange).
Proof. repeat split. Qed.

(** ** Rounding *)

Import GoStrconv.

Lemma div_between a d q : 0 < d -> q * d <= a < (q + 1) * d -> a / d = q.
Proof.
  intros Hd [H1 H2]. symmetry. apply (Z.div_unique_pos a d q (a - q * d)); lia.
Qed.

Lemma mod_between a d q : 0 < d -> q * d <= a < (q + 1) * d -> a mod d = a - q * d.
Proof.
  intros Hd H. rewrite Z.mod_eq by lia. rewrite (div_between a d q) by done. lia.
Qed.

(** How [roundNearestEven] evaluates once the exponent [g - 1074] and the
    truncated mantissa [q] are known. *)
Lemma roundNearestEven_eval neg num den g q :
  0 < den -> 0 <= g -> 0 <= q < 2 ^ 53 -> (0 < g -> 2 ^ 52 <= q) ->
  q * (den * 2 ^ g) <= num * 2 ^ 1074 < (q + 1) * (den * 2 ^ g) ->
  roundNearestEven neg num den
  = finishRound neg (roundToEven (num * 2 ^ 1074) (den * 2 ^ g)) g.
Proof.
  intros Hden Hg Hq Hnorm HA. unfold roundNearestEven.
  set (A := num * 2 ^ 1074) in *.
  assert (HG : 0 < 2 ^ g) by (apply Z.pow_pos_nonneg; lia).
  assert (Hw : q * 2 ^ g <= A / den < (q + 1) * 2 ^ g).
  { split.
    - apply Z.div_le_lower_bound; [done|]. lia.
    - apply Z.div_lt_upper_bound; [done|]. lia. }
  assert (Hs : Z.max (Z.log2 (A / den) - mantBits) 0 = g); [|by rewrite Hs].
  unfold mantBits.
  destruct (Z.eq_dec g 0) as [->|Hg0].
  - rewrite Z.pow_0_r, !Z.mul_1_r in Hw.
    assert (A / den = q) by lia.
    destruct (Z.eq_dec q 0) as [->|Hq0]; [by rewrite H|].
    assert (Z.log2 (A / den) < 53) by (apply Z.log2_lt_pow2; lia). lia.
  - assert (Z.log2 (A / den) = 52 + g); [|lia].
    apply Z.log2_unique; [lia|].
    replace (Z.succ (52 + g)) with (53 + g) by lia.
    rewrite !Z.pow_add_r by lia.
    assert (Hq52 : 2 ^ 52 <= q) by (apply Hnorm; lia).
    destruct Hw as [Hw1 Hw2]. split.
    + etrans; [|exact Hw1]. apply Z.mul_le_mono_nonneg_r; lia.
    + eapply Z.lt_le_trans; [exact Hw2|]. apply Z.mul_le_mono_nonneg_r; lia.
Qed.

Lemma roundToEven_eval a d q :
  0 < d -> q * d <= a < (q + 1) * d ->
  roundToEven a d =
    match 2 * (a - q * d) ?= d with
    | Lt => q
    | Gt => q + 1
    | Eq => if Z.even q then q else q + 1
    end.
Proof.
  intros Hd H. unfold roundToEven.
  by rewrite (div_between a d q), (mod_between a d q).
Qed.

Lemma finishRound_finite neg (m : positive) e :
  Zpos m < 2 ^ 53 -> e <= 971 ->
  finishRound neg (Zpos m) (e + 1074) = S754_finite neg m e.
Proof.
  intros Hm He. unfold finishRound, mantBits, maxExp.
  replace (Z.pos m =? 2 ^ (52 + 1)) with false by (symmetry; apply Z.eqb_neq; lia).
  replace (971 <? e + 1074 - 1074) with false by (symmetry; apply Z.ltb_ge; lia).
  f_equal. lia.
Qed.

Lemma finishRound_carry neg e :
  e <= 971 ->
  finishRound neg (2 ^ 53) (e - 1 + 1074) = S754_finite neg (2 ^ 52)%positive e.
Proof.
  intros He. unfold finishRound, mantBits, maxExp.
  change (2 ^ 53 =? 2 ^ (52 + 1)) with true. cbv iota beta.
  change (2 ^ 52) with (Z.pos (2 ^ 52)). cbv iota beta.
  replace (e - 1 + 1074 + 1 - 1074) with e by lia.
  by replace (971 <? e) with false by (symmetry; apply Z.ltb_ge; lia).
Qed.

(** A rational inside the interval of a finite float rounds to it. *)
Lemma round_of_interval neg m e num den :
  validFinite m e -> 0 < num -> 0 < den ->
  inRoundingInterval m e num den = true ->
  roundNearestEven neg num den = S754_finite neg m e.
Proof.
  intros Hv Hnum Hden Hin.
  assert (He : -1074 <= e <= 971) by (destruct Hv as [[_ ?]|[_ ->]]; lia).
  assert (Hm53 : Z.pos m < 2 ^ 53) by (destruct Hv as [[? _]|[? _]]; lia).
  set (A := num * 2 ^ 1074).
  assert (Ha : num * 2 ^ 1076 = 4 * A).
  { unfold A. change 1076 with (2 + 1074). rewrite Z.pow_add_r by lia. lia. }
  set (G := 2 ^ (e + 1074)).
  assert (HG : 0 < G) by (apply Z.pow_pos_nonneg; lia).
  set (K := den * G). assert (HK : 0 < K) by (unfold K; lia).
  unfold inRoundingInterval in Hin. rewrite Ha in Hin.
  unfold lowerMid, upperMid, mantBits, minExp in Hin. fold G in Hin.
  (* the interval in terms of [A] and [K] *)
  set (lo := if (Z.pos m =? 2 ^ 52) && (-1074 <? e) then 4 * Z.pos m - 1 else 4 * Z.pos m - 2) in *.
  assert (Hint : lo * K <= 4 * A <= (4 * Z.pos m + 2) * K
                 /\ (Z.even (Z.pos m) = false -> lo * K < 4 * A < (4 * Z.pos m + 2) * K)).
  { unfold K. destruct (Z.even (Z.pos m));
      apply andb_true_iff in Hin as [H1 H2].
    - apply Z.leb_le in H1, H2. split; [lia|discriminate].
    - apply Z.ltb_lt in H1, H2. split; [lia|intros _; lia]. }
  clear Hin. destruct Hint as [[Hlo Hhi] Hodd].
  destruct (Z_le_gt_dec (Z.pos m * K) A) as [Hup|Hdown].
  - (* at or above the float: the mantissa is [m], the rest at most a half *)
    assert (Hnorm : 0 < e + 1074 -> 2 ^ 52 <= Z.pos m)
      by (intros Hg; destruct Hv as [[? _]|[_ ->]]; lia).
    assert (Hq : Z.pos m * K <= A < (Z.pos m + 1) * K) by lia.
    rewrite (roundNearestEven_eval neg num den (e + 1074) (Z.pos m)
               Hden ltac:(lia) ltac:(lia) Hnorm Hq).
    fold A G K. rewrite (roundToEven_eval A K (Z.pos m) HK Hq).
    destruct (Z.compare_spec (2 * (A - Z.pos m * K)) K) as [Heq|Hlt|Hgt].
    + destruct (Z.even (Z.pos m)) eqn:Hev; [by apply finishRound_finite; lia|].
      specialize (Hodd eq_refl). lia.
    + apply finishRound_finite; lia.
    + lia.
  - destruct ((Z.pos m =? 2 ^ 52) && (-1074 <? e)) eqn:Hpow.
    + (* just below a power of two: one exponent down, mantissa [2^53 - 1] *)
      apply andb_true_iff in Hpow as [Hm He'].
      apply Z.eqb_eq in Hm. apply Z.ltb_lt in He'.
      subst lo.
      set (G' := 2 ^ (e - 1 + 1074)).
      assert (HG' : G = 2 * G').
      { unfold G, G'. replace (e + 1074) with (1 + (e - 1 + 1074)) by lia.
        rewrite Z.pow_add_r by lia. lia. }
      assert (HG'pos : 0 < G') by lia.
      set (K' := den * G'). assert (HK' : K = 2 * K') by (unfold K, K'; lia).
      assert (Hq : (2 ^ 53 - 1) * K' <= A < (2 ^ 53 - 1 + 1) * K') by lia.
      rewrite (roundNearestEven_eval neg num den (e - 1 + 1074) (2 ^ 53 - 1)
                 Hden ltac:(lia) ltac:(lia) ltac:(lia) Hq).
      fold A G' K'. rewrite (roundToEven_eval A K' (2 ^ 53 - 1) ltac:(lia) Hq).
      replace (Z.even (2 ^ 53 - 1)) with false by reflexivity.
      replace (2 ^ 53 - 1 + 1) with (2 ^ 53) by lia.
      assert (Hmp : m = (2 ^ 52)%positive) by (apply Pos2Z.inj; exact Hm).
      rewrite Hmp.
      destruct (Z.compare_spec (2 * (A - (2 ^ 53 - 1) * K')) K');
        [apply finishRound_carry; lia|lia|apply finishRound_carry; lia].
    + (* below the float: the mantissa is [m - 1], the rest at least a half *)
      subst lo.
      assert (Hnorm : 0 < e + 1074 -> 2 ^ 52 <= Z.pos m - 1).
      { intros Hg. destruct Hv as [[? _]|[_ ->]]; [|lia].
        apply andb_false_iff in Hpow as [Hp|Hp].
        - apply Z.eqb_neq in Hp. lia.
        - apply Z.ltb_ge in Hp. lia. }
      assert (Hq : (Z.pos m - 1) * K <= A < (Z.pos m - 1 + 1) * K) by lia.
      rewrite (roundNearestEven_eval neg num den (e + 1074) (Z.pos m - 1)
                 Hden ltac:(lia) ltac:(lia) Hnorm Hq).
      fold A G K. rewrite (roundToEven_eval A K (Z.pos m - 1) HK Hq).
      replace (Z.pos m - 1 + 1) with (Z.pos m) by lia.
      destruct (Z.compare_spec (2 * (A - (Z.pos m - 1) * K)) K) as [Heq|Hlt|Hgt].
      * destruct (Z.even (Z.pos m)) eqn:Hev.
        -- replace (Z.even (Z.pos m - 1)) with false; [by apply finishRound_finite; lia|].
           rewrite Z.even_sub, Hev. reflexivity.
        -- specialize (Hodd eq_refl). lia.
      * lia.
      * apply finishRound_finite; lia.
Qed.

(** ** The shortest digits *)

Lemma ceil_div_le n d j : 0 < d -> ((n + d - 1) / d <= j <-> n <= j * d).
Proof.
  intros Hd. pose proof (Z.div_mod (n + d - 1) d ltac:(lia)) as Hdm.
  pose proof (Z.mod_pos_bound (n + d - 1) d Hd) as Hr. split; intros H; nia.
Qed.

Lemma floor_div_ge n d j : 0 < d -> (j <= n / d <-> j * d <= n).
Proof.
  intros Hd. pose proof (Z.div_mod n d ltac:(lia)) as Hdm.
  pose proof (Z.mod_pos_bound n d Hd) as Hr. split; intros H; nia.
Qed.

Lemma pow10Num_pos p : 0 < pow10Num p.
Proof. unfold pow10Num. apply Z.pow_pos_nonneg; lia. Qed.

Lemma pow10Den_pos p : 0 < pow10Den p.
Proof. unfold pow10Den. apply Z.pow_pos_nonneg; lia. Qed.

(** The candidates at [p] are the multiples of [10^p] in the interval. *)
Lemma cand_in_interval m e p j :
  candLo m e p <= j <= candHi m e p
  <-> inRoundingInterval m e (j * pow10Num p) (pow10Den p) = true.
Proof.
  unfold candLo, candHi, inRoundingInterval.
  pose proof (pow10Num_pos p) as Hn. pose proof (pow10Den_pos p) as Hd.
  set (d := 2 ^ 1076 * pow10Num p).
  assert (Hdpos : 0 < d) by (unfold d; lia).
  replace (j * pow10Num p * 2 ^ 1076) with (j * d) by (unfold d; lia).
  destruct (Z.even (Z.pos m)).
  - rewrite andb_true_iff, !Z.leb_le.
    rewrite ceil_div_le, floor_div_ge by done. reflexivity.
  - rewrite andb_true_iff, !Z.ltb_lt.
    assert (H1 : lowerMid m e * pow10Den p / d + 1 <= j <-> lowerMid m e * pow10Den p < j * d).
    { pose proof (floor_div_ge (lowerMid m e * pow10Den p) d j Hdpos). lia. }
    assert (H2 : j <= (upperMid m e * pow10Den p + d - 1) / d - 1
                 <-> j * d < upperMid m e * pow10Den p).
    { pose proof (ceil_div_le (upperMid m e * pow10Den p) d j Hdpos). lia. }
    rewrite H1, H2. reflexivity.
Qed.

(** What the search returns: the first exponent from [p0] downwards that
    has a candidate, and a candidate at that exponent. *)
Lemma shortestFrom_spec fuel m e p0 :
  (exists p, p0 - Z.of_nat fuel <= p <= p0 /\ candLo m e p <= candHi m e p) ->
  forall j p, shortestFrom fuel m e p0 = (j, p) ->
    p0 - Z.of_nat fuel <= p <= p0
    /\ candLo m e p <= j <= candHi m e p
    /\ forall p', p < p' <= p0 -> candHi m e p' < candLo m e p'.
Proof.
  revert p0. induction fuel as [|fuel IH]; intros p0 (pw & Hpw & Hcand) j p; cbn [shortestFrom].
  - assert (pw = p0) by lia. subst pw.
    destruct (Z.leb_spec (candLo m e p0) (candHi m e p0)) as [Hle|Hgt]; [|lia].
    intros [= <- <-]. repeat split; lia.
  - destruct (Z.leb_spec (candLo m e p0) (candHi m e p0)) as [Hle|Hgt].
    + intros [= <- <-]. repeat split; lia.
    + intros Hrec. destruct (IH (p0 - 1)) with (j := j) (p := p) as (H1 & H2 & H3); [|done|].
      * exists pw. split; [|done]. assert (pw <> p0) by (intros ->; lia). lia.
      * split; [lia|]. split; [done|]. intros p' Hp'.
        destruct (Z.eq_dec p' p0) as [->|Hne]; [done|]. apply H3. lia.
Qed.

Lemma lowerMid_lt_upperMid m e :
  -1074 <= e -> 0 < lowerMid m e < 4 * Z.pos m * 2 ^ (e + 1074)
                /\ 4 * Z.pos m * 2 ^ (e + 1074) < upperMid m e.
Proof.
  intros He. unfold lowerMid, upperMid.
  assert (0 < 2 ^ (e + 1074)) by (apply Z.pow_pos_nonneg; lia).
  destruct ((Z.pos m =? 2 ^ mantBits) && (minExp <? e)); nia.
Qed.

(** At [p = min e 0] the float itself is a multiple of [10^p]. *)
Lemma cand_exists_at_min m e :
  -1074 <= e -> candLo m e (Z.min e 0) <= candHi m e (Z.min e 0).
Proof.
  intros He.
  set (p := Z.min e 0).
  set (jx := if 0 <=? e then Z.pos m * 2 ^ e else Z.pos m * 5 ^ (- e)).
  enough (candLo m e p <= jx <= candHi m e p) by lia.
  apply cand_in_interval. unfold inRoundingInterval.
  destruct (lowerMid_lt_upperMid m e He) as [[_ Hlo] Hhi].
  assert (Hx : jx * pow10Num p * 2 ^ 1076 = 4 * Z.pos m * 2 ^ (e + 1074) * pow10Den p).
  { assert (H76 : 2 ^ 1076 = 4 * 2 ^ 1074) by reflexivity.
    unfold jx, p, pow10Num, pow10Den. destruct (Z.leb_spec 0 e) as [Hpos|Hneg].
    - rewrite Z.min_r by lia. change (Z.max 0 0) with 0. change (Z.max (- 0) 0) with 0.
      rewrite Z.pow_0_r. rewrite (Z.pow_add_r 2 e 1074) by lia. rewrite H76. ring.
    - rewrite Z.min_l by lia. rewrite (Z.max_r e 0) by lia. rewrite (Z.max_l (- e) 0) by lia.
      rewrite Z.pow_0_r. change 10 with (2 * 5). rewrite Z.pow_mul_l.
      replace 1076 with (2 + ((e + 1074) + - e)) at 1 by lia.
      rewrite (Z.pow_add_r 2 2) by lia. rewrite (Z.pow_add_r 2 (e + 1074)) by lia.
      change (2 ^ 2) with 4. ring. }
  rewrite Hx. pose proof (pow10Den_pos p) as Hd.
  destruct (Z.even (Z.pos m)); apply andb_true_iff; split;
    first [apply Z.leb_le | apply Z.ltb_lt]; nia.
Qed.

Lemma shortest_start_above m e :
  -1074 <= e -> Z.min e 0 <= shortestStart m e.
Proof.
  intros He. unfold shortestStart. cbv zeta. pose proof (Z.log2_nonneg (Z.pos m)) as Hl.
  set (l := Z.log2 (Z.pos m) + e + 1) in *.
  destruct (Z.leb_spec 0 l) as [Hpos|Hneg].
  - assert (0 <= l / 3) by (apply Z.div_pos; lia). lia.
  - assert (l <= l * 3 / 10) by (apply Z.div_le_lower_bound; lia). lia.
Qed.

(** The search succeeds, and what it returns reads back as the float. *)
Lemma shortest_spec m e j p :
  -1074 <= e -> shortest m e = (j, p) ->
  0 < j
  /\ candLo m e p <= j <= candHi m e p
  /\ forall p', p < p' <= shortestStart m e -> candHi m e p' < candLo m e p'.
Proof.
  intros He Hs. unfold shortest in Hs. cbv zeta in Hs.
  pose proof (shortest_start_above m e He) as Hp0.
  set (p0 := shortestStart m e) in *.
  destruct (shortestFrom_spec (Z.to_nat (p0 - Z.min e 0)) m e p0) with (j := j) (p := p)
    as (H1 & H2 & H3); [|done|].
  - exists (Z.min e 0). split; [lia|]. by apply cand_exists_at_min.
  - split; [|done].
    enough (0 < candLo m e p) by lia.
    unfold candLo. destruct (lowerMid_lt_upperMid m e He) as [[Hlo _] _].
    pose proof (pow10Den_pos p). pose proof (pow10Num_pos p).
    set (d := 2 ^ 1076 * pow10Num p). assert (0 < d) by (unfold d; lia).
    destruct (Z.even (Z.pos m)).
    + enough (~ (lowerMid m e * pow10Den p + d - 1) / d <= 0) by lia.
      rewrite ceil_div_le by done. nia.
    + assert (0 <= lowerMid m e * pow10Den p / d) by (apply Z.div_pos; nia). lia.
Qed.

(** The digits [FormatFloat] emits for a finite float denote a decimal
    that [ParseFloat]'s rounding takes back to the float. *)
Lemma shortest_round_trip neg m e j p :
  validFinite m e -> shortest m e = (j, p) ->
  0 < j /\ floatOfScaled neg j 10 p = S754_finite neg m e.
Proof.
  intros Hv Hs.
  assert (He : -1074 <= e) by (destruct Hv as [[_ ?]|[_ ->]]; lia).
  destruct (shortest_spec m e j p He Hs) as (Hj & Hc & _).
  split; [done|]. unfold floatOfScaled.
  replace (j <=? 0) with false by (symmetry; apply Z.leb_gt; lia).
  apply round_of_interval; try done.
  - pose proof (pow10Num_pos p). unfold pow10Num in *. nia.
  - apply pow10Den_pos.
  - by apply cand_in_interval.
Qed.

(** ** Decimal digits *)

Lemma byte_digitChar d : 0 <= d <= 9 -> byte (digitChar d) = 48 + d.
Proof.
  intros Hd. unfold byte, digitChar.
  rewrite N_ascii_embedding by lia. lia.
Qed.

Lemma isDigit_digitChar d : 0 <= d <= 9 -> isDigit (digitChar d) = true.
Proof.
  intros Hd. unfold isDigit. rewrite byte_digitChar by done.
  apply andb_true_iff. split; apply Z.leb_le; lia.
Qed.

Lemma strlen_cons c s : strlen (String c s) = 1 + strlen s.
Proof. unfold strlen. cbn [String.length]. lia. Qed.

Lemma strlen_nonneg s : 0 <= strlen s.
Proof. unfold strlen. lia. Qed.

Lemma strlen_app a b : strlen (a +:+ b) = strlen a + strlen b.
Proof.
  induction a as [|c a IH].
  - change (EmptyString +:+ b) with b. unfold strlen. cbn [String.length]. lia.
  - rewrite append_cons, !strlen_cons, IH. lia.
Qed.

Lemma allDigits_app a b : allDigits (a +:+ b) = allDigits a && allDigits b.
Proof.
  induction a as [|c a IH]; [reflexivity|].
  rewrite append_cons. cbn [allDigits]. rewrite IH. by rewrite andb_assoc.
Qed.

Lemma digitsValue_app a b acc :
  digitsValue (a +:+ b) acc = digitsValue b (digitsValue a acc).
Proof.
  revert acc. induction a as [|c a IH]; intros acc; [reflexivity|].
  rewrite append_cons. cbn [digitsValue]. apply IH.
Qed.

Lemma digitsValue_acc s acc :
  digitsValue s acc = acc * 10 ^ strlen s + digitsValue s 0.
Proof.
  revert acc. induction s as [|c s IH]; intros acc.
  - cbn. unfold strlen. cbn. lia.
  - cbn [digitsValue]. rewrite IH, (IH (0 * 10 + _)).
    rewrite strlen_cons. rewrite Z.pow_add_r by (pose proof (strlen_nonneg s); lia).
    lia.
Qed.

Lemma digitsValue_between s acc :
  allDigits s = true ->
  acc * 10 ^ strlen s <= digitsValue s acc < (acc + 1) * 10 ^ strlen s.
Proof.
  revert acc. induction s as [|c s IH]; intros acc Hd.
  - cbn. unfold strlen. cbn. lia.
  - cbn [allDigits] in Hd. apply andb_true_iff in Hd as [Hc Hs].
    cbn [digitsValue]. specialize (IH (acc * 10 + (byte c - 48)) Hs).
    unfold isDigit in Hc. apply andb_true_iff in Hc as [H1 H2].
    apply Z.leb_le in H1, H2.
    rewrite strlen_cons, Z.pow_add_r by (pose proof (strlen_nonneg s); lia).
    assert (0 < 10 ^ strlen s) by (apply Z.pow_pos_nonneg; [lia|apply strlen_nonneg]).
    change (10 ^ 1) with 10. nia.
Qed.

(** [formatDigits] writes the digits of [n], with no leading zero. *)
Lemma formatDigits_spec fuel n acc :
  0 <= n < 10 ^ (Z.of_nat fuel + 1) ->
  exists D,
    formatDigits fuel n acc = D +:+ acc
    /\ allDigits D = true
    /\ digitsValue D 0 = n
    /\ D <> EmptyString
    /\ (0 < n -> leadNonzero D = true).
Proof.
  revert n acc. induction fuel as [|fuel IH]; intros n acc Hn.
  - change (10 ^ (Z.of_nat 0 + 1)) with 10 in Hn.
    exists (String (digitChar n) EmptyString). cbn [formatDigits].
    rewrite Z.mod_small by lia.
    split; [reflexivity|]. split; [cbn; by rewrite isDigit_digitChar by lia|].
    split; [cbn; rewrite byte_digitChar by lia; lia|]. split; [done|].
    intros Hpos. cbn. rewrite isDigit_digitChar, byte_digitChar by lia.
    apply negb_true_iff, Z.eqb_neq. lia.
  - cbn [formatDigits]. destruct (Z.ltb_spec n 10) as [Hsmall|Hbig].
    + exists (String (digitChar n) EmptyString).
      rewrite Z.mod_small by lia.
      split; [reflexivity|]. split; [cbn; by rewrite isDigit_digitChar by lia|].
      split; [cbn; rewrite byte_digitChar by lia; lia|]. split; [done|].
      intros Hpos. cbn. rewrite isDigit_digitChar, byte_digitChar by lia.
      apply negb_true_iff, Z.eqb_neq. lia.
    + pose proof (Z.mod_pos_bound n 10 ltac:(lia)) as Hmod.
      pose proof (Z.div_mod n 10 ltac:(lia)) as Hdm.
      destruct (IH (n / 10) (String (digitChar (n mod 10)) acc)) as (D & HD & Hall & Hval & Hne & Hlead).
      { split; [apply Z.div_pos; lia|].
        apply Z.div_lt_upper_bound; [lia|].
        replace (Z.of_nat (S fuel) + 1) with (1 + (Z.of_nat fuel + 1)) in Hn by lia.
        rewrite Z.pow_add_r in Hn by lia. lia. }
      exists (D +:+ String (digitChar (n mod 10)) EmptyString).
      split; [by rewrite HD, append_assoc|].
      split; [rewrite allDigits_app, Hall; cbn; by rewrite isDigit_digitChar by lia|].
      split; [rewrite digitsValue_app, Hval; cbn; rewrite byte_digitChar by lia; lia|].
      split; [by destruct D|].
      intros _. destruct D as [|c D]; [done|].
      rewrite append_cons. apply Hlead. lia.
Qed.

Lemma pow10_ge_pow2 k : 0 <= k -> 2 ^ k <= 10 ^ k.
Proof. intros Hk. apply Z.pow_le_mono_l. lia. Qed.

Lemma formatDigits_log2 n acc :
  0 <= n ->
  exists D,
    formatDigits (Z.to_nat (Z.log2 n)) n acc = D +:+ acc
    /\ allDigits D = true
    /\ digitsValue D 0 = n
    /\ D <> EmptyString
    /\ (0 < n -> leadNonzero D = true).
Proof.
  intros Hn. apply formatDigits_spec. split; [done|].
  pose proof (Z.log2_nonneg n). rewrite Z2Nat.id by done.
  destruct (Z.eq_dec n 0) as [->|Hn0]; [done|].
  pose proof (Z.log2_spec n ltac:(lia)) as [_ Hlt].
  pose proof (pow10_ge_pow2 (Z.log2 n + 1) ltac:(lia)).
  replace (Z.succ (Z.log2 n)) with (Z.log2 n + 1) in Hlt by lia. lia.
Qed.

(** [Itoa] of a number that is not negative: its digits. *)
Lemma Itoa_nonneg n :
  0 <= n ->
  allDigits (Itoa n) = true /\ digitsValue (Itoa n) 0 = n /\ Itoa n <> EmptyString
  /\ (0 < n -> leadNonzero (Itoa n) = true).
Proof.
  intros Hn. unfold Itoa.
  replace (n <? 0) with false by (symmetry; apply Z.ltb_ge; lia).
  destruct (formatDigits_log2 n EmptyString Hn) as (D & -> & H).
  by rewrite append_empty_r.
Qed.

Lemma Itoa_neg n :
  n < 0 -> Itoa n = String "-" (Itoa (- n)).
Proof.
  intros Hn. unfold Itoa.
  replace (n <? 0) with true by (symmetry; apply Z.ltb_lt; lia).
  by replace (- n <? 0) with false by (symmetry; apply Z.ltb_ge; lia).
Qed.

Lemma isDigit_byte c : isDigit c = true -> 48 <= byte c <= 57.
Proof.
  unfold isDigit. intros H. apply andb_true_iff in H as [H1 H2].
  apply Z.leb_le in H1, H2. lia.
Qed.

Lemma eqb_byte c d : Ascii.eqb c d = true -> byte c = byte d.
Proof. intros H. apply Ascii.eqb_eq in H. by subst. Qed.

Lemma digit_not_sign c : isDigit c = true -> Ascii.eqb c "+" = false /\ Ascii.eqb c "-" = false.
Proof.
  intros Hc. apply isDigit_byte in Hc.
  split; apply not_true_is_false; intros H; apply eqb_byte in H;
    change (byte "+") with 43 in *; change (byte "-") with 45 in *; lia.
Qed.

(** On a digit string that stays in range [ParseUint] computes its value. *)
Lemma parseUintLoop_digits D acc :
  allDigits D = true -> 0 <= acc -> digitsValue D acc <= maxUint64 ->
  parseUintLoop D acc = (digitsValue D acc, None).
Proof.
  revert acc. induction D as [|c D IH]; intros acc Hd Hacc Hmax; [reflexivity|].
  cbn [allDigits] in Hd. apply andb_true_iff in Hd as [Hc HD].
  cbn [parseUintLoop digitsValue] in *. rewrite Hc.
  pose proof (isDigit_byte c Hc) as Hb.
  pose proof (digitsValue_between D (acc * 10 + (byte c - 48)) HD) as [Hlow _].
  assert (1 <= 10 ^ strlen D) by (pose proof (Z.pow_pos_nonneg 10 (strlen D) ltac:(lia) (strlen_nonneg D)); lia).
  assert (Hn1 : acc * 10 + (byte c - 48) <= maxUint64) by nia.
  unfold maxUint64 in *.
  replace (1844674407370955162 <=? acc) with false by (symmetry; apply Z.leb_gt; lia).
  replace (18446744073709551615 <? acc * 10 + (byte c - 48)) with false
    by (symmetry; apply Z.ltb_ge; lia).
  apply IH; [done|lia|done].
Qed.

(** A memory limit is written as the plain decimal numeral that [Atoi]
    reads back. *)
Lemma Atoi_Itoa n : minInt64 <= n <= maxInt64 -> Atoi (Itoa n) = (n, None).
Proof.
  unfold minInt64, maxInt64. intros Hn. unfold Atoi, ParseInt.
  destruct (Z.ltb_spec n 0) as [Hneg|Hpos].
  - rewrite Itoa_neg by done.
    destruct (Itoa_nonneg (- n) ltac:(lia)) as (Hall & Hval & Hne & _).
    change (Ascii.eqb "-" "-") with true. change (Ascii.eqb "-" "+") with false.
    cbn [orb]. unfold ParseUint.
    destruct (Itoa (- n)) as [|c D] eqn:E; [done|].
    rewrite parseUintLoop_digits; [|done|lia|unfold maxUint64; lia].
    rewrite Hval. unfold maxInt64. cbn [negb andb].
    replace (9223372036854775807 + 1 <? - n) with false by (symmetry; apply Z.ltb_ge; lia).
    f_equal. lia.
  - destruct (Itoa_nonneg n Hpos) as (Hall & Hval & Hne & _).
    destruct (Itoa n) as [|c D] eqn:E; [done|].
    assert (Hc : isDigit c = true) by (cbn in Hall; by apply andb_true_iff in Hall as [? _]).
    destruct (digit_not_sign c Hc) as [-> ->]. cbn [orb negb andb]. unfold ParseUint.
    rewrite parseUintLoop_digits; [|done|lia|unfold maxUint64; lia].
    rewrite Hval. unfold maxInt64.
    by replace (9223372036854775807 + 1 <=? n) with false by (symmetry; apply Z.leb_gt; lia).
Qed.

(** ** Reading back what [FormatFloat] writes *)

Lemma readDigits_counted D rest st :
  allDigits D = true -> D <> EmptyString -> 0 <= rf_nd st ->
  0 < rf_nd st \/ leadNonzero D = true ->
  readDigits false (D +:+ rest) st =
    readDigits false rest
      {| rf_mant := digitsValue D (rf_mant st); rf_nd := rf_nd st + strlen D;
         rf_dp := rf_dp st; rf_sawdot := rf_sawdot st; rf_sawdigits := true;
         rf_underscores := rf_underscores st |}.
Proof.
  revert st. induction D as [|c D IH]; intros st Hall Hne Hnd Hlead; [done|].
  cbn [allDigits] in Hall. apply andb_true_iff in Hall as [Hc HD].
  pose proof (isDigit_byte c Hc) as Hb.
  rewrite append_cons. cbn [readDigits].
  replace (byte c =? 95) with false by (symmetry; apply Z.eqb_neq; lia).
  replace (byte c =? 46) with false by (symmetry; apply Z.eqb_neq; lia).
  rewrite Hc.
  assert (Hskip : (byte c =? 48) && (rf_nd st =? 0) = false).
  { destruct Hlead as [Hpos|Hlead].
    - replace (rf_nd st =? 0) with false by (symmetry; apply Z.eqb_neq; lia).
      apply andb_false_r.
    - cbn in Hlead. rewrite Hc in Hlead. cbn in Hlead.
      apply negb_true_iff in Hlead. by rewrite Hlead. }
  rewrite Hskip.
  destruct D as [|c' D].
  - change (EmptyString +:+ rest) with rest. cbn [digitsValue].
    rewrite strlen_cons. unfold strlen at 1. cbn [String.length Z.of_nat].
    by rewrite Z.add_0_r.
  - rewrite IH; [|done|done|cbn [rf_nd]; lia|left; cbn [rf_nd]; lia].
    cbn [rf_mant rf_nd rf_dp rf_sawdot rf_sawdigits rf_underscores digitsValue].
    rewrite (strlen_cons c). do 2 f_equal. lia.
Qed.

Lemma readDigits_zeros k rest st :
  rf_nd st = 0 ->
  readDigits false (zeros (S k) +:+ rest) st =
    readDigits false rest
      {| rf_mant := rf_mant st; rf_nd := rf_nd st;
         rf_dp := rf_dp st - Z.of_nat (S k); rf_sawdot := rf_sawdot st;
         rf_sawdigits := true; rf_underscores := rf_underscores st |}.
Proof.
  revert st. induction k as [|k IH]; intros st Hnd.
  - cbn [zeros]. rewrite append_cons. change (EmptyString +:+ rest) with rest.
    cbn [readDigits]. change (byte "0" =? 95) with false. change (byte "0" =? 46) with false.
    change (isDigit "0") with true. change (byte "0" =? 48) with true. rewrite Hnd.
    reflexivity.
  - change (zeros (S (S k))) with (String "0" (zeros (S k))).
    rewrite append_cons. cbn [readDigits].
    change (byte "0" =? 95) with false. change (byte "0" =? 46) with false.
    change (isDigit "0") with true. change (byte "0" =? 48) with true. rewrite Hnd.
    cbv iota beta. change (0 =? 0) with true. cbn [andb].
    rewrite IH by done.
    cbn [rf_mant rf_nd rf_dp rf_sawdot rf_sawdigits rf_underscores].
    do 2 f_equal. lia.
Qed.

Lemma readDigits_dot rest st :
  rf_sawdot st = false ->
  readDigits false (String "." rest) st =
    readDigits false rest
      {| rf_mant := rf_mant st; rf_nd := rf_nd st; rf_dp := rf_nd st;
         rf_sawdot := true; rf_sawdigits := rf_sawdigits st;
         rf_underscores := rf_underscores st |}.
Proof.
  intros Hdot. cbn [readDigits].
  change (byte "." =? 95) with false. change (byte "." =? 46) with true.
  by rewrite Hdot.
Qed.

Lemma allDigits_zeros k : allDigits (zeros k) = true.
Proof. induction k; [reflexivity|done]. Qed.

Lemma strlen_zeros k : strlen (zeros k) = Z.of_nat k.
Proof.
  induction k as [|k IH]; [reflexivity|].
  change (zeros (S k)) with (String "0" (zeros k)). rewrite strlen_cons, IH. lia.
Qed.

Lemma digitsValue_zeros k acc : digitsValue (zeros k) acc = acc * 10 ^ Z.of_nat k.
Proof.
  revert acc. induction k as [|k IH]; intros acc; [cbn; lia|].
  change (zeros (S k)) with (String "0" (zeros k)). cbn [digitsValue].
  rewrite IH. change (byte "0" - 48) with 0.
  rewrite Nat2Z.inj_succ, Z.pow_succ_r by lia. lia.
Qed.

Lemma take_drop_bytes k s : takeBytes k s +:+ dropBytes k s = s.
Proof.
  revert s. induction k as [|k IH]; intros s; [by destruct s|].
  destruct s as [|c s]; [reflexivity|].
  cbn [takeBytes dropBytes]. rewrite append_cons. by rewrite IH.
Qed.

Lemma strlen_takeBytes k s :
  (k <= String.length s)%nat -> strlen (takeBytes k s) = Z.of_nat k.
Proof.
  revert s. induction k as [|k IH]; intros s Hk; [by destruct s|].
  destruct s as [|c s]; [cbn in Hk; lia|].
  cbn [takeBytes]. rewrite strlen_cons, IH by (cbn in Hk; lia). lia.
Qed.

Lemma takeBytes_all s : takeBytes (String.length s) s = s.
Proof. induction s as [|c s IH]; [reflexivity|]. cbn. by rewrite IH. Qed.

Lemma leadNonzero_takeBytes k s :
  leadNonzero s = true -> leadNonzero (takeBytes (S k) s) = true.
Proof. by destruct s. Qed.

Lemma takeBytes_nonempty k s : s <> EmptyString -> takeBytes (S k) s <> EmptyString.
Proof. by destruct s. Qed.

Lemma dropBytes_nonempty k s :
  (k < String.length s)%nat -> dropBytes k s <> EmptyString.
Proof.
  revert s. induction k as [|k IH]; intros s Hk.
  - destruct s; [cbn in Hk; lia|done].
  - destruct s as [|c s]; [cbn in Hk; lia|]. cbn [dropBytes]. apply IH. cbn in Hk. lia.
Qed.

Lemma digit_lower c : isDigit c = true -> (lower c =? 120) = false.
Proof. destruct c as [[] [] [] [] [] [] [] []]; try discriminate; reflexivity. Qed.

Lemma dot_lower c : (byte c =? 46) = true -> (lower c =? 120) = false.
Proof. destruct c as [[] [] [] [] [] [] [] []]; try discriminate; reflexivity. Qed.

Lemma digitsAndDots_app a b : digitsAndDots (a +:+ b) = digitsAndDots a && digitsAndDots b.
Proof.
  induction a as [|c a IH]; [reflexivity|].
  rewrite append_cons. cbn [digitsAndDots]. rewrite IH. by rewrite andb_assoc.
Qed.

Lemma allDigits_digitsAndDots s : allDigits s = true -> digitsAndDots s = true.
Proof.
  induction s as [|c s IH]; [done|]. cbn. intros H.
  apply andb_true_iff in H as [-> H]. by rewrite IH.
Qed.

(** [special] passes a plain decimal, signed or not, on to [readFloat]. *)
Lemma special_plain (neg : bool) body :
  plainDecimal body = true ->
  special ((if neg then "-" else "") +:+ body) = None.
Proof.
  destruct body as [|c rest]; [done|]. cbn [plainDecimal]. intros H.
  apply andb_true_iff in H as [Hc _]. destruct neg.
  - change ("-" +:+ String c rest) with (String "-" (String c rest)).
    cbn [special]. change (byte "-" =? 43) with false. change (byte "-" =? 45) with true.
    cbn [orb]. unfold specialInf. cbn [commonPrefixLenIgnoreCase].
    replace (toLowerAZ c =? byte "i") with false; [reflexivity|].
    symmetry. apply Z.eqb_neq. unfold toLowerAZ. apply isDigit_byte in Hc.
    change (byte "i") with 105.
    destruct ((65 <=? byte c) && (byte c <=? 90)) eqn:E; [|lia].
    apply andb_true_iff in E as [E _]. apply Z.leb_le in E. lia.
  - change ("" +:+ String c rest) with (String c rest).
    cbn [special]. apply isDigit_byte in Hc.
    by repeat match goal with
              | |- context [byte c =? ?k] =>
                  replace (byte c =? k) with false by (symmetry; apply Z.eqb_neq; lia)
              end.
Qed.

(** [readFloat] on a plain decimal: what the digit loop has read. *)
Lemma readFloat_plain (neg : bool) body st :
  plainDecimal body = true ->
  readDigits false body readStart = (st, EmptyString) ->
  rf_sawdigits st = true -> rf_underscores st = false ->
  readFloat ((if neg then "-" else "") +:+ body) =
    Some {| rr_mant := rf_mant st;
            rr_exp := if rf_mant st =? 0 then 0
                      else 1 * (if rf_sawdot st then rf_dp st else rf_nd st) - 1 * rf_nd st;
            rr_neg := neg; rr_hex := false;
            rr_n := strlen ((if neg then "-" else "") +:+ body) |}.
Proof.
  intros Hplain Hread Hdig Hus.
  destruct body as [|c rest]; [done|].
  cbn [plainDecimal] in Hplain. apply andb_true_iff in Hplain as [Hc Hrest].
  pose proof (isDigit_byte c Hc) as Hb.
  assert (Hhex : match String c rest with
                 | String z (String x (String c' r)) =>
                     if (byte z =? 48) && (lower x =? 120)
                     then (true, String c' r) else (false, String c rest)
                 | _ => (false, String c rest)
                 end = (false, String c rest)).
  { destruct rest as [|x [|c' r]]; try reflexivity.
    cbn [digitsAndDots] in Hrest. apply andb_true_iff in Hrest as [Hx _].
    apply orb_true_iff in Hx as [Hx|Hx];
      [rewrite (digit_lower x Hx)|rewrite (dot_lower x Hx)]; by rewrite andb_false_r. }
  assert (Hsign : dropSign ((if neg then "-" else "") +:+ String c rest) = String c rest
                  /\ exists c0 tl, (if neg then "-" else "") +:+ String c rest = String c0 tl
                                   /\ (byte c0 =? 45) = neg).
  { destruct neg.
    - split; [reflexivity|]. by exists "-"%char, (String c rest).
    - change ("" +:+ String c rest) with (String c rest). split.
      + cbn [dropSign].
        replace (byte c =? 43) with false by (symmetry; apply Z.eqb_neq; lia).
        by replace (byte c =? 45) with false by (symmetry; apply Z.eqb_neq; lia).
      + exists c, rest. split; [done|]. apply Z.eqb_neq. lia. }
  destruct Hsign as (Hdrop & c0 & tl & Hs & Hneg).
  unfold readFloat. rewrite Hdrop. rewrite Hs at 1. rewrite Hneg.
  rewrite Hhex. fold readStart. rewrite Hread. rewrite Hdig. cbn [negb].
  rewrite Hus. cbn [andb]. unfold strlen at 2. cbn [String.length Z.of_nat].
  by rewrite Z.sub_0_r.
Qed.

Lemma readDigits_end st : readDigits false EmptyString st = (st, EmptyString).
Proof. reflexivity. Qed.

Lemma floatOfScaled_shift neg j p :
  0 < j -> 0 <= p -> floatOfScaled neg (j * 10 ^ p) 10 0 = floatOfScaled neg j 10 p.
Proof.
  intros Hj Hp. unfold floatOfScaled.
  assert (0 < 10 ^ p) by (apply Z.pow_pos_nonneg; lia).
  replace (j * 10 ^ p <=? 0) with false by (symmetry; apply Z.leb_gt; nia).
  replace (j <=? 0) with false by (symmetry; apply Z.leb_gt; lia).
  change (Z.max 0 0) with 0. change (Z.max (- 0) 0) with 0.
  rewrite (Z.max_l p 0), (Z.max_r (- p) 0) by lia.
  by rewrite Z.pow_0_r, Z.mul_1_r.
Qed.

Lemma plainDecimal_parts T R :
  allDigits T = true -> T <> EmptyString -> digitsAndDots R = true ->
  plainDecimal (T +:+ R) = true.
Proof.
  intros HT Hne HR. destruct T as [|c T]; [done|].
  rewrite append_cons. cbn [plainDecimal allDigits] in *.
  apply andb_true_iff in HT as [-> HT]. cbn [andb].
  by rewrite digitsAndDots_app, (allDigits_digitsAndDots _ HT), HR.
Qed.

Lemma digitsAndDots_dot R : allDigits R = true -> digitsAndDots (String "." R) = true.
Proof. intros HR. cbn [digitsAndDots]. by rewrite (allDigits_digitsAndDots _ HR). Qed.

(** The three layouts of [fmtF]: digits and zeros, digits around a dot, or
    [0.] with zeros and the digits.  In each, [readFloat] finds a mantissa
    and an exponent that denote [j * 10^p]. *)
Lemma readFloat_fmtF (neg : bool) digs p j :
  allDigits digs = true -> leadNonzero digs = true -> digitsValue digs 0 = j -> 0 < j ->
  let s := fmtF neg digs (strlen digs + p) in
  special s = None
  /\ exists M X,
       readFloat s = Some {| rr_mant := M; rr_exp := X; rr_neg := neg; rr_hex := false;
                             rr_n := strlen s |}
       /\ floatOfScaled neg M 10 X = floatOfScaled neg j 10 p.
Proof.
  intros Hall Hlead Hval Hj s.
  assert (Hne : digs <> EmptyString) by (by destruct digs).
  assert (Hnd : 1 <= strlen digs).
  { destruct digs; [done|]. rewrite strlen_cons. pose proof (strlen_nonneg digs). lia. }
  assert (Hlen : strlen digs = Z.of_nat (String.length digs)) by reflexivity.
  assert (Hfirst : exists c D, digs = String c D /\ isDigit c = true).
  { destruct digs as [|c D]; [done|]. exists c, D. split; [done|].
    cbn in Hall. by apply andb_true_iff in Hall as [? _]. }
  destruct Hfirst as (c & D & Hdigs & Hc).
  subst s.
  destruct (Z_le_gt_dec 0 p) as [Hp|Hp].
  - (* digits, then zeros *)
    assert (Hfmt : fmtF neg digs (strlen digs + p)
                   = (if neg then "-" else "") +:+ digs +:+ zeros (Z.to_nat p)).
    { unfold fmtF.
      replace (0 <? strlen digs + p) with true by (symmetry; apply Z.ltb_lt; lia).
      replace (0 <? strlen digs - (strlen digs + p)) with false
        by (symmetry; apply Z.ltb_ge; lia).
      rewrite Z.min_l by lia. rewrite Hlen at 1. rewrite Nat2Z.id, takeBytes_all.
      replace (strlen digs + p - strlen digs) with p by lia.
      by rewrite append_empty_r. }
    rewrite Hfmt. clear Hfmt.
    set (body := digs +:+ zeros (Z.to_nat p)).
    assert (HallB : allDigits body = true)
      by (unfold body; by rewrite allDigits_app, Hall, allDigits_zeros).
    assert (Hplain : plainDecimal body = true).
    { apply plainDecimal_parts; [done|done|].
      apply allDigits_digitsAndDots, allDigits_zeros. }
    split; [by apply special_plain|].
    eexists _, _. split.
    + eapply readFloat_plain; [exact Hplain|..].
      { rewrite <- (append_empty_r body) at 1.
        rewrite readDigits_counted; [apply readDigits_end|done| |done|].
        - unfold body. by rewrite Hdigs, append_cons.
        - right. unfold body. rewrite Hdigs, append_cons. rewrite Hdigs in Hlead.
          exact Hlead. }
      { reflexivity. }
      { reflexivity. }
    + cbn [rf_mant rf_nd rf_dp rf_sawdot readStart]. unfold body.
      rewrite digitsValue_app, Hval, digitsValue_zeros, Z2Nat.id by lia.
      assert (0 < 10 ^ p) by (apply Z.pow_pos_nonneg; lia).
      replace (j * 10 ^ p =? 0) with false by (symmetry; apply Z.eqb_neq; nia).
      replace (1 * (0 + strlen (digs +:+ zeros (Z.to_nat p)))
               - 1 * (0 + strlen (digs +:+ zeros (Z.to_nat p)))) with 0 by lia.
      by apply floatOfScaled_shift.
  - destruct (Z_lt_le_dec 0 (strlen digs + p)) as [Hdp|Hdp].
    + (* digits, a dot, digits *)
      set (k := Z.to_nat (strlen digs + p)).
      assert (Hk : (0 < k < String.length digs)%nat) by lia.
      assert (Hfmt : fmtF neg digs (strlen digs + p)
                     = (if neg then "-" else "")
                       +:+ takeBytes k digs +:+ String "." (dropBytes k digs)).
      { unfold fmtF.
        replace (0 <? strlen digs + p) with true by (symmetry; apply Z.ltb_lt; lia).
        replace (0 <? strlen digs - (strlen digs + p)) with true
          by (symmetry; apply Z.ltb_lt; lia).
        rewrite Z.min_r by lia.
        replace (strlen digs + p - (strlen digs + p)) with 0 by lia.
        rewrite (Z.min_l (- (strlen digs + p))) by lia.
        rewrite (Z.max_l (strlen digs + p) 0) by lia.
        replace (Z.to_nat (- (strlen digs + p))) with 0%nat by lia.
        change (Z.to_nat 0) with 0%nat. cbn [zeros]. fold k.
        rewrite append_empty_r. reflexivity. }
      rewrite Hfmt. clear Hfmt.
      destruct k as [|k'] eqn:Ek; [lia|]. rewrite <- Ek in *.
      set (body := takeBytes k digs +:+ String "." (dropBytes k digs)).
      assert (HallT : allDigits (takeBytes k digs) = true /\ allDigits (dropBytes k digs) = true).
      { rewrite <- (take_drop_bytes k digs), allDigits_app in Hall.
        by apply andb_true_iff in Hall. }
      destruct HallT as [HallT HallD].
      assert (Hplain : plainDecimal body = true).
      { apply plainDecimal_parts; [done|rewrite Ek; by apply takeBytes_nonempty|].
        by apply digitsAndDots_dot. }
      split; [by apply special_plain|].
      eexists _, _. split.
      * eapply readFloat_plain; [exact Hplain|..].
        { unfold body.
          rewrite readDigits_counted;
            [|done|rewrite Ek; by apply takeBytes_nonempty|done
             |right; rewrite Ek; by apply leadNonzero_takeBytes].
          rewrite readDigits_dot by reflexivity.
          rewrite <- (append_empty_r (dropBytes k digs)).
          rewrite readDigits_counted;
            [apply readDigits_end|done|apply dropBytes_nonempty; lia| |].
          - cbn [rf_nd readStart]. pose proof (strlen_nonneg (takeBytes k digs)). lia.
          - left. cbn [rf_nd readStart]. rewrite strlen_takeBytes by lia. lia. }
        { reflexivity. }
        { reflexivity. }
      * cbn [rf_mant rf_nd rf_dp rf_sawdot readStart].
        rewrite <- digitsValue_app, take_drop_bytes, Hval.
        replace (j =? 0) with false by (symmetry; apply Z.eqb_neq; lia).
        f_equal.
        assert (strlen (takeBytes k digs) + strlen (dropBytes k digs) = strlen digs)
          by (by rewrite <- strlen_app, take_drop_bytes).
        rewrite strlen_takeBytes in * by lia. lia.
    + (* zero, a dot, zeros, digits *)
      set (k := Z.to_nat (- (strlen digs + p))).
      assert (Hk : Z.of_nat k = - (strlen digs + p)) by lia.
      assert (Hfmt : fmtF neg digs (strlen digs + p)
                     = (if neg then "-" else "")
                       +:+ String "0" (String "." (zeros k +:+ digs))).
      { unfold fmtF.
        replace (0 <? strlen digs + p) with false by (symmetry; apply Z.ltb_ge; lia).
        replace (0 <? strlen digs - (strlen digs + p)) with true
          by (symmetry; apply Z.ltb_lt; lia).
        rewrite (Z.min_l (- (strlen digs + p))) by lia.
        rewrite (Z.max_r (strlen digs + p) 0) by lia.
        change (dropBytes (Z.to_nat 0) digs) with digs. fold k. reflexivity. }
      rewrite Hfmt. clear Hfmt.
      set (body := String "0" (String "." (zeros k +:+ digs))).
      assert (Hplain : plainDecimal body = true).
      { apply (plainDecimal_parts "0"); [done|done|].
        apply digitsAndDots_dot. by rewrite allDigits_app, allDigits_zeros. }
      split; [by apply special_plain|].
      destruct k as [|k']; eexists _, _; (split; [eapply readFloat_plain; [exact Hplain|..]|]).
      * unfold body.
        change (String "0" (String "." (zeros 0 +:+ digs)))
          with (zeros 1 +:+ String "." digs).
        rewrite readDigits_zeros by reflexivity.
        rewrite readDigits_dot by reflexivity.
        rewrite <- (append_empty_r digs) at 1.
        rewrite readDigits_counted; [apply readDigits_end|done|done|cbn; lia|by right].
      * reflexivity.
      * reflexivity.
      * cbn [rf_mant rf_nd rf_dp rf_sawdot readStart]. rewrite Hval.
        replace (j =? 0) with false by (symmetry; apply Z.eqb_neq; lia).
        f_equal. lia.
      * unfold body.
        change (String "0" (String "." (zeros (S k') +:+ digs)))
          with (zeros 1 +:+ String "." (zeros (S k') +:+ digs)).
        rewrite readDigits_zeros by reflexivity.
        rewrite readDigits_dot by reflexivity.
        rewrite readDigits_zeros by reflexivity.
        rewrite <- (append_empty_r digs) at 1.
        rewrite readDigits_counted; [apply readDigits_end|done|done|cbn; lia|by right].
      * reflexivity.
      * reflexivity.
      * cbn [rf_mant rf_nd rf_dp rf_sawdot readStart]. rewrite Hval.
        replace (j =? 0) with false by (symmetry; apply Z.eqb_neq; lia).
        f_equal. lia.
Qed.

(** ** Valid floats *)

Lemma digits2_pos_log2 m : Z.pos (digits2_pos m) = Z.log2 (Z.pos m) + 1.
Proof.
  assert (Hsize : forall p, digits2_pos p = Pos.size p).
  { induction p as [p IH|p IH|]; cbn; by rewrite ?IH. }
  rewrite Hsize. destruct m as [p|p|]; cbn [Z.log2 Pos.size]; lia.
Qed.

Lemma valid_binary_validFinite neg m e :
  valid_binary 53 1024 (S754_finite neg m e) = true -> validFinite m e.
Proof.
  cbn [valid_binary]. unfold bounded, canonical_mantissa, fexp, SpecFloat.emin.
  intros H. apply andb_true_iff in H as [Hc He].
  apply Z.eqb_eq in Hc. apply Z.leb_le in He.
  rewrite digits2_pos_log2 in Hc.
  pose proof (Z.log2_spec (Z.pos m) ltac:(lia)) as [Hlo Hhi].
  pose proof (Z.log2_nonneg (Z.pos m)) as Hnn.
  unfold validFinite.
  destruct (Z_lt_le_dec (Z.log2 (Z.pos m)) 52) as [Hsub|Hnorm].
  - right. split; [|lia].
    eapply Z.lt_le_trans; [exact Hhi|]. apply Z.pow_le_mono_r; lia.
  - left. assert (Z.log2 (Z.pos m) = 52) by lia.
    replace (Z.succ (Z.log2 (Z.pos m))) with 53 in Hhi by lia.
    replace (Z.log2 (Z.pos m)) with 52 in Hlo by lia. lia.
Qed.

(** Every [float64] that [FormatFloat] renders is read back by
    [ParseFloat] as the same value, without error. *)
Lemma ParseFloat_FormatFloat f :
  valid_binary 53 1024 f = true -> ParseFloat (FormatFloat f) = (f, None).
Proof.
  destruct f as [[]|[]| |neg m e]; try reflexivity.
  intros Hvalid. apply valid_binary_validFinite in Hvalid.
  unfold FormatFloat. destruct (shortest m e) as [j p] eqn:Hs.
  destruct (shortest_round_trip neg m e j p Hvalid Hs) as [Hj Hround].
  destruct (Itoa_nonneg j ltac:(lia)) as (Hall & Hval & _ & Hlead).
  destruct (readFloat_fmtF neg (Itoa j) p j Hall (Hlead Hj) Hval Hj) as (Hsp & M & X & Hrf & Hfs).
  cbv zeta in Hsp, Hrf.
  unfold ParseFloat, parseFloatPrefix. rewrite Hsp, Hrf.
  cbn [rr_neg rr_mant rr_hex rr_exp rr_n]. rewrite Hfs, Hround. cbn [isInf].
  by rewrite Z.eqb_refl.
Qed.

(** ** Nothing shorter reads back *)

Lemma finishRound_inv neg q s m e :
  0 <= q <= 2 ^ 53 ->
  finishRound neg q s = S754_finite neg m e ->
  (q = 2 ^ 53 /\ Z.pos m = 2 ^ 52 /\ e = s + 1 - 1074)
  \/ (q < 2 ^ 53 /\ q = Z.pos m /\ e = s - 1074).
Proof.
  intros Hq. unfold finishRound, mantBits, maxExp.
  change (2 ^ (52 + 1)) with (2 ^ 53).
  destruct (Z.eqb_spec q (2 ^ 53)) as [->|Hne].
  - change (2 ^ 52) with (Z.pos (2 ^ 52)). cbv iota beta.
    destruct (971 <? s + 1 - 1074); [discriminate|].
    intros [= <- <-]. left. done.
  - destruct q as [|q|q]; [discriminate| |discriminate].
    destruct (971 <? s - 1074); [discriminate|].
    intros [= <- <-]. right. lia.
Qed.

(** A rational that rounds to a finite float lies in its interval. *)
Lemma round_to_interval neg m e num den :
  0 < num -> 0 < den ->
  roundNearestEven neg num den = S754_finite neg m e ->
  inRoundingInterval m e num den = true.
Proof.
  intros Hnum Hden. unfold roundNearestEven.
  set (A := num * 2 ^ 1074).
  assert (HA : 0 < A) by (unfold A; pose proof (Z.pow_pos_nonneg 2 1074); lia).
  set (w := A / den).
  assert (Hw0 : 0 <= w) by (apply Z.div_pos; lia).
  set (s := Z.max (Z.log2 w - mantBits) 0).
  assert (Hs0 : 0 <= s) by lia.
  set (T := 2 ^ s). assert (HT : 0 < T) by (apply Z.pow_pos_nonneg; lia).
  set (K := den * T). assert (HK : 0 < K) by (unfold K; lia).
  set (q := A / K).
  assert (Hq : q * K <= A < (q + 1) * K).
  { pose proof (Z.div_mod A K ltac:(lia)). pose proof (Z.mod_pos_bound A K HK).
    unfold q. lia. }
  assert (Hqw : q = w / T) by (unfold q, w, K; by rewrite Z.div_div by lia).
  assert (Hq0 : 0 <= q) by (apply Z.div_pos; lia).
  (* the truncated mantissa has 53 bits, or fewer at the least exponent *)
  assert (Hbits : q < 2 ^ 53 /\ (0 < s -> 2 ^ 52 <= q)).
  { unfold mantBits in s.
    destruct (Z.eq_dec w 0) as [Hwz|Hwz].
    - assert (s = 0) by (unfold s; rewrite Hwz; reflexivity).
      rewrite Hqw, Hwz. rewrite Z.div_0_l by lia. lia.
    - pose proof (Z.log2_spec w ltac:(lia)) as [Hl1 Hl2].
      destruct (Z_le_gt_dec (Z.log2 w) 52) as [Hsmall|Hlarge].
      + assert (Hsz : s = 0) by lia. unfold T in *. rewrite Hsz in *.
        rewrite Z.pow_0_r, Z.div_1_r in Hqw. split; [|lia].
        rewrite Hqw. eapply Z.lt_le_trans; [exact Hl2|]. apply Z.pow_le_mono_r; lia.
      + assert (Hsz : Z.log2 w = 52 + s) by lia.
        rewrite Hsz in Hl1. replace (Z.succ (Z.log2 w)) with (53 + s) in Hl2 by lia.
        rewrite Z.pow_add_r in Hl1, Hl2 by lia. fold T in Hl1, Hl2.
        split; [|intros _].
        * rewrite Hqw. apply Z.div_lt_upper_bound; lia.
        * rewrite Hqw. apply Z.div_le_lower_bound; lia. }
  destruct Hbits as [Hq53 Hq52].
  fold A K. rewrite (roundToEven_eval A K q HK Hq).
  intros Hfin.
  assert (Ha : num * 2 ^ 1076 = 4 * A).
  { unfold A. change 1076 with (2 + 1074). rewrite Z.pow_add_r by lia. lia. }
  unfold inRoundingInterval, lowerMid, upperMid, mantBits, minExp. rewrite Ha.
  destruct (Z.compare_spec (2 * (A - q * K)) K) as [Heq|Hlt|Hgt].
  - (* a tie: the even neighbour *)
    destruct (Z.even q) eqn:Hev.
    + apply finishRound_inv in Hfin as [(? & _)|(_ & Hm & He)]; [lia| |lia].
      rewrite <- Hm, Hev. replace (e + 1074) with s by lia. fold T.
      apply andb_true_iff. split; apply Z.leb_le.
      * destruct ((q =? 2 ^ 52) && (-1074 <? e)) eqn:Hpow; unfold K in *; [|lia].
        apply andb_true_iff in Hpow as [_ He']. apply Z.ltb_lt in He'.
        assert (2 ^ 52 <= q) by (apply Hq52; lia). lia.
      * unfold K in *. lia.
    + apply finishRound_inv in Hfin as [(Hc & Hm & He)|(_ & Hm & He)]; [| |lia].
      * rewrite Hm. change (Z.even (2 ^ 52)) with true.
        change (2 ^ 52 =? 2 ^ 52) with true.
        replace (-1074 <? e) with true by (symmetry; apply Z.ltb_lt; lia).
        cbn [andb]. replace (e + 1074) with (1 + s) by lia.
        rewrite Z.pow_add_r by lia. fold T. change (2 ^ 1) with 2.
        apply andb_true_iff. split; apply Z.leb_le; unfold K in *; lia.
      * assert (Hevm : Z.even (Z.pos m) = true).
        { rewrite <- Hm. rewrite Z.even_add, Hev. reflexivity. }
        rewrite Hevm. replace (e + 1074) with s by lia. fold T.
        apply andb_true_iff. split; apply Z.leb_le.
        -- destruct ((Z.pos m =? 2 ^ 52) && (-1074 <? e)) eqn:Hpow; unfold K in *; [|lia].
           apply andb_true_iff in Hpow as [Hp1 Hp2].
           apply Z.eqb_eq in Hp1. apply Z.ltb_lt in Hp2.
           assert (2 ^ 52 <= q) by (apply Hq52; lia). lia.
        -- unfold K in *. lia.
  - (* below the half: rounded down *)
    apply finishRound_inv in Hfin as [(? & _)|(_ & Hm & He)]; [lia| |lia].
    rewrite <- Hm. replace (e + 1074) with s by lia. fold T.
    assert (Hlow : (if (q =? 2 ^ 52) && (-1074 <? e) then 4 * q - 1 else 4 * q - 2) * T * den
                   < 4 * A).
    { destruct ((q =? 2 ^ 52) && (-1074 <? e)); unfold K in *; lia. }
    assert (Hupp : 4 * A < (4 * q + 2) * T * den) by (unfold K in *; lia).
    destruct (Z.even q); apply andb_true_iff; split;
      first [apply Z.leb_le | apply Z.ltb_lt]; lia.
  - (* above the half: rounded up *)
    apply finishRound_inv in Hfin as [(Hc & Hm & He)|(_ & Hm & He)]; [| |lia].
    + rewrite Hm. change (Z.even (2 ^ 52)) with true.
      change (2 ^ 52 =? 2 ^ 52) with true.
      replace (-1074 <? e) with true by (symmetry; apply Z.ltb_lt; lia).
      cbn [andb]. replace (e + 1074) with (1 + s) by lia.
      rewrite Z.pow_add_r by lia. fold T. change (2 ^ 1) with 2.
      apply andb_true_iff. split; apply Z.leb_le; unfold K in *; lia.
    + replace (e + 1074) with s by lia. fold T.
      assert (Hnp : (Z.pos m =? 2 ^ 52) && (-1074 <? e) = false).
      { apply andb_false_iff.
        destruct (Z.ltb_spec (-1074) e) as [He'|He']; [left|by right].
        apply Z.eqb_neq. assert (2 ^ 52 <= q) by (apply Hq52; lia). lia. }
      rewrite Hnp.
      assert (Hlow : (4 * Z.pos m - 2) * T * den < 4 * A) by (unfold K in *; lia).
      assert (Hupp : 4 * A < (4 * Z.pos m + 2) * T * den) by (unfold K in *; lia).
      destruct (Z.even (Z.pos m)); apply andb_true_iff; split;
        first [apply Z.leb_le | apply Z.ltb_lt]; lia.
Qed.

Lemma pow10_le_pow2 P L : 0 <= P -> 10 * P <= 3 * L -> 10 ^ P <= 2 ^ L.
Proof.
  intros HP HL.
  apply (Z.pow_le_mono_l_iff (10 ^ P) (2 ^ L) 10);
    [apply Z.pow_nonneg; lia|apply Z.pow_nonneg; lia|lia|].
  rewrite <- !Z.pow_mul_r by lia.
  transitivity (10 ^ (3 * L)); [apply Z.pow_le_mono_r; lia|].
  replace (L * 10) with (10 * L) by lia.
  rewrite !Z.pow_mul_r by lia.
  apply Z.pow_le_mono_l. split; [done|]. by vm_compute.
Qed.

Lemma pow2_le_pow10 l p : 0 <= l -> l <= 3 * p -> 2 ^ l <= 10 ^ p.
Proof.
  intros Hl Hp.
  transitivity (2 ^ (3 * p)); [apply Z.pow_le_mono_r; lia|].
  rewrite Z.pow_mul_r by lia. apply Z.pow_le_mono_l. lia.
Qed.

(** The upper midpoint is below [2^l] for the [l] of [shortestStart]. *)
Lemma upperMid_below m e :
  -1074 <= e -> upperMid m e < 2 ^ (Z.log2 (Z.pos m) + e + 1 + 1076).
Proof.
  intros He. unfold upperMid.
  pose proof (Z.log2_spec (Z.pos m) ltac:(lia)) as [_ Hhi].
  pose proof (Z.log2_nonneg (Z.pos m)) as Hnn.
  replace (Z.log2 (Z.pos m) + e + 1 + 1076) with (2 + (Z.succ (Z.log2 (Z.pos m)) + (e + 1074)))
    by lia.
  rewrite (Z.pow_add_r 2 2) by lia. rewrite (Z.pow_add_r 2 (Z.succ _)) by lia.
  change (2 ^ 2) with 4.
  set (G := 2 ^ (e + 1074)). assert (0 < G) by (apply Z.pow_pos_nonneg; lia).
  set (B := 2 ^ Z.succ (Z.log2 (Z.pos m))) in *. nia.
Qed.

(** From [shortestStart] upwards there is no candidate. *)
Lemma no_candidate_above m e p :
  -1074 <= e -> shortestStart m e <= p -> candHi m e p <= 0.
Proof.
  intros He Hp.
  pose proof (upperMid_below m e He) as Hup.
  pose proof (Z.log2_nonneg (Z.pos m)) as Hnn.
  unfold shortestStart in Hp. cbv zeta in Hp.
  set (l := Z.log2 (Z.pos m) + e + 1) in *.
  assert (Hl76 : 0 <= l + 1076) by lia.
  assert (Hlt : upperMid m e * pow10Den p < 2 ^ 1076 * pow10Num p).
  { unfold pow10Num, pow10Den.
    destruct (Z.leb_spec 0 l) as [Hlpos|Hlneg].
    - pose proof (Z.div_mod l 3 ltac:(lia)). pose proof (Z.mod_pos_bound l 3 ltac:(lia)).
      rewrite (Z.max_l p 0), (Z.max_r (- p) 0) by lia. rewrite Z.pow_0_r, Z.mul_1_r.
      rewrite Z.add_comm, Z.pow_add_r in Hup by lia.
      pose proof (pow2_le_pow10 l p Hlpos ltac:(lia)).
      assert (0 < 2 ^ 1076) by (by vm_compute). nia.
    - pose proof (Z.div_mod (l * 3) 10 ltac:(lia)).
      pose proof (Z.mod_pos_bound (l * 3) 10 ltac:(lia)).
      destruct (Z_le_gt_dec 0 p) as [Hp0|Hp0].
      + rewrite (Z.max_l p 0), (Z.max_r (- p) 0) by lia. rewrite Z.pow_0_r, Z.mul_1_r.
        assert (2 ^ (l + 1076) <= 2 ^ 1076) by (apply Z.pow_le_mono_r; lia).
        assert (1 <= 10 ^ p) by (pose proof (Z.pow_pos_nonneg 10 p); lia).
        assert (0 < 2 ^ 1076) by (by vm_compute). nia.
      + rewrite (Z.max_r p 0), (Z.max_l (- p) 0) by lia. rewrite Z.pow_0_r, Z.mul_1_r.
        pose proof (pow10_le_pow2 (- p) (- l) ltac:(lia) ltac:(lia)) as H10.
        assert (H2 : 2 ^ (l + 1076) * 2 ^ (- l) = 2 ^ 1076).
        { rewrite <- Z.pow_add_r by lia. f_equal. lia. }
        assert (0 < 10 ^ (- p)) by (apply Z.pow_pos_nonneg; lia).
        assert (0 < 2 ^ (l + 1076)) by (apply Z.pow_pos_nonneg; lia).
        set (U := upperMid m e) in *. set (X := 2 ^ (l + 1076)) in *.
        set (Y := 2 ^ (- l)) in *. set (W := 10 ^ (- p)) in *. set (R := 2 ^ 1076) in *.
        nia. }
  pose proof (pow10Num_pos p) as Hn. pose proof (pow10Den_pos p) as Hd.
  assert (Hupos : 0 < upperMid m e).
  { unfold upperMid. pose proof (Z.pow_pos_nonneg 2 (e + 1074) ltac:(lia) ltac:(lia)). nia. }
  unfold candHi.
  set (n := upperMid m e * pow10Den p) in *. set (d := 2 ^ 1076 * pow10Num p) in *.
  assert (0 < n) by (unfold n; nia).
  destruct (Z.even (Z.pos m)).
  - rewrite Z.div_small by lia. lia.
  - assert ((n + d - 1) / d = 1); [|lia].
    apply div_between; lia.
Qed.

(** No decimal with a coarser last digit than the one [FormatFloat] picks
    reads back as the float: the digit string is the shortest. *)
Lemma shortest_minimal neg m e j p j' p' :
  validFinite m e -> shortest m e = (j, p) ->
  0 < j' -> p < p' ->
  floatOfScaled neg j' 10 p' <> S754_finite neg m e.
Proof.
  intros Hv Hs Hj' Hp' Hround.
  assert (He : -1074 <= e) by (destruct Hv as [[_ ?]|[_ ->]]; lia).
  destruct (shortest_spec m e j p He Hs) as (_ & _ & Hnone).
  unfold floatOfScaled in Hround.
  replace (j' <=? 0) with false in Hround by (symmetry; apply Z.leb_gt; lia).
  apply round_to_interval in Hround.
  - apply cand_in_interval in Hround.
    destruct (Z_le_gt_dec p' (shortestStart m e)) as [Hin|Hout].
    + specialize (Hnone p' ltac:(lia)). lia.
    + pose proof (no_candidate_above m e p' He ltac:(lia)). lia.
  - pose proof (pow10Num_pos p'). unfold pow10Num in *. nia.
  - apply pow10Den_pos.
Qed.

Lemma inRoundingInterval_scale m e num den k :
  0 < k -> inRoundingInterval m e (k * num) (k * den) = inRoundingInterval m e num den.
Proof.
  intros Hk. unfold inRoundingInterval.
  assert (HX : 0 < 2 ^ 1076) by (apply Z.pow_pos_nonneg; lia).
  remember (2 ^ 1076) as X eqn:EX. clear EX.
  remember (lowerMid m e) as lo eqn:Elo. clear Elo.
  remember (upperMid m e) as hi eqn:Ehi. clear Ehi.
  replace (lo * (k * den)) with (k * (lo * den)) by ring.
  replace (hi * (k * den)) with (k * (hi * den)) by ring.
  replace (k * num * X) with (k * (num * X)) by ring.
  remember (lo * den) as a eqn:Ea. clear Ea.
  remember (hi * den) as b eqn:Eb. clear Eb.
  remember (num * X) as v eqn:Ev. clear Ev.
  destruct (Z.even (Z.pos m)); apply eq_true_iff_eq;
    rewrite !andb_true_iff, ?Z.leb_le, ?Z.ltb_lt; nia.
Qed.

(** The digit string does not end in a zero. *)
Lemma shortest_no_trailing_zero m e j p :
  validFinite m e -> shortest m e = (j, p) -> j mod 10 <> 0.
Proof.
  intros Hv Hs Hmod.
  assert (He : -1074 <= e) by (destruct Hv as [[_ ?]|[_ ->]]; lia).
  destruct (shortest_spec m e j p He Hs) as (Hj & Hc & _).
  pose proof (Z.div_mod j 10 ltac:(lia)) as Hdm. rewrite Hmod in Hdm.
  set (k := j / 10) in *. assert (Hk : 0 < k) by lia.
  apply (shortest_minimal false m e j p k (p + 1) Hv Hs Hk ltac:(lia)).
  unfold floatOfScaled. replace (k <=? 0) with false by (symmetry; apply Z.leb_gt; lia).
  pose proof (pow10Num_pos (p + 1)) as Hn. pose proof (pow10Den_pos (p + 1)) as Hd.
  apply round_of_interval; try done.
  - unfold pow10Num in Hn. nia.
  - apply cand_in_interval in Hc.
    fold (pow10Num (p + 1)). fold (pow10Den (p + 1)).
    rewrite <- Hc. replace j with (10 * k) by lia.
    unfold pow10Num, pow10Den. destruct (Z_le_gt_dec 0 p) as [Hp|Hp].
    + rewrite (Z.max_l (p + 1) 0), (Z.max_r (- (p + 1)) 0), (Z.max_l p 0), (Z.max_r (- p) 0)
        by lia.
      rewrite Z.pow_add_r by lia. change (10 ^ 1) with 10.
      f_equal. ring.
    + rewrite (Z.max_r (p + 1) 0), (Z.max_l (- (p + 1)) 0), (Z.max_r p 0), (Z.max_l (- p) 0)
        by lia.
      replace (- p) with (1 + - (p + 1)) by lia.
      rewrite Z.pow_add_r by lia. change (10 ^ 1) with 10. rewrite Z.pow_0_r.
      rewrite <- (inRoundingInterval_scale m e (k * 1) (10 ^ (- (p + 1))) 10) by lia.
      f_equal; ring.
Qed.

(** ** Resource limits *)

(** C6.  For every configuration, the flag list holds no [--time] flag
    when the CPU time limit is zero, no [--wall-time] flag when the wall
    time limit is zero and no [--cg-mem] flag when the memory limit is zero;
    a limit that is not zero gives exactly one flag, [--time=] or
    [--wall-time=] followed by [FormatFloat] of the limit, [--cg-mem=]
    followed by [Itoa] of the limit, and there is never a basic [--mem]
    flag.  What [FormatFloat] writes round-trips: [ParseFloat] reads it
    back as the same [float64].  For a finite limit it is the layout [fmtF]
    of the digits of a [j * 10^p] that rounds to the limit, [j] does not end
    in a zero, and no decimal with a coarser last digit rounds to the limit:
    the representation is minimal.  So 1.5 is written [1.5], although
    [1.50] and [1.500000] denote the same [float64].  What [Itoa] writes is
    the plain decimal numeral that [Atoi] reads back. *)
Theorem limits_are_rendered_minimally b c metaFile seed :
  let res := fst (buildRunFlags b c metaFile seed) in
  flagsWithPrefix "--time" res
    = (if isZero (TimeLimit c) then [] else ["--time=" +:+ FormatFloat (TimeLimit c)])
  /\ flagsWithPrefix "--wall-time" res
    = (if isZero (WallTimeLimit c) then []
       else ["--wall-time=" +:+ FormatFloat (WallTimeLimit c)])
  /\ flagsWithPrefix "--cg-mem" res
    = (if MemoryLimit c =? 0 then [] else ["--cg-mem=" +:+ Itoa (MemoryLimit c)])
  /\ flagsWithPrefix "--mem" res = []
  /\ (forall f, valid_binary 53 1024 f = true -> ParseFloat (FormatFloat f) = (f, None))
  /\ (forall neg m e,
        valid_binary 53 1024 (S754_finite neg m e) = true ->
        exists j p,
          FormatFloat (S754_finite neg m e) = fmtF neg (Itoa j) (strlen (Itoa j) + p)
          /\ 0 < j /\ j mod 10 <> 0
          /\ floatOfScaled neg j 10 p = S754_finite neg m e
          /\ forall j' p', 0 < j' -> p < p' ->
               floatOfScaled neg j' 10 p' <> S754_finite neg m e)
  /\ FormatFloat float_1_5 = "1.5"
  /\ ParseFloat "1.50" = (float_1_5, None)
  /\ ParseFloat "1.500000" = (float_1_5, None)
  /\ (forall n, minInt64 <= n <= maxInt64 ->
        Atoi (Itoa n) = (n, None)
        /\ Itoa n = (if n <? 0 then "-" else "") +:+ Itoa (Z.abs n)
        /\ allDigits (Itoa (Z.abs n)) = true).
Proof.
  cbv zeta.
  rewrite time_flags_filter, wall_time_flags_filter, memory_flags_filter,
    basic_memory_flags_filter.
  do 4 (split; [reflexivity|]).
  split; [apply ParseFloat_FormatFloat|].
  split.
  { intros neg m e Hvalid. apply valid_binary_validFinite in Hvalid.
    destruct (shortest m e) as [j p] eqn:Hs. exists j, p.
    destruct (shortest_round_trip neg m e j p Hvalid Hs) as [Hj Hround].
    split; [unfold FormatFloat; by rewrite Hs|]. split; [done|].
    split; [by apply (shortest_no_trailing_zero m e j p)|]. split; [done|].
    intros j' p'. by apply (shortest_minimal neg m e j p). }
  split; [by vm_compute|]. split; [by vm_compute|]. split; [by vm_compute|].
  intros n Hn. split; [by apply Atoi_Itoa|].
  destruct (Z.ltb_spec n 0) as [Hneg|Hpos].
  - rewrite Z.abs_neq by lia. split; [by apply Itoa_neg|].
    by destruct (Itoa_nonneg (- n) ltac:(lia)) as (? & _).
  - rewrite Z.abs_eq by lia. split; [reflexivity|].
    by destruct (Itoa_nonneg n Hpos) as (? & _).
Qed.

Lemma limits_are_rendered_minimally_witness :
  flagsWithPrefix "--time" (fst (buildRunFlags box50 limitsConfig None [])) = ["--time=1.5"]
  /\ flagsWithPrefix "--wall-time" (fst (buildRunFlags box50 limitsConfig None []))
     = ["--wall-time=3"]
  /\ flagsWithPrefix "--cg-mem" (fst (buildRunFlags box50 limitsConfig None []))
     = ["--cg-mem=1048576"]
  /\ flagsWithPrefix "--time" (fst (buildRunFlags box50 zeroConfig None [])) = []
  /\ ParseFloat "1.5" = (float_1_5, None)
  /\ Atoi "1048576" = (1048576, None).
Proof.
  destruct (limits_are_rendered_minimally box50 limitsConfig None [])
    as (Ht & Hw & Hm & _ & Hrt & _ & _ & _ & _ & Hint).
  destruct (limits_are_rendered_minimally box50 zeroConfig None []) as (Hz & _).
  split; [exact Ht|]. split; [exact Hw|]. split; [exact Hm|]. split; [exact Hz|].
  split; [exact (Hrt float_1_5 eq_refl)|].
  destruct (Hint 1048576) as (Hatoi & _); [vm_compute; split; discriminate|exact Hatoi].
Defined.

(* ===================================================================== *)
(** * Part III: further properties of the package *)
(* ===================================================================== *)
(** ** Further properties of the runner *)

Lemma attempt_defaultStdio w b command conf i :
  attempt w b command (defaultStdio conf) i = attempt w b command conf i.
Proof.
  unfold attempt. destruct (w_createTemp w i); [done|].
  by rewrite buildRunFlags_defaultStdio.
Qed.

Lemma runLoop_error_nil w b command n :
  forall i meta conf temps,
    snd (fst (fst (runLoop w b command n i meta conf temps))) = None.
Proof.
  induction n as [|n IH]; intros i meta conf temps; [done|].
  cbn [runLoop]. destruct (w_createTemp w i) as [e|name].
  - specialize (IH (S i) meta conf temps).
    by destruct (runLoop w b command n (S i) meta conf temps) as [[[r err] conf'] tr].
  - destruct (buildRunFlags b conf (Some name) (w_rangeSeed w i)) as [flags conf1].
    destruct (runCommand w i (flags ++ command) name) as [[meta1 err1] tr1].
    specialize (IH (S i) meta1 conf1 (name :: temps)).
    destruct (runLoop w b command n (S i) meta1 conf1 (name :: temps))
      as [[[r err] conf'] tr].
    destruct (usable meta1 err1) eqn:Hu; [destruct (textFileBusy meta1)|]; try done.
    cbn. destruct err1; [by destruct meta1|done].
Qed.

(** X1.  [RunCommand] never returns an error: on a command that is not
    empty the error of the pair it returns is nil, whatever isolate, the
    file system and the decoder do; an error of a run is only ever seen as
    a nil report.  On the empty command there is no pair: the call
    panics. *)
Theorem RunCommand_error_is_always_nil w b command conf :
  match fst (fst (RunCommand w b command conf)) with
  | Panics => command = []
  | Returns (_, err) => err = None /\ command <> []
  end.
Proof.
  unfold RunCommand. destruct command as [|c0 rest]; [done|].
  cbn [lookup list_lookup].
  pose proof (runLoop_error_nil w b (c0 :: rest) runErrRetries 1 None conf []) as H.
  destruct (runLoop w b (c0 :: rest) runErrRetries 1 None conf []) as [[[r err] conf'] tr].
  cbn in *. by subst.
Qed.

(** The loop returns the first accepted report: [k] turns that are not
    accepted, then one that is. *)
Lemma runLoop_first_accepted w b command meta err trj k :
  forall n i meta0 conf temps,
    (k < n)%nat ->
    (forall i', (i <= i' < i + k)%nat ->
       exists m e t, attempt w b command conf i' = Some (m, e, t) /\ accepted m e = false) ->
    attempt w b command conf (i + k) = Some (meta, err, trj) ->
    accepted meta err = true ->
    exists tr,
      runLoop w b command n i meta0 conf temps = (meta, None, defaultStdio conf, tr)
      /\ execCount tr = S k
      /\ sleeps tr = replicate k runErrTimeout
      /\ sleepFollowsEveryExec false tr = false.
Proof.
  induction k as [|k IH]; intros n i meta0 conf temps Hn Hbefore Hlast Hacc.
  - destruct n as [|n]; [lia|]. rewrite Nat.add_0_r in Hlast.
    unfold attempt in Hlast. destruct (w_createTemp w i) as [|name] eqn:Ht; [done|].
    apply (inj Some) in Hlast.
    rewrite (runLoop_accepted _ _ _ _ _ _ _ _ _ _ _ _ Ht Hlast Hacc).
    eexists. split; [reflexivity|].
    apply runCommand_trace in Hlast as (log & tl & -> & Hc & Hs & Hf).
    cbn [app execCount sleeps sleepFollowsEveryExec negb andb].
    rewrite <- !app_assoc.
    rewrite !execCount_app, !sleeps_app, execCount_logs, sleeps_logs, Hc, Hs.
    rewrite sleepFollows_logs, Hf.
    change (EvRemove name :: map EvRemove temps) with (map EvRemove (name :: temps)).
    by rewrite execCount_removes, sleeps_removes, sleepFollows_removes.
  - destruct n as [|n]; [lia|].
    destruct (Hbefore i ltac:(lia)) as (m & e & t & Ha & Hna).
    unfold attempt in Ha. destruct (w_createTemp w i) as [|name] eqn:Ht; [done|].
    apply (inj Some) in Ha.
    rewrite (runLoop_not_accepted _ _ _ _ _ _ _ _ _ _ _ _ Ht Ha Hna).
    destruct (IH n (S i) m (defaultStdio conf) (name :: temps)) as (tr & Hrun & Hc & Hs & Hf).
    + lia.
    + intros i' Hi'. rewrite attempt_defaultStdio. apply Hbefore. lia.
    + rewrite attempt_defaultStdio. by replace (S i + k)%nat with (i + S k)%nat by lia.
    + done.
    + rewrite Hrun, defaultStdio_idem. eexists. split; [reflexivity|].
      apply runCommand_trace in Ha as (log & tl & -> & Hc1 & Hs1 & Hf1).
      assert (Hwarn : exists wl,
                (if usable m e then []
                 else if (1 <? i)%nat
                      then [EvLog (LogRunRetry (boxID b) i runErrRetries)] else [])
                = map EvLog wl).
      { destruct (usable m e); [by exists []|].
        destruct (1 <? i)%nat; [by eexists [_]|by exists []]. }
      destruct Hwarn as [wl ->].
      destruct (turn_trace i (fst (buildRunFlags b conf (Some name) (w_rangeSeed w i)) ++ command)
                  log tl wl runErrTimeout tr Hc1 Hs1 Hf1) as (-> & -> & ->).
      rewrite Hc, Hs, Hf. done.
Qed.

(** X2.  The first accepted report ends the call.  When attempt [j] is the
    first of the three whose report is accepted (the attempts before it got
    their report file and were not accepted), [RunCommand] returns that
    report with a nil error after exactly [j] spawns and [j - 1] sleeps of
    [runErrTimeout]; the accepted attempt is not followed by a sleep. *)
Theorem first_accepted_report_is_returned w b command conf j meta err trj :
  command <> [] ->
  (1 <= j <= 3)%nat ->
  (forall i, (1 <= i < j)%nat ->
     exists m e t, attempt w b command conf i = Some (m, e, t) /\ accepted m e = false) ->
  attempt w b command conf j = Some (meta, err, trj) ->
  accepted meta err = true ->
  exists tr,
    RunCommand w b command conf = (Returns (meta, None), defaultStdio conf, tr)
    /\ execCount tr = j
    /\ sleeps tr = replicate (j - 1) runErrTimeout.
Proof.
  intros Hcmd Hj Hbefore Hlast Hacc.
  destruct command as [|c0 rest]; [done|]. clear Hcmd.
  destruct (runLoop_first_accepted w b (c0 :: rest) meta err trj (j - 1)
              runErrRetries 1 None conf []) as (tr & Hrun & Hc & Hs & _).
  - unfold runErrRetries. lia.
  - intros i' Hi'. apply Hbefore. lia.
  - by replace (1 + (j - 1))%nat with j by lia.
  - done.
  - unfold RunCommand. cbn [lookup list_lookup]. rewrite Hrun.
    eexists. split; [reflexivity|].
    destruct (checkExecutable_trace w b c0 tr) as (-> & -> & _).
    split; [lia|done].
Qed.

Lemma first_accepted_report_is_returned_witness :
  exists meta tr,
    RunCommand busyOnceWorld box50 ["/box/prog"] zeroConfig
      = (Returns (Some meta, None), defaultStdio zeroConfig, tr)
    /\ Status meta = "OK"
    /\ execCount tr = 2%nat /\ sleeps tr = [runErrTimeout].
Proof.
  destruct (first_accepted_report_is_returned busyOnceWorld box50 ["/box/prog"] zeroConfig 2
              (Some (setExitCode 0 (setStatus "OK" (setTime float_0_042 zeroRunStats))))
              None
              (snd (runCommand busyOnceWorld 2
                      (fst (buildRunFlags box50 zeroConfig (Some "/tmp/sandbox-meta-2") [])
                       ++ ["/box/prog"]) "/tmp/sandbox-meta-2")))
    as (tr & Hrun & Hc & Hs).
  - discriminate.
  - lia.
  - intros i Hi. assert (i = 1%nat) as -> by lia. vm_compute. eauto.
  - vm_compute. reflexivity.
  - reflexivity.
  - eexists _, tr. split; [exact Hrun|]. split; [reflexivity|]. split; [exact Hc|exact Hs].
Defined.

(** Turns in which no report file can be created do nothing but log. *)
Lemma runLoop_no_temp w b command n :
  forall i meta conf temps,
    (forall i', (i <= i' < i + n)%nat -> exists e, w_createTemp w i' = inl e) ->
    exists tr,
      runLoop w b command n i meta conf temps = (meta, None, conf, tr)
      /\ execCount tr = 0%nat /\ sleeps tr = [] /\ createdTemps w tr = [].
Proof.
  induction n as [|n IH]; intros i meta conf temps Hfail.
  - eexists. split; [reflexivity|]. cbn.
    rewrite execCount_removes, sleeps_removes. split; [done|]. split; [done|].
    by induction temps.
  - cbn [runLoop]. destruct (Hfail i ltac:(lia)) as [e He]. rewrite He.
    destruct (IH (S i) meta conf temps) as (tr & -> & Hc & Hs & Ht).
    { intros i' Hi'. apply Hfail. lia. }
    eexists. split; [reflexivity|]. cbn. by rewrite He.
Qed.

(** X3.  When [os.CreateTemp] fails at each of the three attempts,
    [RunCommand] returns a nil report and a nil error without spawning
    isolate and without sleeping, and the configuration is left as the
    caller passed it. *)
Theorem no_report_file_means_no_run w b command conf :
  command <> [] ->
  (forall i, (1 <= i <= 3)%nat -> exists e, w_createTemp w i = inl e) ->
  exists tr,
    RunCommand w b command conf = (Returns (None, None), conf, tr)
    /\ execCount tr = 0%nat
    /\ sleeps tr = [].
Proof.
  intros Hcmd Hfail. destruct command as [|c0 rest]; [done|]. clear Hcmd.
  destruct (runLoop_no_temp w b (c0 :: rest) runErrRetries 1 None conf [])
    as (tr & Hrun & Hc & Hs & _).
  { intros i' Hi'. apply Hfail. unfold runErrRetries in Hi'. lia. }
  unfold RunCommand. cbn [lookup list_lookup]. rewrite Hrun.
  eexists. split; [reflexivity|].
  by destruct (checkExecutable_trace w b c0 tr) as (-> & -> & _).
Qed.

Lemma no_report_file_means_no_run_witness :
  RunCommand noTempWorld box50 ["/box/prog"] limitsConfig
  = (Returns (None, None), limitsConfig,
     [EvStat "/var/local/lib/isolate/50/box" "/box/prog";
      EvCreateTemp 1; EvLog (LogTempFileFailed "no space left on device");
      EvCreateTemp 2; EvLog (LogTempFileFailed "no space left on device");
      EvCreateTemp 3; EvLog (LogTempFileFailed "no space left on device")]).
Proof.
  destruct (no_report_file_means_no_run noTempWorld box50 ["/box/prog"] limitsConfig)
    as (tr & Hrun & _).
  - discriminate.
  - intros i _. by eexists.
  - rewrite Hrun. f_equal. vm_compute in Hrun. by injection Hrun as <-.
Defined.

(** The sleeps of the loop: never more than the spawns, each of
    [runErrTimeout]. *)
Lemma runLoop_sleeps w b command n :
  forall i meta conf temps,
    let tr := snd (runLoop w b command n i meta conf temps) in
    exists k, sleeps tr = replicate k runErrTimeout /\ (k <= execCount tr <= n)%nat.
Proof.
  induction n as [|n IH]; intros i meta conf temps; cbv zeta.
  - exists 0%nat. cbn. by rewrite execCount_removes, sleeps_removes.
  - cbn [runLoop]. destruct (w_createTemp w i) as [e|name].
    + destruct (IH (S i) meta conf temps) as (k & Hs & Hk). cbv zeta in *.
      destruct (runLoop w b command n (S i) meta conf temps) as [[[r err] conf'] tr].
      cbn [snd] in *. exists k. cbn. split; [done|lia].
    + destruct (buildRunFlags b conf (Some name) (w_rangeSeed w i)) as [flags conf1].
      destruct (runCommand w i (flags ++ command) name) as [[meta1 err1] tr1] eqn:Hrun.
      apply runCommand_trace in Hrun as (log & tl & -> & Hc1 & Hs1 & Hf1).
      destruct (IH (S i) meta1 conf1 (name :: temps)) as (k & Hs & Hk). cbv zeta in *.
      destruct (runLoop w b command n (S i) meta1 conf1 (name :: temps))
        as [[[r err] conf'] tr].
      cbn [snd] in *.
      destruct (usable meta1 err1); [destruct (textFileBusy meta1)|]; cbn [snd].
      * destruct (turn_trace i (flags ++ command) log tl [] runErrTimeout tr Hc1 Hs1 Hf1)
          as (Hc' & Hs' & _).
        change (map EvLog [] ++ EvSleep runErrTimeout :: tr)
          with (EvSleep runErrTimeout :: tr) in Hc', Hs'.
        rewrite Hc', Hs', Hs. exists (S k). split; [done|lia].
      * exists 0%nat. cbn [app execCount sleeps]. rewrite <- !app_assoc.
        rewrite !execCount_app, !sleeps_app, execCount_logs, sleeps_logs, Hc1, Hs1.
        change (EvRemove name :: map EvRemove temps) with (map EvRemove (name :: temps)).
        rewrite execCount_removes, sleeps_removes. cbn. split; [done|lia].
      * assert (Hwarn : exists wl,
                  (if (1 <? i)%nat
                   then [EvLog (LogRunRetry (boxID b) i runErrRetries)] else [])
                  = map EvLog wl).
        { destruct (1 <? i)%nat; [by eexists [_]|by exists []]. }
        destruct Hwarn as [wl ->].
        destruct (turn_trace i (flags ++ command) log tl wl runErrTimeout tr Hc1 Hs1 Hf1)
          as (Hc' & Hs' & _).
        rewrite Hc', Hs', Hs. exists (S k). split; [done|lia].
Qed.

(** X4.  Whatever happens, a call of [RunCommand] sleeps at most once per
    spawn and spawns at most three times; every sleep lasts
    [runErrTimeout], so the call never sleeps more than 600 ms in
    total. *)
Theorem sleeps_are_bounded w b command conf :
  let tr := snd (RunCommand w b command conf) in
  exists k,
    sleeps tr = replicate k runErrTimeout
    /\ (k <= execCount tr <= 3)%nat
    /\ fold_right Z.add 0 (sleeps tr) <= 600.
Proof.
  cbv zeta. unfold RunCommand.
  destruct (command !! 0%nat) as [c0|]; [|exists 0%nat; cbn; split; [done|lia]].
  destruct (runLoop_sleeps w b command runErrRetries 1 None conf []) as (k & Hs & Hk).
  cbv zeta in *.
  destruct (runLoop w b command runErrRetries 1 None conf []) as [[[r err] conf'] tr].
  cbn [snd] in *.
  destruct (checkExecutable_trace w b c0 tr) as (-> & -> & _).
  exists k. split; [done|]. split; [unfold runErrRetries in Hk; lia|].
  rewrite Hs. unfold runErrRetries in Hk.
  assert (Hk3 : (k <= 3)%nat) by lia.
  destruct k as [|[|[|[|k]]]]; cbn; unfold runErrTimeout; lia.
Qed.

Lemma execArgs_app tr1 tr2 : execArgs (tr1 ++ tr2) = execArgs tr1 ++ execArgs tr2.
Proof.
  induction tr1 as [|ev tr1 IH]; [reflexivity|].
  destruct ev; cbn; by rewrite ?IH.
Qed.

Lemma execArgs_logs log : execArgs (map EvLog log) = [].
Proof. induction log; [reflexivity|done]. Qed.

Lemma execArgs_removes temps : execArgs (map EvRemove temps) = [].
Proof. induction temps; [reflexivity|done]. Qed.

Lemma createdTemps_app w tr1 tr2 :
  createdTemps w (tr1 ++ tr2) = createdTemps w tr1 ++ createdTemps w tr2.
Proof.
  induction tr1 as [|ev tr1 IH]; [reflexivity|].
  destruct ev as [m|root p|i|args|ms|name|name|]; cbn; rewrite ?IH; try done.
  by destruct (w_createTemp w i).
Qed.

Lemma createdTemps_logs w log : createdTemps w (map EvLog log) = [].
Proof. induction log; [reflexivity|done]. Qed.

Lemma createdTemps_removes w temps : createdTemps w (map EvRemove temps) = [].
Proof. induction temps; [reflexivity|done]. Qed.

(** What one call of [runCommand] leaves in the trace: one spawn with the
    given arguments, and no new report file. *)
Lemma runCommand_events w i params name :
  execArgs (snd (runCommand w i params name)) = [params]
  /\ createdTemps w (snd (runCommand w i params name)) = [].
Proof.
  unfold runCommand. destruct (w_isolate w i params) as [e|ee out text]; [done|].
  destruct (parseMetaFile (Some text) out) as [stats log]. cbn [snd].
  cbn [app execArgs createdTemps].
  by rewrite execArgs_app, createdTemps_app, execArgs_logs, createdTemps_logs.
Qed.

Lemma runLoop_execArgs w b command n :
  forall i meta conf temps,
    Forall (fun args =>
              exists i' name,
                (i <= i' < i + n)%nat
                /\ w_createTemp w i' = inr name
                /\ args = fst (buildRunFlags b conf (Some name) (w_rangeSeed w i')) ++ command)
           (execArgs (snd (runLoop w b command n i meta conf temps))).
Proof.
  induction n as [|n IH]; intros i meta conf temps.
  - cbn. by rewrite execArgs_removes.
  - cbn [runLoop]. destruct (w_createTemp w i) as [e|name] eqn:Ht.
    + specialize (IH (S i) meta conf temps).
      destruct (runLoop w b command n (S i) meta conf temps) as [[[r err] conf'] tr].
      cbn [snd execArgs] in *. eapply Forall_impl; [exact IH|].
      intros args (i' & name & Hi & Hn & ->). exists i', name. split; [lia|done].
    + rewrite buildRunFlags_shape.
      set (flags := fixedHead b ++ _).
      assert (Hflags : flags = fst (buildRunFlags b conf (Some name) (w_rangeSeed w i)))
        by by rewrite buildRunFlags_shape.
      pose proof (runCommand_events w i (flags ++ command) name) as [Hargs _].
      destruct (runCommand w i (flags ++ command) name) as [[meta1 err1] tr1].
      cbn [snd] in Hargs.
      specialize (IH (S i) meta1 (defaultStdio conf) (name :: temps)).
      destruct (runLoop w b command n (S i) meta1 (defaultStdio conf) (name :: temps))
        as [[[r err] conf'] tr].
      cbn [snd] in IH.
      assert (Hhere : exists i' name0,
                (i <= i' < i + S n)%nat /\ w_createTemp w i' = inr name0
                /\ flags ++ command
                   = fst (buildRunFlags b conf (Some name0) (w_rangeSeed w i')) ++ command).
      { exists i, name. split; [lia|]. split; [done|by rewrite Hflags]. }
      assert (Hrest : Forall (fun args =>
                exists i' name0,
                  (i <= i' < i + S n)%nat /\ w_createTemp w i' = inr name0
                  /\ args = fst (buildRunFlags b conf (Some name0) (w_rangeSeed w i')) ++ command)
                (execArgs tr)).
      { eapply Forall_impl; [exact IH|].
        intros args (i' & name0 & Hi & Hn & ->). exists i', name0.
        split; [lia|]. split; [done|]. by rewrite buildRunFlags_defaultStdio. }
      destruct (usable meta1 err1); [destruct (textFileBusy meta1)|]; cbn [snd execArgs].
      * rewrite execArgs_app, Hargs. cbn [app execArgs]. by constructor.
      * rewrite execArgs_app, Hargs.
        change (EvRemove name :: map EvRemove temps) with (map EvRemove (name :: temps)).
        rewrite execArgs_removes. cbn [app]. by constructor.
      * rewrite !execArgs_app, Hargs. cbn [app].
        destruct (1 <? i)%nat; cbn [execArgs app]; by constructor.
Qed.

(** X5.  Every spawn of a call of [RunCommand] gets the arguments
    [buildRunFlags(conf, metaFile)] followed by the command, for the report
    file of one of the three attempts: the flags are those of the
    configuration as the caller passed it, also in the attempts that see
    the configuration with the defaults written back, and the command
    follows them unchanged. *)
Theorem every_spawn_runs_the_command w b command conf :
  Forall (fun args =>
            exists i name,
              (1 <= i <= 3)%nat
              /\ w_createTemp w i = inr name
              /\ args = fst (buildRunFlags b conf (Some name) (w_rangeSeed w i)) ++ command)
         (execArgs (snd (RunCommand w b command conf))).
Proof.
  unfold RunCommand. destruct (command !! 0%nat) as [c0|]; [|by constructor].
  pose proof (runLoop_execArgs w b command runErrRetries 1 None conf []) as H.
  destruct (runLoop w b command runErrRetries 1 None conf []) as [[[r err] conf'] tr].
  cbn [snd] in *. rewrite execArgs_app.
  assert (Hpre : execArgs (checkExecutable w b c0) = []).
  { unfold checkExecutable. destruct (GoStrings.HasPrefix c0 "/box"); [|done].
    by destruct (w_stat w (path b) c0). }
  rewrite Hpre. cbn [app]. eapply Forall_impl; [exact H|].
  intros args (i & name & Hi & Hn & ->). exists i, name.
  unfold runErrRetries in Hi. split; [lia|done].
Qed.

Lemma runLoop_cleanup w b command n :
  forall i meta conf temps,
    exists tr0,
      snd (runLoop w b command n i meta conf temps)
      = tr0 ++ map EvRemove (rev (createdTemps w tr0) ++ temps).
Proof.
  induction n as [|n IH]; intros i meta conf temps.
  - by exists [].
  - cbn [runLoop]. destruct (w_createTemp w i) as [e|name] eqn:Ht.
    + destruct (IH (S i) meta conf temps) as [tr0 Htr].
      destruct (runLoop w b command n (S i) meta conf temps) as [[[r err] conf'] tr].
      cbn [snd] in *. exists (EvCreateTemp i :: EvLog (LogTempFileFailed e) :: tr0).
      cbn [createdTemps]. rewrite Ht, Htr. done.
    + destruct (buildRunFlags b conf (Some name) (w_rangeSeed w i)) as [flags conf1].
      pose proof (runCommand_events w i (flags ++ command) name) as [_ Hnone].
      destruct (runCommand w i (flags ++ command) name) as [[meta1 err1] tr1].
      cbn [snd] in Hnone.
      destruct (IH (S i) meta1 conf1 (name :: temps)) as [tr0 Htr].
      destruct (runLoop w b command n (S i) meta1 conf1 (name :: temps))
        as [[[r err] conf'] tr].
      cbn [snd] in Htr.
      destruct (usable meta1 err1); [destruct (textFileBusy meta1)|]; cbn [snd].
      * exists (EvCreateTemp i :: tr1 ++ EvSleep runErrTimeout :: tr0).
        cbn [createdTemps]. rewrite Ht, createdTemps_app, Hnone. cbn [app createdTemps rev].
        rewrite Htr, <- !app_assoc. done.
      * exists (EvCreateTemp i :: tr1).
        cbn [createdTemps]. rewrite Ht, Hnone. done.
      * set (warn := if (1 <? i)%nat then _ else _).
        exists (EvCreateTemp i :: tr1 ++ warn ++ EvSleep runErrTimeout :: tr0).
        assert (Hwarn : createdTemps w warn = []) by (subst warn; by destruct (1 <? i)%nat).
        cbn [createdTemps]. rewrite Ht, !createdTemps_app, Hnone, Hwarn.
        cbn [app createdTemps rev].
        rewrite Htr, <- !app_assoc. done.
Qed.

(** X6.  When [RunCommand] returns, every report file it created has been
    removed: the trace ends with the deferred removals of the files
    created, the latest first. *)
Theorem report_files_are_removed w b command conf :
  let tr := snd (RunCommand w b command conf) in
  (exists tr0, tr = tr0 ++ map EvRemove (rev (createdTemps w tr)))
  /\ forall name, name ∈ createdTemps w tr -> EvRemove name ∈ tr.
Proof.
  cbv zeta.
  assert (Hsuffix : exists tr0,
            snd (RunCommand w b command conf)
            = tr0 ++ map EvRemove (rev (createdTemps w (snd (RunCommand w b command conf))))).
  { unfold RunCommand. destruct (command !! 0%nat) as [c0|]; [|by exists []].
    destruct (runLoop_cleanup w b command runErrRetries 1 None conf []) as [tr0 Htr].
    destruct (runLoop w b command runErrRetries 1 None conf []) as [[[r err] conf'] tr].
    cbn [snd] in *. exists (checkExecutable w b c0 ++ tr0).
    assert (Hpre : createdTemps w (checkExecutable w b c0) = []).
    { unfold checkExecutable. destruct (GoStrings.HasPrefix c0 "/box"); [|done].
      by destruct (w_stat w (path b) c0). }
    rewrite createdTemps_app, Hpre. cbn [app].
    rewrite Htr at 1. rewrite Htr at 1.
    rewrite createdTemps_app, createdTemps_removes, !app_nil_r, <- app_assoc. done. }
  split; [exact Hsuffix|].
  destruct Hsuffix as [tr0 Htr]. intros name Hin. rewrite Htr.
  apply list_elem_of_In, in_or_app. right. apply in_map. rewrite <- in_rev.
  by apply list_elem_of_In.
Qed.

(** ** Further properties of the flag builder *)

Lemma isOption_dirFlag dir : isOption (dirFlag dir) = true.
Proof. rewrite dirFlag_shape. reflexivity. Qed.

Lemma isOption_envFlags c seed : Forall (fun flag => isOption flag = true) (envFlags c seed).
Proof.
  unfold envFlags. repeat apply Forall_app_2.
  - destruct (InheritEnv c); by repeat constructor.
  - apply Forall_forall. intros flag Hin. apply list_elem_of_In, in_map_iff in Hin.
    by destruct Hin as (x & <- & _).
  - apply Forall_forall. intros flag Hin. apply list_elem_of_In, in_map_iff in Hin.
    by destruct Hin as (x & <- & _).
Qed.

(** X7.  The flag list ends with the terminator [--], and every element
    before it is an option: it starts with two dashes and is not the
    terminator.  So whatever strings the configuration holds, the first
    bare [--] of the arguments is the last flag and the command starts
    right after it. *)
Theorem flag_list_ends_with_the_only_terminator b c metaFile seed :
  exists front,
    fst (buildRunFlags b c metaFile seed) = front ++ ["--"]
    /\ Forall (fun flag => isOption flag = true) front.
Proof.
  rewrite buildRunFlags_shape. cbn [fst]. unfold flagsTail.
  exists (fixedHead b ++ map dirFlag (Directories c) ++ envFlags c seed
          ++ limitFlags c ++ stdioFlags c
          ++ match metaFile with Some name => ["--meta=" +:+ name] | None => [] end
          ++ ["--silent"; "--run"]).
  split.
  - rewrite <- !app_assoc. reflexivity.
  - apply Forall_app_2; [by repeat constructor|].
    apply Forall_app_2.
    { apply Forall_forall. intros flag Hin. apply list_elem_of_In, in_map_iff in Hin.
      destruct Hin as (dir & <- & _). apply isOption_dirFlag. }
    apply Forall_app_2; [apply isOption_envFlags|].
    apply Forall_app_2.
    { unfold limitFlags. repeat apply Forall_app_2;
        match goal with |- context [if ?x then _ else _] => destruct x end;
        by repeat constructor. }
    apply Forall_app_2.
    { unfold stdioFlags. cbv zeta. apply Forall_app_2; [by repeat constructor|].
      destruct (StderrToStdout c); by repeat constructor. }
    apply Forall_app_2; [destruct metaFile; by repeat constructor|].
    by repeat constructor.
Qed.

(** X8.  The write-back of the defaults does not change the flags:
    building the flags from the configuration that an earlier call left
    behind gives the same flag list and the same configuration as building
    them from the original one. *)
Theorem flags_survive_the_write_back b c metaFile1 seed1 metaFile2 seed2 :
  buildRunFlags b (snd (buildRunFlags b c metaFile1 seed1)) metaFile2 seed2
  = buildRunFlags b c metaFile2 seed2.
Proof.
  rewrite (buildRunFlags_shape b c metaFile1). cbn [snd].
  apply buildRunFlags_defaultStdio.
Qed.

(** ** Further properties of the decoder *)

(** One line: each field takes the value of the line when the line has the
    key of the field, and keeps its own otherwise. *)
Lemma parseLine_fields file line :
  let r := fst (parseLine file line) in
  Memory r = from_option (fun v => fst (Atoi v)) (Memory file) (lineValue "cg-mem" line)
  /\ ExitCode r = from_option (fun v => fst (Atoi v)) (ExitCode file) (lineValue "exitcode" line)
  /\ ExitSignal r
     = from_option (fun v => fst (Atoi v)) (ExitSignal file) (lineValue "exitsig" line)
  /\ Killed r = from_option (fun _ => true) (Killed file) (lineValue "killed" line)
  /\ Message r = from_option id (Message file) (lineValue "message" line)
  /\ Status r = from_option id (Status file) (lineValue "status" line)
  /\ Time r = from_option (fun v => fst (ParseFloat v)) (Time file) (lineValue "time" line)
  /\ InternalMessage r = InternalMessage file.
Proof.
  unfold parseLine, lineValue. destruct (GoStrings.Cut line ":") as [[k val] found].
  destruct found; [|done]. cbn [negb andb]. unfold parseField.
  repeat match goal with
         | |- context [String.eqb k ?lit] =>
             lazymatch lit with
             | k => fail
             | _ => destruct (String.eqb_spec k lit) as [->|_]; [done|]
             end
         end.
  by destruct (existsb (String.eqb k) ignoredKeys).
Qed.

(** X9.  Every field of the decoded report is decided by the last line
    with the key of the field, among the lines the scanner delivers: the
    integer fields and the time are what [strconv] reads in the value of
    that line, the message and the status are that value as it stands,
    [Killed] is true exactly when some line has the key [killed] (whatever
    its value), and a field without a line has its zero value.
    [InternalMessage] is the output of isolate. *)
Theorem fields_come_from_the_last_line_of_their_key text out :
  exists r log,
    parseMetaFile (Some text) out = (Some r, log)
    /\ let lines := GoBufio.scanLines text in
       Memory r = from_option (fun v => fst (Atoi v)) 0 (lastValue "cg-mem" lines)
       /\ ExitCode r = from_option (fun v => fst (Atoi v)) 0 (lastValue "exitcode" lines)
       /\ ExitSignal r = from_option (fun v => fst (Atoi v)) 0 (lastValue "exitsig" lines)
       /\ Killed r = from_option (fun _ => true) false (lastValue "killed" lines)
       /\ Message r = from_option id "" (lastValue "message" lines)
       /\ Status r = from_option id "" (lastValue "status" lines)
       /\ Time r
          = from_option (fun v => fst (ParseFloat v)) float64Zero (lastValue "time" lines)
       /\ InternalMessage r = out.
Proof.
  unfold parseMetaFile.
  assert (Hall : forall lines file,
    let r := fst (parseLines file lines) in
    Memory r = from_option (fun v => fst (Atoi v)) (Memory file) (lastValue "cg-mem" lines)
    /\ ExitCode r
       = from_option (fun v => fst (Atoi v)) (ExitCode file) (lastValue "exitcode" lines)
    /\ ExitSignal r
       = from_option (fun v => fst (Atoi v)) (ExitSignal file) (lastValue "exitsig" lines)
    /\ Killed r = from_option (fun _ => true) (Killed file) (lastValue "killed" lines)
    /\ Message r = from_option id (Message file) (lastValue "message" lines)
    /\ Status r = from_option id (Status file) (lastValue "status" lines)
    /\ Time r
       = from_option (fun v => fst (ParseFloat v)) (Time file) (lastValue "time" lines)
    /\ InternalMessage r = InternalMessage file).
  { induction lines as [|line lines IH]; intros file; [done|].
    cbn [parseLines lastValue].
    pose proof (parseLine_fields file line) as Hone.
    destruct (parseLine file line) as [file' log1]. cbn [fst] in Hone.
    specialize (IH file'). destruct (parseLines file' lines) as [file'' log2].
    cbn [fst] in *. cbv zeta in *.
    destruct IH as (-> & -> & -> & -> & -> & -> & -> & ->).
    destruct Hone as (-> & -> & -> & -> & -> & -> & -> & ->).
    repeat split;
      match goal with |- context [lastValue ?k lines] => by destruct (lastValue k lines) end. }
  specialize (Hall (GoBufio.scanLines text) (setInternalMessage out zeroRunStats)).
  destruct (parseLines _ _) as [r log]. exists r, log. split; [done|]. exact Hall.
Qed.

(** Past the 64-bit range the loop gives up with the largest value. *)
Lemma parseUintLoop_overflow s :
  forall n,
    allDigits s = true -> 0 <= n <= maxUint64 -> maxUint64 < digitsValue s n ->
    parseUintLoop s n = (maxUint64, Some ErrRange).
Proof.
  induction s as [|c s IH]; intros n Hd Hn Hbig.
  - cbn in Hbig. lia.
  - cbn [allDigits] in Hd. apply andb_true_iff in Hd as [Hc Hd].
    cbn [parseUintLoop digitsValue] in *. rewrite Hc.
    destruct (1844674407370955162 <=? n); [done|]. cbv zeta.
    destruct (Z.ltb_spec maxUint64 (n * 10 + (byte c - 48))) as [|Hle]; [done|].
    apply IH; [done| |done]. apply isDigit_byte in Hc. lia.
Qed.

(** [Atoi] on a string of digits, with or without a sign: the number the
    digits denote, brought into the 64-bit range. *)
Lemma Atoi_digits s :
  allDigits s = true -> s <> "" ->
  Atoi s = (Z.min (digitsValue s 0) maxInt64,
            if digitsValue s 0 <=? maxInt64 then None else Some ErrRange)
  /\ Atoi (String "+" s) = Atoi s
  /\ Atoi (String "-" s) = (Z.max (- digitsValue s 0) minInt64,
                            if digitsValue s 0 <=? - minInt64 then None else Some ErrRange).
Proof.
  intros Hd Hne.
  assert (Hpos : 0 <= digitsValue s 0).
  { pose proof (digitsValue_between s 0 Hd). lia. }
  assert (Hloop : ParseUint s
                  = if digitsValue s 0 <=? maxUint64 then (digitsValue s 0, None)
                    else (maxUint64, Some ErrRange)).
  { unfold ParseUint. destruct s as [|c s']; [done|].
    destruct (Z.leb_spec (digitsValue (String c s') 0) maxUint64).
    - by apply parseUintLoop_digits.
    - apply parseUintLoop_overflow; [done|unfold maxUint64; lia|done]. }
  assert (Hfirst : exists c s', s = String c s' /\ isDigit c = true).
  { destruct s as [|c s']; [done|]. exists c, s'. split; [done|].
    cbn [allDigits] in Hd. by apply andb_true_iff in Hd as [? _]. }
  destruct Hfirst as (c & s' & Hs & Hc).
  destruct (digit_not_sign c Hc) as [Hplus Hminus].
  remember (digitsValue s 0) as V eqn:HV. clear HV Hd Hne.
  unfold Atoi, ParseInt, maxInt64, minInt64, maxUint64 in *.
  split; [|split].
  - subst s. cbv zeta. rewrite Hplus, Hminus. cbn [orb negb andb]. rewrite Hloop.
    destruct (Z.leb_spec V 18446744073709551615);
      destruct (Z.leb_spec V 9223372036854775807);
      repeat match goal with
             | |- context [?a <=? ?b] => destruct (Z.leb_spec a b)
             | |- context [?a <? ?b] => destruct (Z.ltb_spec a b)
             end; cbn [negb andb]; try lia; f_equal; lia.
  - subst s. cbv zeta. rewrite Hplus, Hminus. reflexivity.
  - cbv zeta. cbn [Ascii.eqb Bool.eqb orb negb andb]. rewrite Hloop.
    destruct (Z.leb_spec V 18446744073709551615);
      destruct (Z.leb_spec V (- -9223372036854775808));
      repeat match goal with
             | |- context [?a <=? ?b] => destruct (Z.leb_spec a b)
             | |- context [?a <? ?b] => destruct (Z.ltb_spec a b)
             end; cbn [negb andb]; try lia; f_equal; lia.
Qed.

(** A line made of a key without the separator, the separator and a value
    is cut back into the key and the value, whatever the value holds. *)
Lemma Cut_key_value key sep val :
  snd (GoStrings.Cut key sep) = false ->
  GoStrings.Cut (key +:+ String sep val) sep = (key, val, true).
Proof.
  induction key as [|c key IH]; intros Hno.
  - change ("" +:+ String sep val) with (String sep val). cbn [GoStrings.Cut].
    by rewrite Ascii.eqb_refl.
  - rewrite append_cons. cbn [GoStrings.Cut] in *.
    destruct (Ascii.eqb c sep); [done|].
    destruct (GoStrings.Cut key sep) as [[bf af] found].
    destruct found; [done|]. by rewrite IH.
Qed.

(** X10.  A value that is a string of digits is stored as the number it
    denotes when that fits 64 bits, and as the nearest bound otherwise:
    [MaxInt64] for a numeral above it, [MinInt64] for a negative numeral
    below it.  Such a value is not read as zero. *)
Theorem integer_fields_saturate file s :
  allDigits s = true -> s <> "" ->
  let v := digitsValue s 0 in
  parseLine file ("cg-mem:" +:+ s) = (setMemory (Z.min v maxInt64) file, [])
  /\ parseLine file ("exitcode:" +:+ s) = (setExitCode (Z.min v maxInt64) file, [])
  /\ parseLine file ("exitsig:-" +:+ s) = (setExitSignal (Z.max (- v) minInt64) file, [])
  /\ (maxInt64 < v -> Atoi s = (maxInt64, Some ErrRange))
  /\ (- minInt64 < v -> Atoi (String "-" s) = (minInt64, Some ErrRange)).
Proof.
  intros Hd Hne v. destruct (Atoi_digits s Hd Hne) as (Hplain & _ & Hneg).
  split; [|split; [|split; [|split]]].
  - unfold parseLine.
    change ("cg-mem:" +:+ s) with ("cg-mem" +:+ String ":" s).
    rewrite (Cut_key_value "cg-mem" ":" s eq_refl). cbn [negb]. unfold parseField.
    cbn [String.eqb Ascii.eqb Bool.eqb]. by rewrite Hplain.
  - unfold parseLine.
    change ("exitcode:" +:+ s) with ("exitcode" +:+ String ":" s).
    rewrite (Cut_key_value "exitcode" ":" s eq_refl). cbn [negb]. unfold parseField.
    cbn [String.eqb Ascii.eqb Bool.eqb]. by rewrite Hplain.
  - unfold parseLine.
    change ("exitsig:-" +:+ s) with ("exitsig" +:+ String ":" (String "-" s)).
    rewrite (Cut_key_value "exitsig" ":" (String "-" s) eq_refl). cbn [negb]. unfold parseField.
    cbn [String.eqb Ascii.eqb Bool.eqb]. by rewrite Hneg.
  - intros Hbig. rewrite Hplain. fold v.
    destruct (Z.leb_spec v maxInt64); [lia|]. f_equal. lia.
  - intros Hbig. rewrite Hneg. fold v.
    destruct (Z.leb_spec v (- minInt64)); [lia|]. f_equal. lia.
Qed.

Lemma integer_fields_saturate_witness :
  parseLine zeroRunStats "cg-mem:99999999999999999999"
  = (setMemory 9223372036854775807 zeroRunStats, [])
  /\ parseLine zeroRunStats "exitsig:-99999999999999999999"
     = (setExitSignal (-9223372036854775808) zeroRunStats, []).
Proof.
  destruct (integer_fields_saturate zeroRunStats "99999999999999999999" eq_refl
              ltac:(discriminate)) as (Hmem & _ & Hsig & _).
  split; [exact Hmem|exact Hsig].
Defined.

(** X11.  The decoder reads back what [strconv] writes: a line made of an
    integer key and [Itoa n] stores [n], the line [time:] followed by
    [FormatFloat f] stores [f], and a [status] or [message] line stores the
    whole text after the first colon, colons and spaces included. *)
Theorem report_lines_round_trip file :
  (forall n, minInt64 <= n <= maxInt64 ->
     parseLine file ("cg-mem:" +:+ Itoa n) = (setMemory n file, [])
     /\ parseLine file ("exitcode:" +:+ Itoa n) = (setExitCode n file, [])
     /\ parseLine file ("exitsig:" +:+ Itoa n) = (setExitSignal n file, []))
  /\ (forall f, valid_binary 53 1024 f = true ->
        parseLine file ("time:" +:+ FormatFloat f) = (setTime f file, []))
  /\ (forall val,
        parseLine file ("status:" +:+ val) = (setStatus val file, [])
        /\ parseLine file ("message:" +:+ val) = (setMessage val file, [])).
Proof.
  assert (Hline : forall key val,
            snd (GoStrings.Cut key ":") = false ->
            parseLine file (key +:+ String ":" val) = parseField file key val).
  { intros key val Hkey. unfold parseLine. by rewrite Cut_key_value. }
  split; [|split].
  - intros n Hn.
    change ("cg-mem:" +:+ Itoa n) with ("cg-mem" +:+ String ":" (Itoa n)).
    change ("exitcode:" +:+ Itoa n) with ("exitcode" +:+ String ":" (Itoa n)).
    change ("exitsig:" +:+ Itoa n) with ("exitsig" +:+ String ":" (Itoa n)).
    rewrite !Hline by reflexivity. unfold parseField.
    cbn [String.eqb Ascii.eqb Bool.eqb]. by rewrite Atoi_Itoa.
  - intros f Hf.
    change ("time:" +:+ FormatFloat f) with ("time" +:+ String ":" (FormatFloat f)).
    rewrite Hline by reflexivity. unfold parseField.
    cbn [String.eqb Ascii.eqb Bool.eqb]. by rewrite ParseFloat_FormatFloat.
  - intros val.
    change ("status:" +:+ val) with ("status" +:+ String ":" val).
    change ("message:" +:+ val) with ("message" +:+ String ":" val).
    by rewrite !Hline by reflexivity.
Qed.

Lemma report_lines_round_trip_witness :
  parseLine zeroRunStats "cg-mem:-42" = (setMemory (-42) zeroRunStats, [])
  /\ parseLine zeroRunStats "time:1.5" = (setTime float_1_5 zeroRunStats, [])
  /\ parseLine zeroRunStats "message:Caught fatal signal 11: core dumped"
     = (setMessage "Caught fatal signal 11: core dumped" zeroRunStats, []).
Proof.
  destruct (report_lines_round_trip zeroRunStats) as (Hint & Hfloat & Htext).
  split; [|split].
  - destruct (Hint (-42)) as (H & _); [vm_compute; split; discriminate|exact H].
  - exact (Hfloat float_1_5 eq_refl).
  - destruct (Htext "Caught fatal signal 11: core dumped") as (_ & H). exact H.
Defined.

(** ** Further properties of [New] *)

(** X12.  Whatever [New] returns comes from a call of [--init] that
    needed no repair.  A box is bound to the given id and rooted at the
    trimmed output of that call, which exited without error; an error is
    the exit error of that call, or the error of the [chown] that was meant
    to repair it. *)
Theorem result_of_New_comes_from_its_last_init fuel w k id r tr :
  New fuel w k id = Some (r, tr) ->
  exists k',
    (k <= k')%nat
    /\ selfHeals w k' id = false
    /\ match r with
       | inl box =>
           boxID box = id
           /\ snd (w_init w k' id) = None
           /\ path box = GoStrings.TrimSpace (fst (w_init w k' id))
       | inr e =>
           snd (w_init w k' id) = Some e
           \/ (GoStrings.HasPrefix (fst (w_init w k' id)) "Must be started as root" = true
               /\ w_chown w k' = Some e)
       end.
Proof.
  revert k r tr. induction fuel as [|fuel IH]; intros k r tr; [done|].
  cbn [New]. unfold selfHeals.
  destruct (w_init w k id) as [ret err] eqn:Hinit.
  assert (Hagain : forall t,
            match New fuel w (S k) id with
            | Some (r0, tr') => Some (r0, EvExec (initArgs id) :: t ++ tr')
            | None => None
            end = Some (r, tr) ->
            exists k', (k <= k')%nat /\ selfHeals w k' id = false
              /\ match r with
                 | inl box =>
                     boxID box = id /\ snd (w_init w k' id) = None
                     /\ path box = GoStrings.TrimSpace (fst (w_init w k' id))
                 | inr e =>
                     snd (w_init w k' id) = Some e
                     \/ (GoStrings.HasPrefix (fst (w_init w k' id)) "Must be started as root"
                         = true /\ w_chown w k' = Some e)
                 end).
  { intros t. destruct (New fuel w (S k) id) as [[r0 tr']|] eqn:Hnew; [|done].
    intros [= -> _]. destruct (IH _ _ _ Hnew) as (k' & Hk & Hrest).
    exists k'. split; [lia|done]. }
  destruct (GoStrings.HasPrefix ret "Box already exists") eqn:H1; [apply Hagain|].
  destruct (GoStrings.Contains ret "incompatible control group mode") eqn:H2; [apply Hagain|].
  destruct (GoStrings.HasPrefix ret "Must be started as root") eqn:H3.
  - destruct (w_chown w k) as [e|] eqn:Hch; [|apply Hagain].
    intros [= <- _]. exists k. rewrite Hinit. cbn [fst snd]. rewrite H1, H2, H3, Hch.
    split; [lia|]. split; [done|]. by right.
  - destruct err as [e|]; intros [= <- _]; exists k; rewrite Hinit; cbn [fst snd];
      rewrite H1, H2, H3; (split; [lia|]); split; try done. by left.
Qed.

Lemma result_of_New_comes_from_its_last_init_witness :
  exists k',
    selfHeals staleOnceWorld k' 50 = false
    /\ GoStrings.TrimSpace (fst (w_init staleOnceWorld k' 50)) = "/var/local/lib/isolate/50/box".
Proof.
  destruct (result_of_New_comes_from_its_last_init 2 staleOnceWorld 0 50
              (inl {| path := "/var/local/lib/isolate/50/box"; boxID := 50 |})
              [EvExec (initArgs 50); EvLog (LogBoxReset 50); EvExec (cleanupArgs true 50);
               EvExec (initArgs 50)] eq_refl)
    as (k' & _ & Hheal & _ & _ & Hpath).
  exists k'. split; [exact Hheal|]. symmetry. exact Hpath.
Defined.

Lemma initCount_app id tr1 tr2 :
  initCount id (tr1 ++ tr2) = (initCount id tr1 + initCount id tr2)%nat.
Proof. unfold initCount. by rewrite execArgs_app, List.filter_app, length_app. Qed.

Lemma initCount_init id tr : initCount id (EvExec (initArgs id) :: tr) = S (initCount id tr).
Proof.
  unfold initCount. cbn [execArgs List.filter].
  by rewrite bool_decide_eq_true_2.
Qed.

Lemma initCount_resetBox w k cg id : initCount id (resetBox w k cg id) = 0%nat.
Proof.
  unfold initCount, resetBox. cbn [execArgs List.filter].
  rewrite bool_decide_eq_false_2.
  - by destruct (w_cleanup w k cg id) as [out [e|]].
  - unfold cleanupArgs, initArgs. destruct cg; cbn [app]; intros H; by simplify_eq.
Qed.

(** A call that repairs goes on with the next call; the repair spawns no
    [--init]. *)
Lemma New_heals fuel w k id :
  selfHeals w k id = true ->
  exists t,
    initCount id t = 0%nat
    /\ New (S fuel) w k id
       = match New fuel w (S k) id with
         | Some (r, tr') => Some (r, EvExec (initArgs id) :: t ++ tr')
         | None => None
         end.
Proof.
  unfold selfHeals. cbn [New]. destruct (w_init w k id) as [ret err]. cbn [fst].
  destruct (GoStrings.HasPrefix ret "Box already exists").
  { intros _. exists (resetBox w k true id). split; [apply initCount_resetBox|done]. }
  destruct (GoStrings.Contains ret "incompatible control group mode").
  { intros _. exists (resetBox w k false id). split; [apply initCount_resetBox|done]. }
  destruct (GoStrings.HasPrefix ret "Must be started as root"); [|done].
  destruct (w_chown w k); [done|]. intros _. by exists [EvChown].
Qed.

(** A call that does not repair returns. *)
Lemma New_settles fuel w k id :
  selfHeals w k id = false ->
  exists r tr, New (S fuel) w k id = Some (r, tr) /\ initCount id tr = 1%nat.
Proof.
  unfold selfHeals. cbn [New]. destruct (w_init w k id) as [ret err]. cbn [fst].
  destruct (GoStrings.HasPrefix ret "Box already exists"); [done|].
  destruct (GoStrings.Contains ret "incompatible control group mode"); [done|].
  destruct (GoStrings.HasPrefix ret "Must be started as root").
  - destruct (w_chown w k) as [e|]; [|done]. intros _.
    eexists _, _. split; [reflexivity|]. by rewrite initCount_init.
  - intros _. destruct err; eexists _, _; (split; [reflexivity|]); by rewrite initCount_init.
Qed.

(** X13.  [New] returns at the first [--init] it need not repair, after
    spawning [--init] once per call, and there is no bound on the repairs:
    when every [--init] shows a condition that [New] repairs, [New] calls
    itself for ever and returns nothing. *)
Theorem New_returns_at_the_first_init_it_need_not_repair w id :
  (forall n k fuel,
     (forall j, (j < n)%nat -> selfHeals w (k + j) id = true) ->
     selfHeals w (k + n) id = false ->
     (n < fuel)%nat ->
     exists r tr, New fuel w k id = Some (r, tr) /\ initCount id tr = S n)
  /\ (forall k,
        (forall j, selfHeals w (k + j) id = true) -> forall fuel, New fuel w k id = None).
Proof.
  split.
  - induction n as [|n IH]; intros k fuel Hheal Hstop Hfuel.
    + destruct fuel as [|fuel]; [lia|]. rewrite Nat.add_0_r in Hstop.
      by apply New_settles.
    + destruct fuel as [|fuel]; [lia|].
      destruct (New_heals fuel w k id) as (t & Ht & ->).
      { specialize (Hheal 0%nat ltac:(lia)). by rewrite Nat.add_0_r in Hheal. }
      destruct (IH (S k) fuel) as (r & tr & -> & Hc).
      * intros j Hj. specialize (Hheal (S j) ltac:(lia)).
        by replace (S k + j)%nat with (k + S j)%nat by lia.
      * by replace (S k + n)%nat with (k + S n)%nat by lia.
      * lia.
      * eexists _, _. split; [reflexivity|].
        by rewrite initCount_init, initCount_app, Ht, Hc.
  - intros k Hheal fuel. revert k Hheal.
    induction fuel as [|fuel IH]; intros k Hheal; [done|].
    destruct (New_heals fuel w k id) as (t & _ & ->).
    { specialize (Hheal 0%nat). by rewrite Nat.add_0_r in Hheal. }
    rewrite IH; [done|]. intros j. specialize (Hheal (S j)).
    by replace (S k + j)%nat with (k + S j)%nat by lia.
Qed.

Lemma New_returns_at_the_first_init_it_need_not_repair_witness :
  (exists r tr, New 2 staleOnceWorld 0 50 = Some (r, tr) /\ initCount 50 tr = 2%nat)
  /\ forall fuel, New fuel staleBoxWorld 0 50 = None.
Proof.
  destruct (New_returns_at_the_first_init_it_need_not_repair staleOnceWorld 50) as [Hstop _].
  destruct (New_returns_at_the_first_init_it_need_not_repair staleBoxWorld 50) as [_ Hloop].
  split.
  - apply (Hstop 1%nat 0%nat 2%nat); [|reflexivity|lia].
    intros j Hj. assert (j = 0%nat) as -> by lia. reflexivity.
  - apply Hloop. intros j. reflexivity.
Defined.

(** ** [MakeGoodCommand] *)

(** X14.  [MakeGoodCommand] returns either a command and no error or no
    command and an error.  The command it returns has the length and the
    arguments of the one given, only the program may differ: it is kept
    when it starts with [/box], and is otherwise the symlink-free path of
    what [LookPath] finds; such a command never makes [RunCommand] panic.
    An error is the error of [LookPath] or of [EvalSymlinks]. *)
Theorem MakeGoodCommand_only_replaces_the_program w b conf command cmd err :
  MakeGoodCommand w command = Returns (cmd, err) ->
  exists c0,
    command !! 0%nat = Some c0
    /\ match cmd, err with
       | Some cmd', None =>
           length cmd' = length command
           /\ drop 1 cmd' = drop 1 command
           /\ (exists c0', cmd' !! 0%nat = Some c0'
                 /\ if GoStrings.HasPrefix c0 "/box" then c0' = c0
                    else exists p, w_lookPath w c0 = inr p /\ w_evalSymlinks w p = inr c0')
           /\ fst (fst (RunCommand w b cmd' conf)) <> Panics
       | None, Some e =>
           GoStrings.HasPrefix c0 "/box" = false
           /\ (w_lookPath w c0 = inl e
               \/ exists p, w_lookPath w c0 = inr p /\ w_evalSymlinks w p = inl e)
       | _, _ => False
       end.
Proof.
  unfold MakeGoodCommand. cbv zeta.
  destruct command as [|c0 rest]; [done|]. cbn [lookup list_lookup].
  assert (Hrun : forall c0', fst (fst (RunCommand w b (c0' :: rest) conf)) <> Panics).
  { intros c0'. unfold RunCommand. cbn [lookup list_lookup].
    by destruct (runLoop w b (c0' :: rest) runErrRetries 1 None conf []) as [[[r e] conf'] tr]. }
  destruct (GoStrings.HasPrefix c0 "/box") eqn:Hbox.
  - intros [= <- <-]. exists c0. split; [done|]. split; [done|]. split; [done|].
    split; [|apply Hrun]. exists c0. by rewrite Hbox.
  - destruct (w_lookPath w c0) as [e|p] eqn:Hlook.
    + intros [= <- <-]. exists c0. split; [done|]. split; [done|]. by left.
    + destruct (w_evalSymlinks w p) as [e|c0'] eqn:Heval.
      * intros [= <- <-]. exists c0. split; [done|]. split; [done|]. right. by exists p.
      * intros [= <- <-]. exists c0. split; [done|]. split; [done|]. split; [done|].
        split; [|apply Hrun]. exists c0'. rewrite Hbox. split; [done|]. by exists p.
Qed.

Lemma MakeGoodCommand_only_replaces_the_program_witness :
  MakeGoodCommand brokenWorld ["python3"; "/box/main.py"]
  = Returns (Some ["/usr/bin/python3"; "/box/main.py"], None)
  /\ drop 1 ["/usr/bin/python3"; "/box/main.py"] = drop 1 ["python3"; "/box/main.py"].
Proof.
  split; [reflexivity|].
  destruct (MakeGoodCommand_only_replaces_the_program brokenWorld box50 zeroConfig
              ["python3"; "/box/main.py"] (Some ["/usr/bin/python3"; "/box/main.py"]) None
              eq_refl) as (c0 & _ & _ & Htail & _).
  exact Htail.
Defined.

(** ** [IsolateVersion] *)

Lemma Cut_before sep s : hasByte sep (fst (fst (GoStrings.Cut s sep))) = false.
Proof.
  induction s as [|c s IH]; [done|]. cbn [GoStrings.Cut].
  destruct (Ascii.eqb c sep) eqn:E; [done|].
  destruct (GoStrings.Cut s sep) as [[bf af] found]. cbn [fst] in *.
  destruct found; cbn [fst hasByte]; by rewrite E, IH.
Qed.

Lemma hasByte_dropLen c pre s : hasByte c s = false -> hasByte c (dropLen pre s) = false.
Proof.
  revert s. induction pre as [|a pre IH]; intros s Hs; [by destruct s|].
  destruct s as [|d s]; [done|]. cbn [dropLen]. apply IH.
  cbn [hasByte] in Hs. by apply orb_false_iff in Hs as [_ ?].
Qed.

Lemma hasByte_app c a b : hasByte c (a +:+ b) = hasByte c a || hasByte c b.
Proof.
  induction a as [|d a IH]; [done|]. rewrite append_cons. cbn [hasByte].
  by rewrite IH, orb_assoc.
Qed.

Lemma Cut_at_first sep a b :
  hasByte sep a = false -> GoStrings.Cut (a +:+ String sep b) sep = (a, b, true).
Proof.
  induction a as [|c a IH]; intros Ha.
  - change ("" +:+ String sep b) with (String sep b). cbn [GoStrings.Cut].
    by rewrite Ascii.eqb_refl.
  - rewrite append_cons. cbn [GoStrings.Cut hasByte] in *.
    apply orb_false_iff in Ha as [-> Ha]. by rewrite IH.
Qed.

Lemma Cut_absent sep a : hasByte sep a = false -> GoStrings.Cut a sep = (a, "", false).
Proof.
  induction a as [|c a IH]; intros Ha; [done|].
  cbn [GoStrings.Cut hasByte] in *. apply orb_false_iff in Ha as [-> Ha]. by rewrite IH.
Qed.

Lemma TrimPrefix_app pre s : TrimPrefix (pre +:+ s) pre = s.
Proof.
  unfold TrimPrefix.
  assert (H : GoStrings.HasPrefix (pre +:+ s) pre = true /\ dropLen pre (pre +:+ s) = s).
  { induction pre as [|a pre [IH1 IH2]]; [by destruct s|].
    rewrite append_cons. cbn [GoStrings.HasPrefix dropLen].
    by rewrite Ascii.eqb_refl, IH1, IH2. }
  destruct H as [-> ->]. done.
Qed.

(** X15.  [IsolateVersion] returns one line: [precompiled?] when the
    command fails, otherwise the first line of its output, without the
    banner [The process isolator ] when the line starts with it and as it
    stands when it does not. *)
Theorem IsolateVersion_is_the_first_line_without_the_banner :
  (forall run, hasByte "010" (IsolateVersion run) = false)
  /\ (forall ret e, IsolateVersion (ret, Some e) = "precompiled?")
  /\ (forall v rest,
        hasByte "010" v = false ->
        IsolateVersion ("The process isolator " +:+ v +:+ String "010" rest, None) = v
        /\ IsolateVersion ("The process isolator " +:+ v, None) = v)
  /\ (forall line rest,
        hasByte "010" line = false ->
        GoStrings.HasPrefix line "The process isolator " = false ->
        IsolateVersion (line +:+ String "010" rest, None) = line).
Proof.
  split; [|split; [done|split]].
  - intros [ret [e|]]; [done|]. unfold IsolateVersion.
    pose proof (Cut_before "010" ret) as Hline.
    destruct (GoStrings.Cut ret "010") as [[line af] found]. cbn [fst] in Hline.
    unfold TrimPrefix. destruct (GoStrings.HasPrefix line _); [|done].
    by apply hasByte_dropLen.
  - intros v rest Hv.
    assert (Hb : hasByte "010" ("The process isolator " +:+ v) = false)
      by by rewrite hasByte_app, Hv.
    unfold IsolateVersion. split.
    + rewrite <- append_assoc, (Cut_at_first _ _ _ Hb). apply TrimPrefix_app.
    + rewrite (Cut_absent _ _ Hb). apply TrimPrefix_app.
  - intros line rest Hline Hpre. unfold IsolateVersion.
    rewrite (Cut_at_first _ _ _ Hline). unfold TrimPrefix. by rewrite Hpre.
Qed.

Lemma IsolateVersion_is_the_first_line_without_the_banner_witness :
  IsolateVersion ("The process isolator 2.0
(c) 2012-2024 Martin Mares and Bernard Blackham
", None) = "2.0".
Proof.
  destruct IsolateVersion_is_the_first_line_without_the_banner as (_ & _ & Hbanner & _).
  destruct (Hbanner "2.0" "(c) 2012-2024 Martin Mares and Bernard Blackham
" eq_refl) as [H _].
  exact H.
Defined.

(** ** The file helpers *)

(** X16.  [writeFile] reports the first failure among open, copy, sync
    and close, and returns nil exactly when all four succeed; once the file
    is open it is always synced and closed, whatever failed.  [readFile]
    reports a failure of open or copy only: a failed close is reported by
    [writeFile] and never by [readFile]. *)
Theorem file_helpers_report_failures f :
  (fst (writeFile f) = None
   <-> f_open f = None /\ f_copy f = None /\ f_sync f = None /\ f_close f = None)
  /\ fst (writeFile f)
     = match f_open f, f_copy f, f_sync f, f_close f with
       | Some e, _, _, _ => Some e
       | None, Some e, _, _ => Some e
       | None, None, Some e, _ => Some e
       | None, None, None, r => r
       end
  /\ snd (writeFile f)
     = match f_open f with Some _ => [FOpen] | None => [FOpen; FCopy; FSync; FClose] end
  /\ fst (readFile f) = match f_open f with Some e => Some e | None => f_copy f end
  /\ snd (readFile f)
     = match f_open f with Some _ => [FOpen] | None => [FOpen; FCopy; FClose] end
  /\ (f_open f = None -> f_copy f = None -> f_sync f = None ->
      fst (writeFile f) = f_close f /\ fst (readFile f) = None).
Proof.
  unfold writeFile, readFile.
  destruct (f_open f), (f_copy f), (f_sync f), (f_close f); cbn; repeat split; try done;
    intros; try tauto; naive_solver.
Qed.

Lemma file_helpers_report_failures_witness :
  fst (writeFile {| f_open := None; f_copy := None; f_sync := None;
                    f_close := Some "input/output error" |})
  = Some "input/output error"
  /\ fst (readFile {| f_open := None; f_copy := None; f_sync := None;
                      f_close := Some "input/output error" |})
     = None.
Proof.
  destruct (file_helpers_report_failures
              {| f_open := None; f_copy := None; f_sync := None;
                 f_close := Some "input/output error" |})
    as (_ & _ & _ & _ & _ & H).
  exact (H eq_refl eq_refl eq_refl).
Defined.

(** ** [getFilePath] *)

Import GoPath.

Lemma chunks_app es1 es2 : chunks (es1 ++ es2) = chunks es1 ++ chunks es2.
Proof.
  induction es1 as [|e es1 IH]; [done|]. cbn [app chunks]. by rewrite IH, <- app_assoc.
Qed.

Lemma rev_revChunks st : rev (revChunks st) = chunks (rev st).
Proof.
  induction st as [|e st IH]; [done|]. cbn [revChunks rev].
  rewrite rev_app_distr. cbn [rev]. rewrite <- app_assoc, IH, rev_involutive, chunks_app.
  cbn [chunks app]. by rewrite app_nil_r.
Qed.

Lemma rev_bufferOf st : rev (bufferOf st) = rootedPath st.
Proof. destruct st as [|e st]; [done|]. apply rev_revChunks. Qed.

Lemma atBoundary_chunks es : atBoundary (chunks es) = true.
Proof. by destruct es. Qed.

Lemma element_app e rest :
  noSlash e = true -> atBoundary rest = true -> element (e ++ rest) = (e, rest).
Proof.
  intros He Hrest. induction e as [|c e IH].
  - destruct rest as [|c rest]; [done|]. cbn in *. by rewrite Hrest.
  - cbn [noSlash forallb] in He. apply andb_true_iff in He as [Hc He].
    apply negb_true_iff in Hc. cbn [app element]. by rewrite Hc, IH.
Qed.

Lemma noSlash_rev e : noSlash (rev e) = noSlash e.
Proof.
  unfold noSlash. apply eq_true_iff_eq. rewrite !forallb_forall.
  split; intros H x Hx; apply H; by apply in_rev in Hx || apply in_rev.
Qed.

(** Dropping the last name from the buffer. *)
Lemma backtrack_name l R :
  l <> [] -> noSlash l = true ->
  backtrack 1 (l ++ "/"%char :: R) = match R with [] => ["/"%char] | _ => R end.
Proof.
  induction l as [|x l IH]; [done|]. intros _ Hl.
  cbn [noSlash forallb] in Hl. apply andb_true_iff in Hl as [Hx Hl].
  cbn [app backtrack]. rewrite Hx, andb_true_r.
  destruct l as [|y l].
  - cbn [app length]. destruct R as [|r R]; [done|]. cbn [length Nat.ltb Nat.leb].
    cbn [backtrack]. by rewrite andb_false_r.
  - replace (1 <? length ((y :: l) ++ "/"%char :: R))%nat with true.
    + by apply IH.
    + symmetry. apply Nat.ltb_lt. cbn [app length]. rewrite length_app. cbn. lia.
Qed.

Lemma isName_inv e : isName e = true -> e <> [] /\ noSlash e = true.
Proof.
  unfold isName. intros H. apply andb_true_iff in H as [H _].
  apply andb_true_iff in H as [Hs Hk]. split; [|done]. by intros ->.
Qed.

Lemma bufferOf_length st :
  Forall (fun n => isName n = true) st ->
  (length (bufferOf st) =? 1)%nat = match st with [] => true | _ => false end.
Proof.
  destruct st as [|n st]; [done|]. intros Hst. apply Forall_cons_1 in Hst as [Hn _].
  apply isName_inv in Hn as [Hne _]. apply Nat.eqb_neq.
  cbn [bufferOf revChunks]. rewrite length_app, length_rev. cbn [length].
  destruct n; [done|]. cbn [length]. lia.
Qed.

(** A name is appended to the buffer after a slash, except right after
    the root. *)
Lemma push_name e st rest fuel :
  Forall (fun n => isName n = true) st ->
  noSlash e = true -> atBoundary rest = true ->
  (let out1 :=
     if (true && negb (length (bufferOf st) =? 1)%nat)
        || (negb true && negb (length (bufferOf st) =? 0)%nat)
     then "/"%char :: bufferOf st else bufferOf st in
   let '(e', rest') := element (e ++ rest) in
   cleanLoop fuel true rest' (rev e' ++ out1) 1)
  = cleanLoop fuel true rest (bufferOf (e :: st)) 1.
Proof.
  intros Hst He Hrest. cbv zeta. rewrite (element_app _ _ He Hrest).
  rewrite (bufferOf_length _ Hst). by destruct st.
Qed.

(** A [..] element drops the last name, and nothing at the root. *)
Lemma pop_name st :
  Forall (fun n => isName n = true) st ->
  (if (1 <? length (bufferOf st))%nat then backtrack 1 (bufferOf st) else bufferOf st)
  = bufferOf (tail st).
Proof.
  intros Hst. destruct st as [|n st]; [done|].
  apply Forall_cons_1 in Hst as [Hn Hst]. apply isName_inv in Hn as [Hne Hns].
  cbn [tail bufferOf revChunks].
  replace (1 <? length (rev n ++ "/"%char :: revChunks st))%nat with true.
  - rewrite backtrack_name.
    + destruct st as [|m st]; [done|]. cbn [revChunks bufferOf].
      by destruct (rev m ++ "/"%char :: revChunks st) eqn:E;
        [apply app_eq_nil in E as [_ ?]|].
    + intros Hrev. apply (f_equal (@length _)) in Hrev. rewrite length_rev in Hrev.
      by destruct n.
    + by rewrite noSlash_rev.
  - symmetry. apply Nat.ltb_lt. rewrite length_app, length_rev. cbn [length].
    destruct n; [done|]. cbn [length]. lia.
Qed.

(** One element of the path, when it is not empty: one turn of the
    loop. *)
Lemma clean_step fuel e rest st :
  noSlash e = true -> e <> [] -> atBoundary rest = true ->
  Forall (fun n => isName n = true) st ->
  cleanLoop (S fuel) true (e ++ rest) (bufferOf st) 1
  = cleanLoop fuel true rest (bufferOf (walk st e)) 1.
Proof.
  intros He Hne Hrest Hst.
  pose proof (push_name e st rest fuel Hst He Hrest) as Hpush.
  pose proof (pop_name st Hst) as Hpop.
  destruct e as [|c1 e1]; [done|]. clear Hne.
  cbn [noSlash forallb] in He. apply andb_true_iff in He as [Hc1 He1].
  apply negb_true_iff in Hc1.
  cbn [app cleanLoop]. rewrite Hc1.
  destruct e1 as [|c2 e2].
  - (* one byte *)
    cbn [app]. rewrite Hrest, andb_true_r. unfold walk. cbn [isSkipped isDotDot].
    destruct (Ascii.eqb c1 ".") eqn:Hdot; [done|].
    assert (Hnone : match rest with
                    | [] => None
                    | c2 :: r2 =>
                        if false && Ascii.eqb c2 "." && atBoundary r2 then Some r2 else None
                    end = @None bytes) by by destruct rest.
    rewrite Hnone. exact Hpush.
  - cbn [noSlash forallb] in He1. apply andb_true_iff in He1 as [Hc2 He2].
    apply negb_true_iff in Hc2.
    cbn [app atBoundary]. rewrite Hc2, andb_false_r.
    destruct e2 as [|c3 e3].
    + (* two bytes *)
      cbn [app]. rewrite Hrest, andb_true_r. unfold walk. cbn [isSkipped isDotDot].
      destruct (Ascii.eqb c1 "." && Ascii.eqb c2 ".") eqn:Hdots; [|exact Hpush].
      cbn [negb]. rewrite <- Hpop.
      by destruct (1 <? length (bufferOf st))%nat.
    + (* three bytes or more *)
      cbn [noSlash forallb] in He2. apply andb_true_iff in He2 as [Hc3 _].
      apply negb_true_iff in Hc3.
      cbn [app atBoundary]. rewrite Hc3, andb_false_r. exact Hpush.
Qed.

Lemma isName_walk st e :
  noSlash e = true ->
  Forall (fun n => isName n = true) st -> Forall (fun n => isName n = true) (walk st e).
Proof.
  intros He Hst. unfold walk.
  destruct (isSkipped e) eqn:Hs; [done|].
  destruct (isDotDot e) eqn:Hd.
  - destruct st; [done|]. by apply Forall_cons_1 in Hst as [_ ?].
  - constructor; [|done]. unfold isName. by rewrite He, Hs, Hd.
Qed.

(** The loop of [Clean] on a rooted path walks its elements. *)
Lemma cleanLoop_chunks es :
  forall fuel st,
    Forall (fun e => noSlash e = true) es ->
    Forall (fun n => isName n = true) st ->
    (length (chunks es) <= fuel)%nat ->
    cleanLoop fuel true (chunks es) (bufferOf st) 1 = bufferOf (fold_left walk es st).
Proof.
  induction es as [|e es IH]; intros fuel st Hes Hst Hfuel.
  - by destruct fuel.
  - apply Forall_cons_1 in Hes as [He Hes].
    cbn [chunks length] in Hfuel. rewrite length_app in Hfuel.
    destruct fuel as [|fuel]; [lia|].
    cbn [chunks cleanLoop fold_left]. cbn [Ascii.eqb Bool.eqb].
    destruct e as [|c e'].
    + cbn [app]. apply IH; [done|done|cbn in Hfuel; lia].
    + destruct fuel as [|fuel]; [cbn in Hfuel; lia|].
      rewrite clean_step; [|done|done|apply atBoundary_chunks|done].
      apply IH; [done|by apply isName_walk|cbn in Hfuel; lia].
Qed.

Lemma bufferOf_nonempty st : bufferOf st <> [].
Proof.
  destruct st as [|e st]; [done|]. cbn [bufferOf revChunks].
  intros H. by apply app_eq_nil in H as [_ ?].
Qed.

Lemma Clean_chunks es :
  es <> [] -> Forall (fun e => noSlash e = true) es ->
  Clean (chunks es) = rootedPath (fold_left walk es []).
Proof.
  intros Hne Hes. destruct es as [|e es]; [done|].
  pose proof (cleanLoop_chunks (e :: es) (S (length (chunks (e :: es)))) [] Hes
                ltac:(constructor) ltac:(lia)) as Hloop.
  cbn [chunks] in *. unfold Clean. cbn [Ascii.eqb Bool.eqb].
  cbn [cleanLoop Ascii.eqb Bool.eqb] in Hloop.
  change (bufferOf []) with ["/"%char] in Hloop. rewrite Hloop.
  pose proof (bufferOf_nonempty (fold_left walk (e :: es) [])) as Hbuf.
  destruct (bufferOf (fold_left walk (e :: es) [])) eqn:E; [done|].
  rewrite <- E. apply rev_bufferOf.
Qed.

Lemma splitSlash_spec s :
  "/"%char :: s = chunks (splitSlash s)
  /\ Forall (fun e => noSlash e = true) (splitSlash s)
  /\ splitSlash s <> [].
Proof.
  induction s as [|c s (IH & Hns & Hne)]; [by repeat constructor|].
  cbn [splitSlash]. destruct (Ascii.eqb c "/") eqn:Hc.
  - apply Ascii.eqb_eq in Hc as ->. split; [|split; [by constructor|done]].
    cbn [chunks app]. by rewrite <- IH.
  - destruct (splitSlash s) as [|e es]; [done|].
    apply Forall_cons_1 in Hns as [He Hes].
    split; [|split; [|done]].
    + cbn [chunks app] in *. by injection IH as ->.
    + constructor; [|done]. cbn [noSlash forallb]. by rewrite Hc.
Qed.

Lemma Join_rooted rs p :
  rs <> [] -> Forall (fun e => noSlash e = true) rs ->
  Join [chunks rs; p] = rootedPath (fold_left walk (rs ++ splitSlash p) []).
Proof.
  intros Hne Hrs. destruct (splitSlash_spec p) as (Hp & Hps & _).
  rewrite <- Clean_chunks.
  - rewrite chunks_app, <- Hp. unfold Join.
    destruct rs as [|r rs]; [done|]. cbn [chunks fold_right length joinLoop].
    done.
  - by destruct rs.
  - by apply Forall_app_2.
Qed.

Lemma fold_walk_no_dotdot es :
  forall st,
    Forall (fun e => isDotDot e = false) es ->
    fold_left walk es st = rev (List.filter (fun e => negb (isSkipped e)) es) ++ st.
Proof.
  induction es as [|e es IH]; intros st Hes; [done|].
  apply Forall_cons_1 in Hes as [He Hes]. cbn [fold_left List.filter].
  rewrite IH by done. unfold walk. rewrite He.
  destruct (isSkipped e); cbn [negb]; [done|].
  cbn [rev]. by rewrite <- app_assoc.
Qed.

Lemma fold_walk_names es st :
  Forall (fun e => isName e = true) es -> fold_left walk es st = rev es ++ st.
Proof.
  intros Hes. rewrite fold_walk_no_dotdot.
  - f_equal. f_equal. induction Hes as [|e es He _ IH]; [done|].
    cbn [List.filter]. unfold isName in He. apply andb_true_iff in He as [He _].
    apply andb_true_iff in He as [_ ->]. by rewrite IH.
  - eapply Forall_impl; [exact Hes|]. intros e He. unfold isName in He.
    apply andb_true_iff in He as [_ He]. by apply negb_true_iff in He.
Qed.

Lemma fold_walk_dotdots n :
  forall st, fold_left walk (replicate n ["."%char; "."%char]) st = drop n st.
Proof.
  induction n as [|n IH]; intros st; [done|].
  cbn [replicate fold_left]. rewrite IH. unfold walk. cbn [isSkipped isDotDot Ascii.eqb Bool.eqb andb].
  destruct st; cbn [tail]; [by rewrite !drop_nil|done].
Qed.

Lemma splitSlash_dotdots n p :
  splitSlash (dotdots n ++ p) = replicate n ["."%char; "."%char] ++ splitSlash p.
Proof.
  induction n as [|n IH]; [done|].
  cbn [dotdots app splitSlash Ascii.eqb Bool.eqb]. rewrite IH.
  cbn [replicate app]. by destruct n.
Qed.

Lemma names_noSlash es :
  Forall (fun e => isName e = true) es -> Forall (fun e => noSlash e = true) es.
Proof.
  intros Hes. eapply Forall_impl; [exact Hes|].
  intros e He. by apply isName_inv in He as [_ ?].
Qed.

Lemma string_of_list_ascii_app a b :
  string_of_list_ascii (a ++ b) = string_of_list_ascii a +:+ string_of_list_ascii b.
Proof. induction a as [|c a IH]; [done|]. cbn. by rewrite IH. Qed.

(** X17.  For a box whose root is a rooted path, [getFilePath] walks the
    elements of the root and then those of the box path: an empty element
    and [.] change nothing, [..] drops the last name (nothing at [/]), any
    other element is a name that is appended.  The result is the rooted
    path of the names left, so it holds no empty element, no [.] and no
    [..]. *)
Theorem getFilePath_walks_the_elements b rs boxpath :
  rs <> [] ->
  Forall (fun e => noSlash e = true) rs ->
  list_ascii_of_string (path b) = chunks rs ->
  let names := fold_left walk (rs ++ splitSlash (list_ascii_of_string boxpath)) [] in
  getFilePath b boxpath = string_of_list_ascii (rootedPath names)
  /\ Forall (fun e => isName e = true) names.
Proof.
  intros Hne Hrs Hroot names. split.
  - unfold getFilePath. rewrite Hroot. by rewrite Join_rooted.
  - subst names.
    assert (Hall : Forall (fun e => noSlash e = true)
                     (rs ++ splitSlash (list_ascii_of_string boxpath))).
    { apply Forall_app_2; [done|]. by destruct (splitSlash_spec (list_ascii_of_string boxpath))
        as (_ & ? & _). }
    revert Hall. generalize (rs ++ splitSlash (list_ascii_of_string boxpath)).
    assert (Hgen : forall es st,
              Forall (fun e => noSlash e = true) es ->
              Forall (fun e => isName e = true) st ->
              Forall (fun e => isName e = true) (fold_left walk es st)).
    { induction es as [|e es IH]; intros st Hes Hst; [done|].
      apply Forall_cons_1 in Hes as [He Hes]. cbn [fold_left].
      apply IH; [done|by apply isName_walk]. }
    intros es Hes. by apply Hgen.
Qed.

Lemma getFilePath_walks_the_elements_witness :
  getFilePath box50 "/box/./a//../prog.in" = "/var/local/lib/isolate/50/box/box/prog.in".
Proof.
  destruct (getFilePath_walks_the_elements box50 box50Names "/box/./a//../prog.in")
    as [H _]; [discriminate|by repeat constructor|reflexivity|].
  rewrite H. reflexivity.
Defined.

(** X18.  A box path without a [..] element stays under the root: when
    the root consists of names, the host path is the root followed by the
    names of the box path, with or without a leading slash and whatever
    empty elements and dots the box path holds. *)
Theorem box_paths_without_dotdot_stay_under_the_root b rs boxpath :
  rs <> [] ->
  Forall (fun e => isName e = true) rs ->
  list_ascii_of_string (path b) = chunks rs ->
  Forall (fun e => isDotDot e = false) (splitSlash (list_ascii_of_string boxpath)) ->
  getFilePath b boxpath
  = path b
    +:+ string_of_list_ascii
          (chunks (List.filter (fun e => negb (isSkipped e))
                     (splitSlash (list_ascii_of_string boxpath)))).
Proof.
  intros Hne Hrs Hroot Hbox. unfold getFilePath. rewrite Hroot.
  rewrite Join_rooted by (done || by apply names_noSlash).
  rewrite fold_left_app, (fold_walk_names rs) by done.
  rewrite fold_walk_no_dotdot by done. rewrite app_nil_r.
  rewrite <- (string_of_list_ascii_of_string (path b)), Hroot, <- string_of_list_ascii_app.
  f_equal. rewrite <- chunks_app.
  set (bs := List.filter _ _). unfold rootedPath.
  destruct (rev bs ++ rev rs) eqn:E.
  - apply app_eq_nil in E as [_ E]. apply (f_equal (@rev _)) in E.
    rewrite rev_involutive in E. by subst rs.
  - rewrite <- E. by rewrite rev_app_distr, !rev_involutive.
Qed.

Lemma box_paths_without_dotdot_stay_under_the_root_witness :
  getFilePath box50 "/box/prog.in" = "/var/local/lib/isolate/50/box/box/prog.in"
  /\ getFilePath box50 "box/prog.in" = getFilePath box50 "/box/prog.in".
Proof.
  assert (H : forall p,
            Forall (fun e => isDotDot e = false) (splitSlash (list_ascii_of_string p)) ->
            getFilePath box50 p
            = path box50
              +:+ string_of_list_ascii
                    (chunks (List.filter (fun e => negb (isSkipped e))
                               (splitSlash (list_ascii_of_string p))))).
  { intros p. apply (box_paths_without_dotdot_stay_under_the_root box50 box50Names p);
      [discriminate|by repeat constructor|reflexivity]. }
  rewrite (H "/box/prog.in") by by repeat constructor.
  rewrite (H "box/prog.in") by by repeat constructor.
  split; reflexivity.
Defined.

(** X19.  [getFilePath] does not confine a box path to the root: when the
    root consists of [n] names, the box path made of [n] times [../]
    followed by [p] is the host path [Clean("/" + p)], in which the root
    plays no part.  [WriteFile], [ReadFile] and [FileExists] open that
    path. *)
Theorem dotdot_box_paths_leave_the_root b rs p :
  rs <> [] ->
  Forall (fun e => isName e = true) rs ->
  list_ascii_of_string (path b) = chunks rs ->
  getFilePath b (string_of_list_ascii (dotdots (length rs) ++ p))
  = string_of_list_ascii (Clean ("/"%char :: p)).
Proof.
  intros Hne Hrs Hroot. unfold getFilePath. rewrite Hroot.
  rewrite list_ascii_of_string_of_list_ascii.
  rewrite Join_rooted by (done || by apply names_noSlash).
  rewrite splitSlash_dotdots, !fold_left_app, (fold_walk_names rs) by done.
  rewrite fold_walk_dotdots, app_nil_r.
  rewrite drop_ge by (rewrite length_rev; lia).
  destruct (splitSlash_spec p) as (Hp & Hps & Hpne).
  by rewrite Hp, Clean_chunks.
Qed.

Lemma dotdot_box_paths_leave_the_root_witness :
  getFilePath box50 "../../../../../../etc/passwd" = "/etc/passwd".
Proof.
  apply (dotdot_box_paths_leave_the_root box50 box50Names (list_ascii_of_string "etc/passwd"));
    [discriminate|by repeat constructor|reflexivity].
Defined.

(** ** More on the runner and on the flag builder *)

Lemma turns_app tr1 tr2 : turns (tr1 ++ tr2) = (turns tr1 + turns tr2)%nat.
Proof.
  induction tr1 as [|ev tr1 IH]; [reflexivity|].
  destruct ev; cbn; by rewrite ?IH.
Qed.

Lemma turns_logs log : turns (map EvLog log) = 0%nat.
Proof. induction log; [reflexivity|done]. Qed.

Lemma turns_removes temps : turns (map EvRemove temps) = 0%nat.
Proof. induction temps; [reflexivity|done]. Qed.

Lemma turns_runCommand w i params name : turns (snd (runCommand w i params name)) = 0%nat.
Proof.
  unfold runCommand. destruct (w_isolate w i params) as [e|ee out text]; [done|].
  destruct (parseMetaFile (Some text) out) as [stats log]. cbn [snd app turns].
  by rewrite turns_app, turns_logs.
Qed.

(** The loop returns before its last turn only with an accepted report. *)
Lemma runLoop_early_return w b command n :
  forall i meta conf temps,
    let '(r, err, _, tr) := runLoop w b command n i meta conf temps in
    (turns tr <= n)%nat /\ ((turns tr < n)%nat -> accepted r err = true).
Proof.
  induction n as [|n IH]; intros i meta conf temps.
  - cbn. rewrite turns_removes. split; lia.
  - cbn [runLoop]. destruct (w_createTemp w i) as [e|name].
    + specialize (IH (S i) meta conf temps).
      destruct (runLoop w b command n (S i) meta conf temps) as [[[r err] conf'] tr].
      cbn [turns]. destruct IH as [Hle Hacc]. split; [lia|]. intros Hlt. apply Hacc. lia.
    + destruct (buildRunFlags b conf (Some name) (w_rangeSeed w i)) as [flags conf1].
      pose proof (turns_runCommand w i (flags ++ command) name) as Hrun.
      destruct (runCommand w i (flags ++ command) name) as [[meta1 err1] tr1].
      cbn [snd] in Hrun.
      specialize (IH (S i) meta1 conf1 (name :: temps)).
      destruct (runLoop w b command n (S i) meta1 conf1 (name :: temps))
        as [[[r err] conf'] tr].
      destruct IH as [Hle Hacc].
      destruct (usable meta1 err1) eqn:Hu; [destruct (textFileBusy meta1) eqn:Hb|].
      * cbn [turns]. rewrite turns_app, Hrun. cbn [turns Nat.add].
        split; [lia|]. intros Hlt. apply Hacc. lia.
      * cbn [turns]. rewrite turns_app, Hrun.
        change (EvRemove name :: map EvRemove temps) with (map EvRemove (name :: temps)).
        rewrite turns_removes. split; [lia|]. intros _. unfold accepted. by rewrite Hu, Hb.
      * cbn [turns]. rewrite !turns_app, Hrun.
        assert (Hw : turns (if (1 <? i)%nat
                            then [EvLog (LogRunRetry (boxID b) i runErrRetries)]
                            else []) = 0%nat) by by destruct (1 <? i)%nat.
        rewrite Hw. cbn [turns Nat.add]. split; [lia|]. intros Hlt. apply Hacc. lia.
Qed.

(** X20.  [RunCommand] returns before its third turn only with an accepted
    report: a report that is nil, has the status [XX] or tells of a busy
    program is returned only when all three turns are used up.  On the
    empty command the call panics. *)
Theorem early_return_means_accepted_report w b command conf :
  match RunCommand w b command conf with
  | (Returns (meta, err), _, tr) =>
      (turns tr <= 3)%nat /\ ((turns tr < 3)%nat -> accepted meta err = true)
  | (Panics, _, _) => command = []
  end.
Proof.
  unfold RunCommand. destruct command as [|c0 rest]; [done|]. cbn [lookup list_lookup].
  pose proof (runLoop_early_return w b (c0 :: rest) runErrRetries 1 None conf []) as H.
  destruct (runLoop w b (c0 :: rest) runErrRetries 1 None conf []) as [[[r err] conf'] tr].
  rewrite turns_app.
  assert (Hpre : turns (checkExecutable w b c0) = 0%nat).
  { unfold checkExecutable. destruct (GoStrings.HasPrefix c0 "/box"); [|done].
    by destruct (w_stat w (path b) c0). }
  rewrite Hpre. exact H.
Qed.

Lemma append_inj_l pre a b : pre +:+ a = pre +:+ b -> a = b.
Proof.
  induction pre as [|c pre IH]; [done|]. rewrite !append_cons. intros [= H]. by apply IH.
Qed.

(** X21.  The first flag names the box: it is [--box-id=] followed by the
    decimal numeral of the id, no other flag starts with [--box-id], and
    two boxes with different ids never get the same one. *)
Theorem box_id_flag_identifies_the_box b1 b2 c1 c2 m1 m2 s1 s2 :
  minInt64 <= boxID b1 <= maxInt64 ->
  minInt64 <= boxID b2 <= maxInt64 ->
  boxID b1 <> boxID b2 ->
  flagsWithPrefix "--box-id" (fst (buildRunFlags b1 c1 m1 s1))
    = ["--box-id=" +:+ Itoa (boxID b1)]
  /\ fst (buildRunFlags b1 c1 m1 s1) !! 0%nat = Some ("--box-id=" +:+ Itoa (boxID b1))
  /\ flagsWithPrefix "--box-id" (fst (buildRunFlags b1 c1 m1 s1))
     <> flagsWithPrefix "--box-id" (fst (buildRunFlags b2 c2 m2 s2)).
Proof.
  intros H1 H2 Hne.
  assert (Hflag : forall b c m s,
            flagsWithPrefix "--box-id" (fst (buildRunFlags b c m s))
            = ["--box-id=" +:+ Itoa (boxID b)]).
  { intros b c m s. rewrite flagsWithPrefix_split. no_dir_flags. no_env_flags.
    unfold fixedHead, limitFlags, stdioFlags. by_first_bytes. }
  split; [apply Hflag|]. split; [by rewrite buildRunFlags_shape|].
  rewrite !Hflag. intros [= Heq]. apply append_inj_l in Heq.
  apply Hne. pose proof (Atoi_Itoa _ H1) as Ha1. pose proof (Atoi_Itoa _ H2) as Ha2.
  rewrite Heq in Ha1. rewrite Ha1 in Ha2. by injection Ha2.
Qed.

Lemma box_id_flag_identifies_the_box_witness :
  flagsWithPrefix "--box-id" (fst (buildRunFlags box50 zeroConfig None [])) = ["--box-id=50"]
  /\ flagsWithPrefix "--box-id" (fst (buildRunFlags box50 zeroConfig None []))
     <> flagsWithPrefix "--box-id" (fst (buildRunFlags box51 limitsConfig None [])).
Proof.
  destruct (box_id_flag_identifies_the_box box50 box51 zeroConfig limitsConfig None None [] [])
    as (H1 & _ & H2); [vm_compute; split; discriminate..|discriminate|].
  split; [exact H1|exact H2].
Defined.

(* ===================================================================== *)
(** * Part IV: the report decoder on what it cannot read *)
(* ===================================================================== *)

(** ** The decoder on values that are no numerals *)

Lemma allDigits_digitPrefix s : allDigits (digitPrefix s) = true.
Proof.
  induction s as [|c s IH]; [done|]. cbn [digitPrefix].
  destruct (isDigit c) eqn:Hc; [|done]. cbn [allDigits]. by rewrite Hc, IH.
Qed.

Lemma digitsValue_ge s acc : allDigits s = true -> 0 <= acc -> acc <= digitsValue s acc.
Proof.
  intros Hs Hacc. pose proof (digitsValue_between s acc Hs) as [Hlo _].
  assert (0 < 10 ^ strlen s) by (apply Z.pow_pos_nonneg; [lia|apply strlen_nonneg]).
  nia.
Qed.

(** A byte that is no digit, met before the digits leave the range, is a
    syntax error. *)
Lemma parseUintLoop_stray_byte s :
  forall n,
    allDigits s = false -> 0 <= n <= maxUint64 ->
    digitsValue (digitPrefix s) n <= maxUint64 ->
    parseUintLoop s n = (0, Some ErrSyntax).
Proof.
  induction s as [|c s IH]; intros n Hs Hn Hfit; [done|].
  cbn [parseUintLoop digitPrefix allDigits] in *.
  destruct (isDigit c) eqn:Hc; [|done]. cbn [andb digitsValue] in *.
  pose proof (isDigit_byte c Hc) as Hb.
  pose proof (digitsValue_ge (digitPrefix s) (n * 10 + (byte c - 48))
                (allDigits_digitPrefix s) ltac:(lia)) as Hge.
  unfold maxUint64 in *.
  destruct (Z.leb_spec 1844674407370955162 n); [lia|]. cbv zeta.
  destruct (Z.ltb_spec 18446744073709551615 (n * 10 + (byte c - 48))); [lia|].
  apply IH; [done|lia|done].
Qed.

(** Once the digits have left the range, the bytes after them are not
    looked at. *)
Lemma parseUintLoop_overflow_first s :
  forall n,
    0 <= n <= maxUint64 ->
    maxUint64 < digitsValue (digitPrefix s) n ->
    parseUintLoop s n = (maxUint64, Some ErrRange).
Proof.
  induction s as [|c s IH]; intros n Hn Hbig; [cbn in Hbig; lia|].
  cbn [parseUintLoop digitPrefix] in *.
  destruct (isDigit c) eqn:Hc; [|cbn in Hbig; lia]. cbn [digitsValue] in Hbig.
  pose proof (isDigit_byte c Hc) as Hb.
  destruct (1844674407370955162 <=? n); [done|]. cbv zeta.
  destruct (Z.ltb_spec maxUint64 (n * 10 + (byte c - 48))); [done|].
  apply IH; [lia|done].
Qed.

(** [Atoi] on a value that is not the text of a decimal integer. *)
Lemma Atoi_malformed val :
  wellFormedInt val = false ->
  Atoi val = (valueOfMalformedInt val,
              Some (if leadingDigitsOverflow val then ErrRange else ErrSyntax)).
Proof.
  unfold valueOfMalformedInt, leadingDigitsOverflow, wellFormedInt, Atoi, ParseInt,
    intBody, hasMinus.
  destruct val as [|c rest]; [done|]. cbv zeta.
  set (body := if Ascii.eqb c "+" || Ascii.eqb c "-" then rest else String c rest).
  intros Hwf.
  assert (Hbody : body = "" \/ (body <> "" /\ allDigits body = false)).
  { subst body. destruct (Ascii.eqb c "+" || Ascii.eqb c "-").
    - destruct rest as [|r rest']; [by left|]. right. split; [done|].
      by rewrite andb_true_r in Hwf.
    - right. by split. }
  destruct Hbody as [->|[Hne Hnd]]; [done|].
  assert (Hloop : ParseUint body
                  = if maxUint64 <? digitsValue (digitPrefix body) 0
                    then (maxUint64, Some ErrRange) else (0, Some ErrSyntax)).
  { unfold ParseUint. destruct body as [|b0 body']; [done|].
    destruct (Z.ltb_spec maxUint64 (digitsValue (digitPrefix (String b0 body')) 0)).
    - apply parseUintLoop_overflow_first; [unfold maxUint64; lia|done].
    - apply parseUintLoop_stray_byte; [done|unfold maxUint64; lia|done]. }
  rewrite Hloop.
  destruct (maxUint64 <? digitsValue (digitPrefix body) 0); [|done].
  unfold maxUint64, maxInt64, minInt64. by destruct (Ascii.eqb c "-").
Qed.

(** ** The float parser reads float bytes only *)

Ltac by_all_bytes c :=
  destruct c as [b0 b1 b2 b3 b4 b5 b6 b7];
  destruct b0, b1, b2, b3, b4, b5, b6, b7; vm_compute; (reflexivity || discriminate).

Lemma floatByte_digit c : isDigit c = true -> floatByte c = true.
Proof. revert c. intros c. by_all_bytes c. Qed.

Lemma floatByte_mark c :
  (byte c =? 95) || (byte c =? 46) || (byte c =? 43) || (byte c =? 45) = true ->
  floatByte c = true.
Proof. by_all_bytes c. Qed.

Lemma floatByte_hex c : isHexLetter c = true -> floatByte c = true.
Proof. by_all_bytes c. Qed.

Lemma floatByte_lower c :
  (lower c =? 120) || (lower c =? 112) || (lower c =? 101) = true -> floatByte c = true.
Proof. by_all_bytes c. Qed.

Lemma floatByte_letter c :
  (toLowerAZ c =? 105) || (toLowerAZ c =? 110) || (toLowerAZ c =? 102)
  || (toLowerAZ c =? 116) || (toLowerAZ c =? 121) || (toLowerAZ c =? 97) = true ->
  floatByte c = true.
Proof. by_all_bytes c. Qed.

Lemma allFloatBytes_app a b : allFloatBytes (a +:+ b) = allFloatBytes a && allFloatBytes b.
Proof.
  induction a as [|c a IH]; [done|]. rewrite append_cons. cbn [allFloatBytes].
  by rewrite IH, andb_assoc.
Qed.

Lemma readDigits_consumed hex s :
  forall st st' s3,
    readDigits hex s st = (st', s3) ->
    exists pre, s = pre +:+ s3 /\ allFloatBytes pre = true.
Proof.
  induction s as [|c s IH]; intros st st' s3.
  - intros [= _ <-]. by exists "".
  - cbn [readDigits]. cbv zeta.
    assert (Hnext : forall st0,
              floatByte c = true ->
              readDigits hex s st0 = (st', s3) ->
              exists pre, String c s = pre +:+ s3 /\ allFloatBytes pre = true).
    { intros st0 Hc Hrd. destruct (IH _ _ _ Hrd) as (pre & -> & Hpre).
      exists (String c pre). split; [done|]. cbn [allFloatBytes]. by rewrite Hc, Hpre. }
    assert (Hstop : (st, String c s) = (st', s3) ->
              exists pre, String c s = pre +:+ s3 /\ allFloatBytes pre = true).
    { intros [= _ <-]. by exists "". }
    destruct (byte c =? 95) eqn:H95.
    { apply Hnext. apply floatByte_mark. by rewrite H95. }
    destruct (byte c =? 46) eqn:H46.
    { destruct (rf_sawdot st); [exact Hstop|].
      apply Hnext. apply floatByte_mark. by rewrite H46, !orb_true_r. }
    destruct (isDigit c) eqn:Hd.
    { destruct ((byte c =? 48) && (rf_nd st =? 0)); apply Hnext; by apply floatByte_digit. }
    destruct (hex && isHexLetter c) eqn:Hh; [|exact Hstop].
    apply andb_true_iff in Hh as [_ Hh]. apply Hnext. by apply floatByte_hex.
Qed.

Lemma readExpDigits_consumed s :
  forall e us e' us' s7,
    readExpDigits s e us = (e', us', s7) ->
    exists pre, s = pre +:+ s7 /\ allFloatBytes pre = true.
Proof.
  induction s as [|c s IH]; intros e us e' us' s7.
  - intros [= _ _ <-]. by exists "".
  - cbn [readExpDigits].
    assert (Hnext : forall e0 us0,
              floatByte c = true ->
              readExpDigits s e0 us0 = (e', us', s7) ->
              exists pre, String c s = pre +:+ s7 /\ allFloatBytes pre = true).
    { intros e0 us0 Hc Hrd. destruct (IH _ _ _ _ _ Hrd) as (pre & -> & Hpre).
      exists (String c pre). split; [done|]. cbn [allFloatBytes]. by rewrite Hc, Hpre. }
    destruct (byte c =? 95) eqn:H95.
    { apply Hnext. apply floatByte_mark. by rewrite H95. }
    destruct (isDigit c) eqn:Hd; [apply Hnext; by apply floatByte_digit|].
    intros [= _ _ <-]. by exists "".
Qed.

Lemma strlen_zero s : strlen s = 0 -> s = "".
Proof. destruct s; [done|]. unfold strlen. cbn [String.length]. lia. Qed.

(** The bytes matched by a prefix of [infinity] or of [nan]. *)
Lemma commonPrefix_bytes pre :
  (forall c p, hasByte p pre = true -> (toLowerAZ c =? byte p) = true -> floatByte c = true) ->
  forall s, strlen s <= commonPrefixLenIgnoreCase s pre -> allFloatBytes s = true.
Proof.
  induction pre as [|p pre IH]; intros Hpre s Hs.
  - destruct s as [|c s]; [done|]. cbn in Hs. pose proof (strlen_nonneg s).
    rewrite strlen_cons in Hs. lia.
  - destruct s as [|c s]; [done|]. cbn [commonPrefixLenIgnoreCase] in Hs.
    rewrite strlen_cons in Hs. pose proof (strlen_nonneg s).
    destruct (toLowerAZ c =? byte p) eqn:Hc; [|lia].
    cbn [allFloatBytes]. rewrite (Hpre c p); [|cbn [hasByte]; by rewrite Ascii.eqb_refl|done].
    apply IH; [|lia]. intros c' p' Hin. apply Hpre. cbn [hasByte]. by rewrite Hin, orb_true_r.
Qed.

Lemma special_letters pre :
  pre = "infinity" \/ pre = "nan" ->
  forall c p, hasByte p pre = true -> (toLowerAZ c =? byte p) = true -> floatByte c = true.
Proof.
  intros Hpre c p Hin Hc. apply floatByte_letter.
  assert (Hp : byte p = 105 \/ byte p = 110 \/ byte p = 102 \/ byte p = 116
               \/ byte p = 121 \/ byte p = 97).
  { destruct Hpre as [-> | ->]; cbn [hasByte] in Hin;
      repeat (apply orb_true_iff in Hin as [Hin|Hin];
              [apply Ascii.eqb_eq in Hin as <-; vm_compute; tauto|]);
      done. }
  destruct Hp as [Hp|[Hp|[Hp|[Hp|[Hp|Hp]]]]]; rewrite Hp in Hc; by rewrite Hc, ?orb_true_r.
Qed.

Lemma specialInf_consumed neg nsign s f n :
  specialInf neg nsign s = Some (f, n) ->
  n - nsign <= commonPrefixLenIgnoreCase s "infinity".
Proof.
  unfold specialInf. cbv zeta.
  set (n0 := commonPrefixLenIgnoreCase s "infinity").
  destruct ((3 <? n0) && (n0 <? 8)) eqn:Hmid.
  - apply andb_true_iff in Hmid as [H3 _]. apply Z.ltb_lt in H3.
    cbn. intros [= _ <-]. lia.
  - destruct ((n0 =? 3) || (n0 =? 8)); [|done]. intros [= _ <-]. lia.
Qed.

Lemma special_all_consumed s f n :
  special s = Some (f, n) -> n = strlen s -> allFloatBytes s = true.
Proof.
  unfold special. destruct s as [|c rest]; [done|]. cbv zeta.
  destruct ((byte c =? 43) || (byte c =? 45)) eqn:Hsign.
  { intros Hinf Hn. apply specialInf_consumed in Hinf.
    rewrite strlen_cons in Hn. cbn [allFloatBytes].
    rewrite floatByte_mark by (by rewrite <- orb_assoc, Hsign, !orb_true_r).
    apply (commonPrefix_bytes "infinity"); [apply special_letters; by left|lia]. }
  destruct ((byte c =? 105) || (byte c =? 73)).
  { intros Hinf Hn. apply specialInf_consumed in Hinf.
    apply (commonPrefix_bytes "infinity"); [apply special_letters; by left|lia]. }
  destruct ((byte c =? 110) || (byte c =? 78)); [|done].
  destruct (Z.eqb_spec (commonPrefixLenIgnoreCase (String c rest) "nan") 3) as [H3|]; [|done].
  intros [= _ <-] Hn.
  apply (commonPrefix_bytes "nan"); [apply special_letters; by right|lia].
Qed.

Lemma dropSign_bytes s : allFloatBytes (dropSign s) = true -> allFloatBytes s = true.
Proof.
  unfold dropSign. destruct s as [|c rest]; [done|].
  destruct ((byte c =? 43) || (byte c =? 45)) eqn:Hsign; [|done].
  intros Hrest. cbn [allFloatBytes]. rewrite Hrest, andb_true_r.
  apply floatByte_mark. by rewrite <- orb_assoc, Hsign, !orb_true_r.
Qed.

Lemma readFloat_all_consumed s r :
  readFloat s = Some r -> rr_n r = strlen s -> allFloatBytes s = true.
Proof.
  unfold readFloat. destruct s as [|c0 s0]; [done|].
  cbv zeta. set (s := String c0 s0). intros Hread Hn.
  apply dropSign_bytes. revert Hread.
  set (s1 := dropSign s).
  assert (Hhex : forall hex s2,
            match s1 with
            | String z (String x (String c r0)) =>
                if (byte z =? 48) && (lower x =? 120) then (true, String c r0) else (false, s1)
            | _ => (false, s1)
            end = (hex, s2) ->
            allFloatBytes s2 = true -> allFloatBytes s1 = true).
  { intros hex s2. destruct s1 as [|z [|x [|c r0]]]; try by intros [= _ <-].
    destruct ((byte z =? 48) && (lower x =? 120)) eqn:H0x; [|by intros [= _ <-]].
    apply andb_true_iff in H0x as [Hz Hx]. intros [= _ <-] Hrest.
    cbn [allFloatBytes] in *. rewrite Hrest, andb_true_r.
    rewrite (floatByte_lower x) by (by rewrite Hx).
    rewrite floatByte_digit; [done|]. unfold isDigit. apply Z.eqb_eq in Hz. rewrite Hz. done. }
  destruct (match s1 with
            | String z (String x (String c r0)) =>
                if (byte z =? 48) && (lower x =? 120) then (true, String c r0) else (false, s1)
            | _ => (false, s1)
            end) as [hex s2] eqn:Hs2.
  specialize (Hhex hex s2 eq_refl).
  destruct (readDigits hex s2 _) as [st s3] eqn:Hrd.
  apply readDigits_consumed in Hrd as (pre & -> & Hpre).
  destruct (negb (rf_sawdigits st)); [done|].
  intros Hread. apply Hhex. rewrite allFloatBytes_app, Hpre. cbn [andb].
  (* what [finish] returns consumed everything up to [rest] *)
  assert (Hfinish : forall dp us rest,
            (if us && negb (underscoreOK (takeBytes (Z.to_nat (strlen s - strlen rest)) s))
             then None
             else Some {| rr_mant := rf_mant st;
                          rr_exp := if rf_mant st =? 0 then 0
                                    else dp - (if hex then 4 else 1) * rf_nd st;
                          rr_neg := byte c0 =? 45; rr_hex := hex;
                          rr_n := strlen s - strlen rest |}) = Some r ->
            rest = "").
  { intros dp us rest. destruct (us && negb _); [done|]. intros [= <-]. cbn [rr_n] in Hn.
    apply strlen_zero. lia. }
  destruct s3 as [|ce s4].
  - done.
  - destruct (lower ce =? (if hex then 112 else 101)) eqn:Hce.
    + assert (Hcef : floatByte ce = true).
      { apply floatByte_lower. destruct hex; by rewrite Hce, ?orb_true_r. }
      cbn [allFloatBytes]. rewrite Hcef. cbn [andb].
      destruct s4 as [|cs s5]; [done|].
      set (s6 := if (byte cs =? 43) || (byte cs =? 45) then s5 else String cs s5) in *.
      assert (Hs6 : allFloatBytes s6 = true -> allFloatBytes (String cs s5) = true).
      { subst s6. destruct ((byte cs =? 43) || (byte cs =? 45)) eqn:Hsign; [|done].
        intros H5. cbn [allFloatBytes]. rewrite H5, andb_true_r.
        apply floatByte_mark. by rewrite <- orb_assoc, Hsign, !orb_true_r. }
      destruct s6 as [|cd s6'] eqn:Es6; [done|].
      destruct (isDigit cd); [|done].
      destruct (readExpDigits (String cd s6') 0 (rf_underscores st)) as [[e us] s7] eqn:Hexp.
      apply readExpDigits_consumed in Hexp as (pre' & Hs6' & Hpre').
      apply Hfinish in Hread. subst s7. apply Hs6. rewrite Hs6', allFloatBytes_app, Hpre'. done.
    + destruct hex; [done|]. by apply Hfinish in Hread.
Qed.

(** [ParseFloat] accepts a text only when every byte of it is a float
    byte: any other text is a syntax error and reads as zero. *)
Lemma ParseFloat_stray_byte val :
  allFloatBytes val = false -> ParseFloat val = (float64Zero, Some ErrSyntax).
Proof.
  intros Hval. unfold ParseFloat, parseFloatPrefix.
  destruct (special val) as [[f n]|] eqn:Hsp.
  - destruct (Z.eqb_spec n (strlen val)) as [Hn|]; [|done].
    by rewrite (special_all_consumed _ _ _ Hsp Hn) in Hval.
  - destruct (readFloat val) as [r|] eqn:Hrf; [|done].
    destruct (Z.eqb_spec (rr_n r) (strlen val)) as [Hn|].
    + by rewrite (readFloat_all_consumed _ _ Hrf Hn) in Hval.
    + by destruct (isInf _).
Qed.

(** ** The decoder, amended *)

Lemma digitPrefix_length s : strlen (digitPrefix s) <= strlen s.
Proof.
  induction s as [|c s IH]; [done|]. cbn [digitPrefix].
  destruct (isDigit c); rewrite ?strlen_cons; [lia|].
  pose proof (strlen_nonneg s). unfold strlen at 1. cbn. lia.
Qed.

Lemma short_values_do_not_overflow val :
  strlen val < 20 -> leadingDigitsOverflow val = false.
Proof.
  intros Hlen. unfold leadingDigitsOverflow. apply Z.ltb_ge.
  assert (Hbody : strlen (intBody val) <= strlen val).
  { unfold intBody. destruct val as [|c rest]; [done|].
    destruct (Ascii.eqb c "+" || Ascii.eqb c "-"); rewrite ?strlen_cons; lia. }
  pose proof (digitPrefix_length (intBody val)) as Hpre.
  pose proof (digitsValue_between _ 0 (allDigits_digitPrefix (intBody val))) as [_ Hhi].
  pose proof (strlen_nonneg (digitPrefix (intBody val))) as Hnn.
  assert (Hpow : 10 ^ strlen (digitPrefix (intBody val)) <= 10 ^ 19)
    by (apply Z.pow_le_mono_r; lia).
  change (10 ^ 19) with 10000000000000000000 in Hpow. unfold maxUint64. lia.
Qed.

(** C9, counterexample.  A value that is no numeral is not always read as
    zero: in [cg-mem:99999999999999999999x] the digits leave the 64-bit
    range before the [x] is met, and the field is set to [MaxInt64].  And a
    line is not always skipped: a line of 65536 bytes without a colon ends
    the decoding, so the status of the line after it is lost, although
    without the line it is decoded. *)
Lemma decoder_clamps_and_stops_at_a_long_line :
  (wellFormedInt "99999999999999999999x" = false
   /\ fst (parseMetaFile (Some "cg-mem:99999999999999999999x
") "") = Some (setMemory 9223372036854775807 zeroRunStats)
   /\ Memory (setMemory 9223372036854775807 zeroRunStats) <> 0)
  /\ (strlen longLine = 65536
      /\ snd (GoStrings.Cut longLine ":") = false
      /\ fst (parseMetaFile (Some (longLine +:+ "
status:OK
")) "") = Some zeroRunStats
      /\ fst (parseMetaFile (Some "status:OK
") "") = Some (setStatus "OK" zeroRunStats)
      /\ Status zeroRunStats <> "OK").
Proof.
  split.
  - split; [reflexivity|]. split; [reflexivity|]. cbn. discriminate.
  - split; [by vm_compute|]. split; [by vm_compute|]. split; [by vm_compute|].
    split; [reflexivity|]. cbn. discriminate.
Qed.

(** C9, amended.  The decoder returns a report for every text: it folds
    [parseLine] over the lines the scanner delivers.  These are the lines
    of the text in order up to the first line of 65536 bytes or more, all
    of them when there is none; at such a line the scanner stops, and that
    line and the lines after it are not decoded.  Among the lines
    delivered, for every report [file] reached so far: a line without a
    colon leaves [file] as it is; so does a line whose key is not one of
    the stored keys (an unknown key is logged); dropping such a line changes
    no field of the result.  A line with an integer key ([cg-mem],
    [exitcode], [exitsig]) whose value is not an optional sign followed by
    digits sets that one field to zero, unless the digits the value starts
    with, after its sign, already exceed the unsigned 64-bit range, which a
    value of fewer than 20 bytes never does: then the field is set to
    [MaxInt64], or to [MinInt64] after a minus sign.  A line with the key
    [time] sets that field to zero whenever [ParseFloat] reports a syntax
    error for the value, as it does for every value holding a byte that
    occurs in no float literal. *)
Theorem decoder_salvages_the_delivered_lines :
  (forall text out,
     exists file log,
       parseMetaFile (Some text) out = (Some file, log)
       /\ InternalMessage file = out
       /\ (file, log)
          = parseLines (setInternalMessage out zeroRunStats) (GoBufio.scanLines text))
  /\ (forall text,
        Forall (fun l => strlen l < GoBufio.MaxScanTokenSize) (GoBufio.rawLines text) ->
        GoBufio.scanLines text = map GoBufio.dropCR (GoBufio.rawLines text))
  /\ (forall text l1 long l2,
        GoBufio.rawLines text = l1 ++ long :: l2 ->
        Forall (fun l => strlen l < GoBufio.MaxScanTokenSize) l1 ->
        GoBufio.MaxScanTokenSize <= strlen long ->
        GoBufio.scanLines text = map GoBufio.dropCR l1)
  /\ (forall file line, noSeparator line -> parseLine file line = (file, []))
  /\ (forall file line, skippedKey line -> fst (parseLine file line) = file)
  /\ (forall file key val,
        key ∉ storedKeys -> key ∉ ignoredKeys ->
        parseField file key val = (file, [LogUnknownStat key val]))
  /\ (forall file l1 line l2,
        noSeparator line \/ skippedKey line ->
        fst (parseLines file (l1 ++ line :: l2)) = fst (parseLines file (l1 ++ l2)))
  /\ (forall file line val,
        keyed "cg-mem" line val -> wellFormedInt val = false ->
        parseLine file line = (setMemory (valueOfMalformedInt val) file, []))
  /\ (forall file line val,
        keyed "exitcode" line val -> wellFormedInt val = false ->
        parseLine file line = (setExitCode (valueOfMalformedInt val) file, []))
  /\ (forall file line val,
        keyed "exitsig" line val -> wellFormedInt val = false ->
        parseLine file line = (setExitSignal (valueOfMalformedInt val) file, []))
  /\ (forall val,
        valueOfMalformedInt val
        = if leadingDigitsOverflow val then (if hasMinus val then minInt64 else maxInt64)
          else 0)
  /\ (forall val, strlen val < 20 -> leadingDigitsOverflow val = false)
  /\ (forall file line val,
        keyed "time" line val -> snd (ParseFloat val) = Some ErrSyntax ->
        parseLine file line = (setTime float64Zero file, []))
  /\ (forall file line val,
        keyed "time" line val -> allFloatBytes val = false ->
        parseLine file line = (setTime float64Zero file, [])).
Proof.
  split.
  { intros text out. unfold parseMetaFile.
    destruct (parseLines (setInternalMessage out zeroRunStats) (GoBufio.scanLines text))
      as [file log] eqn:E.
    exists file, log. split; [done|]. split; [|done].
    assert (Hkeep : forall lines f,
              InternalMessage (fst (parseLines f lines)) = InternalMessage f).
    { induction lines as [|l lines IH]; intros f; [done|].
      cbn [parseLines]. destruct (parseLine f l) as [f' g] eqn:El.
      specialize (IH f'). destruct (parseLines f' lines) as [f'' g']. cbn [fst] in *.
      rewrite IH. unfold parseLine in El.
      destruct (GoStrings.Cut l ":") as [[key val] found].
      destruct found; cbn in El; [|by injection El as <- _].
      unfold parseField in El.
      repeat match type of El with
             | (if ?x then _ else _) = _ => destruct x
             end; by injection El as <- _. }
    specialize (Hkeep (GoBufio.scanLines text) (setInternalMessage out zeroRunStats)).
    by rewrite E in Hkeep. }
  split; [intros text; apply scanTokens_short|].
  split.
  { intros text l1 long l2 Hraw Hshort Hlong. unfold GoBufio.scanLines. rewrite Hraw.
    by apply scanTokens_stop. }
  split; [apply parseLine_noSeparator|].
  split; [apply parseLine_skippedKey|].
  split.
  { intros file key val Hs Hi. rewrite parseField_skipped by done.
    assert (Hex : existsb (String.eqb key) ignoredKeys = false).
    { apply not_true_is_false. intros Hex. apply existsb_exists in Hex as (k & Hin & Hk).
      apply String.eqb_eq in Hk as ->. apply Hi. by apply list_elem_of_In. }
    by rewrite Hex. }
  split.
  { intros file l1 line l2 Hline. rewrite !parseLines_app. cbn [fst].
    cbn [parseLines].
    assert (Hsame : fst (parseLine (fst (parseLines file l1)) line) = fst (parseLines file l1)).
    { destruct Hline as [H|H]; [by rewrite parseLine_noSeparator|by apply parseLine_skippedKey]. }
    destruct (parseLine (fst (parseLines file l1)) line) as [f g]. cbn [fst] in Hsame. subst f.
    by destruct (parseLines (fst (parseLines file l1)) l2). }
  assert (Hint : forall file key line val set,
            keyed key line val -> wellFormedInt val = false ->
            parseField file key val = (set (fst (Atoi val)) file, []) ->
            parseLine file line = (set (valueOfMalformedInt val) file, [])).
  { intros file key line val set Hk Hv Hf. rewrite (parseLine_keyed _ _ _ _ Hk), Hf.
    by rewrite (Atoi_malformed val Hv). }
  split; [intros file line val Hk Hv; by apply (Hint file _ line val setMemory Hk Hv)|].
  split; [intros file line val Hk Hv; by apply (Hint file _ line val setExitCode Hk Hv)|].
  split; [intros file line val Hk Hv; by apply (Hint file _ line val setExitSignal Hk Hv)|].
  split; [done|].
  split; [apply short_values_do_not_overflow|].
  assert (Htime : forall file line val,
            keyed "time" line val -> snd (ParseFloat val) = Some ErrSyntax ->
            parseLine file line = (setTime float64Zero file, [])).
  { intros file line val Hk Hv. rewrite (parseLine_keyed _ _ _ _ Hk).
    unfold parseField; cbn [String.eqb Ascii.eqb Bool.eqb].
    destruct (ParseFloat val) as [v e] eqn:E.
    cbn [fst snd] in *. subst e. apply ParseFloat_syntax in E. by subst v. }
  split; [exact Htime|].
  intros file line val Hk Hv. apply (Htime file line val Hk). by rewrite ParseFloat_stray_byte.
Qed.

Lemma decoder_salvages_the_delivered_lines_witness :
  fst (parseMetaFile (Some "cg-mem:12x
garbage
future-key:1
status:OK
exitcode: 1
time:0.042s
") "")
  = Some {| Memory := 0; ExitCode := 0; ExitSignal := 0; Killed := false;
            Message := ""; Status := "OK"; Time := float64Zero;
            InternalMessage := "" |}
  /\ parseLine zeroRunStats "garbage" = (zeroRunStats, [])
  /\ fst (parseLine zeroRunStats "future-key:1") = zeroRunStats
  /\ parseLine zeroRunStats "cg-mem:12x" = (setMemory 0 zeroRunStats, [])
  /\ parseLine zeroRunStats "exitsig:-99999999999999999999x"
     = (setExitSignal minInt64 zeroRunStats, [])
  /\ parseLine zeroRunStats "time:0.042s" = (setTime float64Zero zeroRunStats, []).
Proof.
  destruct decoder_salvages_the_delivered_lines
    as (_ & _ & _ & Hsep & Hskip & _ & _ & Hmem & _ & Hsig & _ & _ & _ & Htime).
  split; [reflexivity|].
  split; [apply Hsep; reflexivity|].
  split; [apply Hskip; split; [reflexivity|apply (bool_decide_unpack _); vm_compute; exact I]|].
  split; [apply (Hmem _ _ "12x"); reflexivity|].
  split; [apply (Hsig _ _ "-99999999999999999999x"); reflexivity|].
  apply (Htime _ _ "0.042s"); reflexivity.
Defined.
